(** * osrs_info: hiscores classification and tradeable item search

    A shallow embedding of the Python package [osrs_info]
    (hiscores.py, items.py, client.py, constants.py) and the proofs of
    its specification.

    Modelling conventions.
    - A Python [str] is a Rocq [string]; a character is the code point
      it denotes, so the model is exact for text in the range 0..255.
    - A decoded JSON body is a [json] value.  Python's [None] and JSON's
      [null] are the same object, [JNull].  Numbers are integers.
    - A method of a class is a computation in the monad [M S], where [S]
      is the record of the instance's fields: it returns a value or
      raises, and the state it leaves behind is kept in both cases, as
      for a Python method that raises half way.
    - The network is an argument [net] of every operation that may send a
      request: the outcome the transport would deliver for each URL. *)

From Stdlib Require Import ZArith String Ascii List DecimalString.
From Stdlib Require Import Sorting.Permutation Sorting.Sorted.
From stdpp Require Import gmap strings list fin_maps.

Open Scope string_scope.
Open Scope Z_scope.

(** ** Python strings *)

Module pystr.

(** [str.isspace] on one character: the ASCII table of CPython
    (tab, line feed, vertical tab, form feed, carriage return, the four
    separators 28..31, space) and, above it, NEL and the no-break space. *)
Definition is_space (c : ascii) : bool :=
  let n := N_of_ascii c in
  ((9 <=? n) && (n <=? 13) || (28 <=? n) && (n <=? 32)
   || (n =? 133) || (n =? 160))%N.

(** [str.lower] on one character: A..Z and the capital letters of
    Latin-1 (192..222 but the multiplication sign 215) move up by 32. *)
Definition lower_char (c : ascii) : ascii :=
  let n := N_of_ascii c in
  if ((65 <=? n) && (n <=? 90)
      || (192 <=? n) && (n <=? 222) && negb (n =? 215))%N
  then ascii_of_N (n + 32) else c.

(** [s.lower()] *)
Fixpoint lower (s : string) : string :=
  match s with
  | EmptyString => EmptyString
  | String c s' => String (lower_char c) (lower s')
  end.

(** [s.lstrip()] *)
Fixpoint lstrip (s : string) : string :=
  match s with
  | EmptyString => EmptyString
  | String c s' => if is_space c then lstrip s' else s
  end.

(** [s.rstrip()] *)
Fixpoint rstrip (s : string) : string :=
  match s with
  | EmptyString => EmptyString
  | String c s' =>
      match rstrip s' with
      | EmptyString => if is_space c then EmptyString else String c EmptyString
      | r => String c r
      end
  end.

(** [s.strip()] *)
Definition strip (s : string) : string := lstrip (rstrip s).

(** [s.replace(old, new)] for a pattern [old] of one character, the only
    form the package calls. *)
Fixpoint replace (old : ascii) (new : string) (s : string) : string :=
  match s with
  | EmptyString => EmptyString
  | String c s' =>
      if Ascii.eqb c old then new +:+ replace old new s'
      else String c (replace old new s')
  end.

(** [s.split()] with no separator: the maximal runs of characters that
    are not white space, in order; no empty word. *)
Fixpoint split (s : string) : list string :=
  match s with
  | EmptyString => []
  | String c s' =>
      if is_space c then split s'
      else match s' with
           | EmptyString => [String c EmptyString]
           | String c' _ =>
               if is_space c' then String c EmptyString :: split s'
               else match split s' with
                    | w :: ws => String c w :: ws
                    | [] => [String c EmptyString]
                    end
           end
  end.

(** [sep.join(words)] *)
Definition join (sep : string) (words : list string) : string :=
  String.concat sep words.

(** [s.startswith(p)] *)
Definition startswith (s p : string) : bool := String.prefix p s.

(** [s.endswith(p)] *)
Definition endswith (s p : string) : bool :=
  let n := String.length s in
  let m := String.length p in
  (m <=? n)%nat && String.eqb (String.substring (n - m) m s) p.

(** [needle in hay] on strings. *)
Fixpoint contains (needle hay : string) : bool :=
  String.prefix needle hay ||
  match hay with
  | EmptyString => false
  | String _ hay' => contains needle hay'
  end.

End pystr.

(** ** Python values and exceptions *)

(** The exceptions the package raises or lets through.  [RequestException]
    stands for whatever [requests] raises inside a [try] block (no
    connection, an error status, a body that is not JSON). *)
Inductive exn : Type :=
| FetchError | KeyError | ValueError | TypeError | AttributeError
| ImportError | IndexError | RequestException.

Inductive result (A : Type) : Type :=
| Ok (a : A)
| Raise (e : exn).
Arguments Ok {A} a.
Arguments Raise {A} e.

#[global] Instance result_ret : MRet result := fun A a => Ok a.
#[global] Instance result_bind : MBind result := fun A B k r =>
  match r with Ok a => k a | Raise e => Raise e end.

(** A method on an object whose fields are [S]: the outcome and the
    fields it leaves behind.  An exception keeps the assignments made
    before it. *)
Definition M (S A : Type) : Type := S -> result A * S.

#[global] Instance M_ret S : MRet (M S) := fun A a s => (Ok a, s).
#[global] Instance M_bind S : MBind (M S) := fun A B k m s =>
  match m s with
  | (Ok a, s') => k a s'
  | (Raise e, s') => (Raise e, s')
  end.

Definition raise {S A} (e : exn) : M S A := fun s => (Raise e, s).
Definition lift {S A} (r : result A) : M S A := fun s => (r, s).
Definition read {S} : M S S := fun s => (Ok s, s).
Definition modify {S} (f : S -> S) : M S unit := fun s => (Ok tt, f s).

(** [for x in l: body x] *)
Fixpoint for_each {S A} (l : list A) (body : A -> M S unit) : M S unit :=
  match l with
  | [] => mret tt
  | x :: l' => body x;; for_each l' body
  end.

(** [[f x for x in l]], where [f] may raise. *)
Fixpoint map_result {A B} (f : A -> result B) (l : list A) : result (list B) :=
  match l with
  | [] => Ok []
  | x :: l' => y ← f x; ys ← map_result f l'; Ok (y :: ys)
  end.

(** [[x for x in l if f x]], where [f] may raise. *)
Fixpoint filter_result {A} (f : A -> result bool) (l : list A) : result (list A) :=
  match l with
  | [] => Ok []
  | x :: l' =>
      f x ≫= fun b : bool =>
      ys ← filter_result f l'; Ok (if b then x :: ys else ys)
  end.

(** [for x in l: if f x: return x], the first hit or [None]. *)
Fixpoint find_result {A} (f : A -> result bool) (l : list A) : result (option A) :=
  match l with
  | [] => Ok None
  | x :: l' => f x ≫= fun b : bool => if b then Ok (Some x) else find_result f l'
  end.

#[warnings="-register-all"]
Inductive json : Type :=
| JNull
| JBool (b : bool)
| JNum (n : Z)
| JStr (s : string)
| JArr (items : list json)
| JObj (fields : list (string * json)).

(** A [dict] with [str] keys, in insertion order; a key occurs once. *)
Abbreviation dict := (list (string * json)).

Module py.

(** [k in d] and [d.get(k)] on a dict. *)
Fixpoint dict_get (d : dict) (k : string) : option json :=
  match d with
  | [] => None
  | (k', v) :: d' => if String.eqb k' k then Some v else dict_get d' k
  end.

Definition dict_has (d : dict) (k : string) : bool :=
  match dict_get d k with Some _ => true | None => false end.

(** [bool(v)], the test of [if v], [not v] and [v or w]. *)
Definition truthy (v : json) : bool :=
  match v with
  | JNull => false
  | JBool b => b
  | JNum n => negb (n =? 0)
  | JStr s => negb (String.eqb s "")
  | JArr l => match l with [] => false | _ => true end
  | JObj d => match d with [] => false | _ => true end
  end.

(** [v is None] *)
Definition is_none (v : json) : bool :=
  match v with JNull => true | _ => false end.

(** The values [for x in v] runs over: the items of a list, the keys of
    a dict, the characters of a string; the other values are not
    iterable. *)
Definition iter (v : json) : result (list json) :=
  match v with
  | JArr l => Ok l
  | JObj d => Ok (map (fun kv => JStr (fst kv)) d)
  | JStr s => Ok (map (fun c => JStr (String c EmptyString)) (list_ascii_of_string s))
  | _ => Raise TypeError
  end.

(** [v[k]] for a string [k]: only a dict can be indexed by a string. *)
Definition getitem (v : json) (k : string) : result json :=
  match v with
  | JObj d => match dict_get d k with Some x => Ok x | None => Raise KeyError end
  | _ => Raise TypeError
  end.

(** [v.get(k, default)]: only a dict has the method. *)
Definition get (v : json) (k : string) (default : json) : result json :=
  match v with
  | JObj d => Ok (match dict_get d k with Some x => x | None => default end)
  | _ => Raise AttributeError
  end.

(** The receiver of a [str] method ([v.strip()]): a value that is not a
    string has no such attribute. *)
Definition as_str (v : json) : result string :=
  match v with
  | JStr s => Ok s
  | _ => Raise AttributeError
  end.

(** [dict(v)]: a fresh dict with the entries of the dict [v].  For a [v]
    that is not a dict Python raises [TypeError] or [ValueError], or
    builds a dict when [v] is a list of pairs; the fields this is called
    on are annotated [dict[str, Any]], and the model raises [TypeError]
    for every other value. *)
Definition to_dict (v : json) : result dict :=
  match v with
  | JObj d => Ok d
  | _ => Raise TypeError
  end.

(** [lst[:n]] *)
Definition slice_to {A} (l : list A) (n : Z) : list A :=
  if n <? 0 then firstn (Z.to_nat (Z.of_nat (length l) + n)) l
  else firstn (Z.to_nat n) l.

(** [repr(s)] of a string: single quotes, unless the string holds a
    single quote and no double quote; the quote and the backslash are
    escaped, tab, line feed and carriage return are written with their
    letter, and what is not printable is written as [\xhh]. *)
Definition hex_digit (n : N) : ascii :=
  if (n <? 10)%N then ascii_of_N (48 + n) else ascii_of_N (87 + n).

Definition has_char (c : ascii) (s : string) : bool :=
  existsb (Ascii.eqb c) (list_ascii_of_string s).

Definition repr_char (quote c : ascii) : string :=
  let n := N_of_ascii c in
  let one (x : ascii) := String x EmptyString in
  if Ascii.eqb c quote || Ascii.eqb c "\" then String "\" (one c)
  else if (n =? 9)%N then "\t"
  else if (n =? 10)%N then "\n"
  else if (n =? 13)%N then "\r"
  else if ((n <? 32) || (n =? 127) || (128 <=? n) && (n <=? 160) || (n =? 173))%N
       then String "\" (String "x" (String (hex_digit (n / 16)) (one (hex_digit (n mod 16)))))
  else one c.

Definition repr_str (s : string) : string :=
  let dq := "034"%char in
  let quote := if has_char "'" s && negb (has_char dq s) then dq else "'"%char in
  String quote (String.concat "" (map (repr_char quote) (list_ascii_of_string s)))
  +:+ String quote EmptyString.

(** [repr(v)] *)
Fixpoint repr (v : json) : string :=
  match v with
  | JNull => "None"
  | JBool b => if b then "True" else "False"
  | JNum n => NilZero.string_of_int (Z.to_int n)
  | JStr s => repr_str s
  | JArr l => "[" +:+ String.concat ", " (map repr l) +:+ "]"
  | JObj d =>
      "{" +:+ String.concat ", "
                (map (fun kv => repr_str (fst kv) +:+ ": " +:+ repr (snd kv)) d)
      +:+ "}"
  end.

(** [str(v)]: a string is itself, every other value is its [repr]. *)
Definition str (v : json) : string :=
  match v with
  | JStr s => s
  | _ => repr v
  end.

(** [v == n] for an [int] [n]: a number equal to it, or the boolean
    that counts as it. *)
Definition eq_int (v : json) (n : Z) : bool :=
  match v with
  | JNum m => m =? n
  | JBool b => (if b then 1 else 0) =? n
  | _ => false
  end.

(** [lst.sort(key=...)] on a list already paired with its keys: a stable
    sort by the key, strings compared by code point.  A stable sort has
    one result, whatever the algorithm; this is insertion from the right. *)
Fixpoint insert_keyed {A} (x : string * A) (l : list (string * A))
  : list (string * A) :=
  match l with
  | [] => [x]
  | y :: l' =>
      if String.ltb (fst y) (fst x) then y :: insert_keyed x l'
      else x :: y :: l'
  end.

Fixpoint sort_keyed {A} (l : list (string * A)) : list (string * A) :=
  match l with
  | [] => []
  | x :: l' => insert_keyed x (sort_keyed l')
  end.

End py.

(** ** The transport *)

(** What [requests.get] is called with. *)
Record request : Type := {
  req_url : string;
  req_params : list (string * string);
  req_headers : list (string * string);
  req_timeout : Z;
}.

(** What comes back: nothing (the call itself raises), or a response
    with its status and its body, [None] when the body is not JSON. *)
Inductive response : Type :=
| NoResponse
| Response (status : Z) (body : option json).

Abbreviation network := (request -> response).

(** The body of the [try] blocks:
    [r = requests.get(...); r.raise_for_status(); return r.json()]. *)
Definition requests_get_json (net : network) (req : request) : result json :=
  match net req with
  | NoResponse => Raise RequestException
  | Response status body =>
      if (400 <=? status) && (status <? 600) then Raise RequestException
      else match body with
           | Some v => Ok v
           | None => Raise RequestException
           end
  end.

(** ** constants.py *)

Module constants.

Definition DEFAULT_HISCORES_BASE_URL : string :=
  "https://secure.runescape.com/m=hiscore_oldschool".
Definition DEFAULT_ITEMS_BASE_URL : string :=
  "https://prices.runescape.wiki/api/v1/osrs".
Definition DEFAULT_TIMEOUT : Z := 10.

Definition NON_BOSS_ACTIVITY_KEYS : gset string :=
  {[ "grid_points"; "league_points"; "deadman_points"; "seasonal_points";
     "tournament_points"; "collection_log"; "collections_logged";
     "colosseum_glory" ]}.

Definition PVP_ACTIVITY_KEYS : gset string :=
  {[ "bounty_hunter_hunter"; "bounty_hunter_rogue";
     "bounty_hunter_legacy_hunter"; "bounty_hunter_legacy_rogue";
     "last_man_standing"; "lms_rank"; "pvp_arena_rank"; "pvp_arena";
     "soul_wars_zeal"; "rifts_closed" ]}.

End constants.

(** ** client.py *)

Module client.

Record HiscoresClient : Type := {
  base_url : string;
  timeout : Z;
}.

Definition default : HiscoresClient :=
  {| base_url := constants.DEFAULT_HISCORES_BASE_URL;
     timeout := constants.DEFAULT_TIMEOUT |}.

(** The five flags of [_mode_suffix], as Python has bound them from the
    keywords [**modes] of a call; [bind_modes] below is that binding,
    with the [TypeError] of a keyword that is none of the five. *)
Record modes : Type := {
  ironman : bool;
  hardcore : bool;
  ultimate : bool;
  deadman : bool;
  seasonal : bool;
}.

Definition normal : modes :=
  {| ironman := false; hardcore := false; ultimate := false;
     deadman := false; seasonal := false |}.

Definition _mode_suffix (m : modes) : string :=
  if seasonal m then "_seasonal"
  else if deadman m then "_deadman"
  else if ultimate m then "_ultimate"
  else if hardcore m then "_hardcore_ironman"
  else if ironman m then "_ironman"
  else "".

Definition fetch_index_lite_json
    (net : network) (self : HiscoresClient) (username : string) (m : modes)
  : result json :=
  let mode := _mode_suffix m in
  let url := base_url self +:+ mode +:+ "/index_lite.json" in
  match requests_get_json net
          {| req_url := url; req_params := [("player", username)];
             req_headers := []; req_timeout := timeout self |} with
  | Ok v => Ok v
  | Raise _ => Raise FetchError
  end.

(** The keywords [_mode_suffix] takes. *)
Definition mode_names : list string :=
  ["ironman"; "hardcore"; "ultimate"; "deadman"; "seasonal"].

(** The flags bound from the keywords of a call: a keyword that is left
    out is [False], and one that is given counts by its truth value
    ([if seasonal:]). *)
Definition bound (kwargs : dict) : modes :=
  let flag k :=
    match py.dict_get kwargs k with
    | Some v => py.truthy v
    | None => false
    end in
  {| ironman := flag "ironman"; hardcore := flag "hardcore";
     ultimate := flag "ultimate"; deadman := flag "deadman";
     seasonal := flag "seasonal" |}.

(** The call of [_mode_suffix] with the keywords: a keyword that is none of the five
    raises [TypeError] at the call. *)
Definition bind_modes (kwargs : dict) : result modes :=
  if forallb (fun kv => bool_decide (fst kv ∈ mode_names)) kwargs
  then Ok (bound kwargs)
  else Raise TypeError.

(** [fetch_index_lite_json(username, **modes)] with the keywords as the
    caller gives them: they are bound before the [try] block. *)
Definition fetch_index_lite_json_kw
    (net : network) (self : HiscoresClient) (username : string) (kwargs : dict)
  : result json :=
  m ← bind_modes kwargs;
  fetch_index_lite_json net self username m.

End client.

(** ** hiscores.py *)

Module hiscores.

Definition normalize_name (name : string) : string :=
  let s := pystr.lower (pystr.strip name) in
  let s := pystr.replace "'" "" s in
  let s :=
    fold_left (fun s ch => pystr.replace ch " " s)
              ["-"%char; ":"%char; "("%char; ")"%char; ","%char] s in
  pystr.join "_" (pystr.split s).

(** The fields of the dataclass.  The five buckets are dicts from the
    normalized key to the stored entry. *)
Record Hiscores : Type := {
  username : string;
  client : client.HiscoresClient;
  raw_json : json;
  fetched : bool;
  parsed : bool;
  skill_order : list string;
  clue_order : list string;
  pvp_order : list string;
  activity_order : list string;
  boss_order : list string;
  skills : gmap string dict;
  clues : gmap string dict;
  pvp : gmap string dict;
  activities : gmap string dict;
  bosses : gmap string dict;
}.

(** [Hiscores(username, client)] *)
Definition new (username : string) (c : client.HiscoresClient) : Hiscores :=
  {| username := username; client := c; raw_json := JNull;
     fetched := false; parsed := false;
     skill_order := []; clue_order := []; pvp_order := [];
     activity_order := []; boss_order := [];
     skills := ∅; clues := ∅; pvp := ∅; activities := ∅; bosses := ∅ |}.

(** Assignments to one field. *)
Definition set_raw_json (v : json) (self : Hiscores) : Hiscores :=
  let '(Build_Hiscores u c _ f p so co po ao bo s cl pv ac b) := self in
  Build_Hiscores u c v f p so co po ao bo s cl pv ac b.
Definition set_fetched (v : bool) (self : Hiscores) : Hiscores :=
  let '(Build_Hiscores u c r _ p so co po ao bo s cl pv ac b) := self in
  Build_Hiscores u c r v p so co po ao bo s cl pv ac b.
Definition set_parsed (v : bool) (self : Hiscores) : Hiscores :=
  let '(Build_Hiscores u c r f _ so co po ao bo s cl pv ac b) := self in
  Build_Hiscores u c r f v so co po ao bo s cl pv ac b.
Definition set_skill_order (v : list string) (self : Hiscores) : Hiscores :=
  let '(Build_Hiscores u c r f p _ co po ao bo s cl pv ac b) := self in
  Build_Hiscores u c r f p v co po ao bo s cl pv ac b.
Definition set_clue_order (v : list string) (self : Hiscores) : Hiscores :=
  let '(Build_Hiscores u c r f p so _ po ao bo s cl pv ac b) := self in
  Build_Hiscores u c r f p so v po ao bo s cl pv ac b.
Definition set_pvp_order (v : list string) (self : Hiscores) : Hiscores :=
  let '(Build_Hiscores u c r f p so co _ ao bo s cl pv ac b) := self in
  Build_Hiscores u c r f p so co v ao bo s cl pv ac b.
Definition set_activity_order (v : list string) (self : Hiscores) : Hiscores :=
  let '(Build_Hiscores u c r f p so co po _ bo s cl pv ac b) := self in
  Build_Hiscores u c r f p so co po v bo s cl pv ac b.
Definition set_boss_order (v : list string) (self : Hiscores) : Hiscores :=
  let '(Build_Hiscores u c r f p so co po ao _ s cl pv ac b) := self in
  Build_Hiscores u c r f p so co po ao v s cl pv ac b.
Definition set_skills (v : gmap string dict) (self : Hiscores) : Hiscores :=
  let '(Build_Hiscores u c r f p so co po ao bo _ cl pv ac b) := self in
  Build_Hiscores u c r f p so co po ao bo v cl pv ac b.
Definition set_clues (v : gmap string dict) (self : Hiscores) : Hiscores :=
  let '(Build_Hiscores u c r f p so co po ao bo s _ pv ac b) := self in
  Build_Hiscores u c r f p so co po ao bo s v pv ac b.
Definition set_pvp (v : gmap string dict) (self : Hiscores) : Hiscores :=
  let '(Build_Hiscores u c r f p so co po ao bo s cl _ ac b) := self in
  Build_Hiscores u c r f p so co po ao bo s cl v ac b.
Definition set_activities (v : gmap string dict) (self : Hiscores) : Hiscores :=
  let '(Build_Hiscores u c r f p so co po ao bo s cl pv _ b) := self in
  Build_Hiscores u c r f p so co po ao bo s cl pv v b.
Definition set_bosses (v : gmap string dict) (self : Hiscores) : Hiscores :=
  let '(Build_Hiscores u c r f p so co po ao bo s cl pv ac _) := self in
  Build_Hiscores u c r f p so co po ao bo s cl pv ac v.

(** [fetch]: the three assignments happen only when the client
    returned. *)
Definition fetch (net : network) (m : client.modes) : M Hiscores unit :=
  self ← read;
  v ← lift (client.fetch_index_lite_json net (client self) (username self) m);
  modify (set_raw_json v);;
  modify (set_fetched true);;
  modify (set_parsed false).

(** [fetch] with the keywords as the caller gives them. *)
Definition fetch_kw (net : network) (kwargs : dict) : M Hiscores unit :=
  self ← read;
  v ← lift (client.fetch_index_lite_json_kw net (client self) (username self)
              kwargs);
  modify (set_raw_json v);;
  modify (set_fetched true);;
  modify (set_parsed false).

(** The dict literal [{f: row.get(f) for the listed fields}]. *)
Definition entry_of (row : json) (fields : list string) : result dict :=
  map_result (fun f => v ← py.get row f JNull; Ok (f, v)) fields.

(** [key = normalize_name(row["name"])] *)
Definition key_of (row : json) : result string :=
  name ← py.getitem row "name";
  s ← py.as_str name;
  Ok (normalize_name s).

(** The body of the loop of [_parse_skills]. *)
Definition skills_row (row : json) : M Hiscores unit :=
  key ← lift (key_of row);
  modify (fun self => set_skill_order (skill_order self ++ [key]) self);;
  e ← lift (entry_of row ["id"; "name"; "rank"; "level"; "xp"]);
  modify (fun self => set_skills (<[key := e]> (skills self)) self).

Definition _parse_skills (skills_arg : json) : M Hiscores unit :=
  modify (set_skills ∅);;
  modify (set_skill_order []);;
  rows ← lift (py.iter skills_arg);
  for_each rows skills_row.

(** The body of the loop of [_parse_activities]. *)
Definition activities_row (row : json) : M Hiscores unit :=
  key ← lift (key_of row);
  data ← lift (entry_of row ["id"; "name"; "rank"; "score"]);
  if pystr.startswith key "clue_scrolls_" then
    modify (fun self => set_clue_order (clue_order self ++ [key]) self);;
    modify (fun self => set_clues (<[key := data]> (clues self)) self)
  else if bool_decide (key ∈ constants.PVP_ACTIVITY_KEYS) then
    modify (fun self => set_pvp_order (pvp_order self ++ [key]) self);;
    modify (fun self => set_pvp (<[key := data]> (pvp self)) self)
  else if bool_decide (key ∈ constants.NON_BOSS_ACTIVITY_KEYS)
          || pystr.endswith key "_points"
          || pystr.endswith key "_rank" then
    modify (fun self => set_activity_order (activity_order self ++ [key]) self);;
    modify (fun self => set_activities (<[key := data]> (activities self)) self)
  else
    modify (fun self => set_boss_order (boss_order self ++ [key]) self);;
    modify (fun self => set_bosses (<[key := data]> (bosses self)) self).

Definition _parse_activities (acts : json) : M Hiscores unit :=
  modify (set_clues ∅);;
  modify (set_pvp ∅);;
  modify (set_activities ∅);;
  modify (set_bosses ∅);;
  modify (set_clue_order []);;
  modify (set_pvp_order []);;
  modify (set_activity_order []);;
  modify (set_boss_order []);;
  rows ← lift (py.iter acts);
  for_each rows activities_row.

Definition parse : M Hiscores unit :=
  self ← read;
  if negb (py.truthy (raw_json self)) then raise ValueError
  else
    skills_arg ← lift (py.get (raw_json self) "skills" (JArr []));
    _parse_skills skills_arg;;
    self ← read;
    acts ← lift (py.get (raw_json self) "activities" (JArr []));
    _parse_activities acts;;
    modify (set_parsed true).

(** Generic access helper.  The keyword [default] is [None] when the
    caller leaves it out. *)
Definition _get_bucket
    (bucket : gmap string dict) (key : string) (field : option string)
    (default : json) : result json :=
  let k := normalize_name key in
  match bucket !! k with
  | None => if negb (py.is_none default) then Ok default else Raise KeyError
  | Some entry =>
      match field with
      | None => Ok (JObj entry)
      | Some f => py.get (JObj entry) f default
      end
  end.

Definition skill (self : Hiscores) (key : string) (field : option string)
    (default : json) : result json :=
  _get_bucket (skills self) key field default.
Definition clue (self : Hiscores) (key : string) (field : option string)
    (default : json) : result json :=
  _get_bucket (clues self) key field default.
Definition pvp_activity (self : Hiscores) (key : string) (field : option string)
    (default : json) : result json :=
  _get_bucket (pvp self) key field default.
Definition activity (self : Hiscores) (key : string) (field : option string)
    (default : json) : result json :=
  _get_bucket (activities self) key field default.
Definition boss (self : Hiscores) (key : string) (field : option string)
    (default : json) : result json :=
  _get_bucket (bosses self) key field default.

(** The generators [skills_iter] and its four siblings:
    [for k in order: yield k, bucket[k]]. *)
Definition bucket_iter (order : list string) (bucket : gmap string dict)
  : result (list (string * dict)) :=
  map_result (fun k => match bucket !! k with
                       | Some e => Ok (k, e)
                       | None => Raise KeyError
                       end) order.

Definition skills_iter (self : Hiscores) := bucket_iter (skill_order self) (skills self).
Definition clues_iter (self : Hiscores) := bucket_iter (clue_order self) (clues self).
Definition pvp_iter (self : Hiscores) := bucket_iter (pvp_order self) (pvp self).
Definition activities_iter (self : Hiscores) :=
  bucket_iter (activity_order self) (activities self).
Definition bosses_iter (self : Hiscores) := bucket_iter (boss_order self) (bosses self).

(** Back-compat sugar. *)
Definition clue_score (self : Hiscores) (key : string) (default : json) :=
  clue self key (Some "score") default.
Definition pvp_score (self : Hiscores) (key : string) (default : json) :=
  pvp_activity self key (Some "score") default.
Definition activity_score (self : Hiscores) (key : string) (default : json) :=
  activity self key (Some "score") default.
Definition boss_score (self : Hiscores) (key : string) (default : json) :=
  boss self key (Some "score") default.

End hiscores.

(** ** hiscores_api.py *)

Module hiscores_api.

(** [HiscoresAPI(client).get(username, fetch=, parse=, **modes)]: the
    outcome and the [Hiscores] object as the call leaves it. *)
Definition get (net : network) (c : client.HiscoresClient) (username : string)
    (do_fetch do_parse : bool) (m : client.modes)
  : result unit * hiscores.Hiscores :=
  ((if do_fetch then hiscores.fetch net m else mret tt);;
   (if do_parse then hiscores.parse else mret tt))
    (hiscores.new username c).

(** The same call with the keywords as the caller gives them; they are
    looked at by [fetch] only. *)
Definition get_kw (net : network) (c : client.HiscoresClient) (username : string)
    (do_fetch do_parse : bool) (kwargs : dict)
  : result unit * hiscores.Hiscores :=
  ((if do_fetch then hiscores.fetch_kw net kwargs else mret tt);;
   (if do_parse then hiscores.parse else mret tt))
    (hiscores.new username c).

End hiscores_api.

(** ** items.py *)

Module items.

(** The optional package [rapidfuzz]: the scorers of its module [fuzz],
    by name, with [WRatio] among them, and [process.extract], which
    returns (choice, score, index) triples. *)
Record Rapidfuzz : Type := {
  fuzz : string -> option (string -> string -> Z);
  WRatio : string -> string -> Z;
  extract :
    string -> list string -> (string -> string -> Z) -> Z -> Z ->
    list (string * Z * nat);
}.

Record ItemsClient : Type := {
  base_url : string;
  timeout : Z;
  user_agent : string;
  _mapping_cache : json;
  _names_cache : option (list string);
  _latest_cache : json;
  aliases : gmap string string;
}.

(** [ItemsClient()] *)
Definition new : ItemsClient :=
  {| base_url := constants.DEFAULT_ITEMS_BASE_URL;
     timeout := constants.DEFAULT_TIMEOUT;
     user_agent := "osrs_info";
     _mapping_cache := JNull; _names_cache := None; _latest_cache := JNull;
     aliases := ∅ |}.

Definition set_mapping_cache (v : json) (self : ItemsClient) : ItemsClient :=
  let '(Build_ItemsClient b t u _ n l a) := self in Build_ItemsClient b t u v n l a.
Definition set_names_cache (v : option (list string)) (self : ItemsClient)
  : ItemsClient :=
  let '(Build_ItemsClient b t u m _ l a) := self in Build_ItemsClient b t u m v l a.
Definition set_latest_cache (v : json) (self : ItemsClient) : ItemsClient :=
  let '(Build_ItemsClient b t u m n _ a) := self in Build_ItemsClient b t u m n v a.

(** Internal GET helper: every exception of the [try] block becomes a
    [FetchError]. *)
Definition _get (net : network) (path : string) : M ItemsClient json :=
  self ← read;
  let url := base_url self +:+ path in
  match requests_get_json net
          {| req_url := url; req_params := [];
             req_headers := [("User-Agent", user_agent self)];
             req_timeout := timeout self |} with
  | Ok v => mret v
  | Raise _ => raise FetchError
  end.

(** [str(it.get("name", ""))] *)
Definition name_of (it : json) : result string :=
  n ← py.get it "name" (JStr ""); Ok (py.str n).

Definition mapping (net : network) (refresh : bool) : M ItemsClient (list json) :=
  self ← read;
  (if py.is_none (_mapping_cache self) || refresh then
     v ← _get net "/mapping";
     modify (set_mapping_cache v);;
     rows ← lift (py.iter v);
     names ← lift (map_result name_of rows);
     modify (set_names_cache (Some names))
   else mret tt);;
  self ← read;
  lift (py.iter (_mapping_cache self)).

Definition latest_index (net : network) (refresh : bool) : M ItemsClient dict :=
  self ← read;
  (if py.is_none (_latest_cache self) || refresh then
     data ← _get net "/latest";
     d ← lift (py.get data "data" (JObj []));
     modify (set_latest_cache (if py.truthy d then d else JObj []))
   else mret tt);;
  self ← read;
  lift (py.to_dict (_latest_cache self)).

Definition tradeable_mapping (net : network) (refresh : bool)
  : M ItemsClient (list json) :=
  its ← mapping net refresh;
  latest ← latest_index net refresh;
  let latest_ids : gset string := list_to_set (map fst latest) in
  lift (filter_result
          (fun it => i ← py.get it "id" JNull;
                     Ok (bool_decide (py.str i ∈ latest_ids)))
          its).

Definition _names_tradeable (net : network) (refresh : bool)
  : M ItemsClient (list string) :=
  its ← tradeable_mapping net refresh;
  lift (map_result name_of its).

Definition _apply_alias (self : ItemsClient) (query : string) : string :=
  let q := pystr.lower (pystr.strip query) in
  default query (aliases self !! q).

(** [lookup(item)], [item] an [int] or a [str]. *)
Definition lookup (net : network) (item : Z + string) : M ItemsClient json :=
  its ← tradeable_mapping net false;
  match item with
  | inl n =>
      let item_id_str := py.str (JNum n) in
      latest ← latest_index net false;
      if negb (py.dict_has latest item_id_str) then raise KeyError
      else
        hit ← lift (find_result
                      (fun it => i ← py.get it "id" JNull; Ok (py.eq_int i n))
                      its);
        match hit with
        | Some it => mret it
        | None => raise KeyError
        end
  | inr name =>
      self ← read;
      let query := pystr.lower (pystr.strip (_apply_alias self name)) in
      hit ← lift (find_result
                    (fun it => s ← name_of it;
                               Ok (String.eqb (pystr.lower s) query))
                    its);
      match hit with
      | Some it => mret it
      | None => raise KeyError
      end
  end.

(** [limit or d], for [limit] an [int] or [None] *)
Definition limit_or (limit : option Z) (d : Z) : Z :=
  match limit with
  | Some n => if py.truthy (JNum n) then n else d
  | None => d
  end.

Definition fuzzy_search (net : network) (rapidfuzz : option Rapidfuzz)
    (query : string) (limit score_cutoff : Z) (scorer : string)
  : M ItemsClient (list json) :=
  self ← read;
  let query := _apply_alias self query in
  match rapidfuzz with
  | None => raise ImportError
  | Some rf =>
      its ← tradeable_mapping net false;
      names ← lift (map_result name_of its);
      let scorer_fn := default (WRatio rf) (fuzz rf scorer) in
      let matches := extract rf query names scorer_fn limit score_cutoff in
      lift (map_result
              (fun m => match its !! (snd m) with
                        | Some it => Ok it
                        | None => Raise IndexError
                        end)
              matches)
  end.

Definition search (net : network) (rapidfuzz : option Rapidfuzz)
    (query : string) (limit : option Z) (fuzzy : bool) (score_cutoff : Z)
  : M ItemsClient (list json) :=
  self ← read;
  let query := _apply_alias self query in
  let q := pystr.lower (pystr.strip query) in
  its ← tradeable_mapping net false;
  hits ← lift (filter_result
                 (fun it => s ← name_of it; Ok (pystr.contains q (pystr.lower s)))
                 its);
  keys ← lift (map_result (fun it => s ← name_of it; Ok (pystr.lower s)) hits);
  let hits := map snd (py.sort_keyed (zip keys hits)) in
  if py.truthy (JArr hits) || negb fuzzy then
    mret (match limit with
          | Some n => if py.truthy (JNum n) then py.slice_to hits n else hits
          | None => hits
          end)
  else
    fuzzy_search net rapidfuzz query (limit_or limit 10) score_cutoff "WRatio".

(** [latest(item_id)] *)
Definition latest (net : network) (item_id : Z) : M ItemsClient json :=
  prices ← latest_index net false;
  let data := default JNull (py.dict_get prices (py.str (JNum item_id))) in
  if py.is_none data then raise KeyError else mret data.

(** [price(item_id)] *)
Definition price (net : network) (item_id : Z) : M ItemsClient json :=
  meta ← lookup net (inl item_id);
  p ← latest net item_id;
  mret (JObj [("meta", meta); ("price", p)]).

End items.

(** ** items.py on a store of objects

    The two fetch methods once more, with the identity of the objects
    they hand out.  Values that cannot be changed in place ([None],
    booleans, numbers, strings) are carried as they are; a list or a dict
    is an object at a location of the heap, and a reference to it can be
    held by several owners.  This is the model for what a caller can do
    to the internal caches through a returned collection. *)

Module store.

Definition loc : Type := nat.

Inductive ref : Type :=
| Atom (v : json)
| Ptr (l : loc).

Inductive obj : Type :=
| OList (items : list ref)
| ODict (entries : list (string * ref)).

Abbreviation heap := (gmap loc obj).

Record ItemsClient : Type := {
  base_url : string;
  timeout : Z;
  user_agent : string;
  _mapping_cache : ref;
  _names_cache : option (list string);
  _latest_cache : ref;
  aliases : gmap string string;
}.

Record state : Type := {
  objects : heap;
  self : ItemsClient;
}.

(** [ItemsClient()], and no object yet. *)
Definition new : state :=
  {| objects := ∅;
     self := {| base_url := constants.DEFAULT_ITEMS_BASE_URL;
                timeout := constants.DEFAULT_TIMEOUT;
                user_agent := "osrs_info";
                _mapping_cache := Atom JNull; _names_cache := None;
                _latest_cache := Atom JNull; aliases := ∅ |} |}.

Definition set_mapping_cache (v : ref) (st : state) : state :=
  let '(Build_ItemsClient b t u _ n l a) := self st in
  {| objects := objects st; self := Build_ItemsClient b t u v n l a |}.
Definition set_names_cache (v : option (list string)) (st : state) : state :=
  let '(Build_ItemsClient b t u m _ l a) := self st in
  {| objects := objects st; self := Build_ItemsClient b t u m v l a |}.
Definition set_latest_cache (v : ref) (st : state) : state :=
  let '(Build_ItemsClient b t u m n _ a) := self st in
  {| objects := objects st; self := Build_ItemsClient b t u m n v a |}.

(** A new object, at a location nothing refers to yet. *)
Definition alloc (o : obj) : M state ref := fun st =>
  let l := fresh (dom (objects st)) in
  (Ok (Ptr l), {| objects := <[l := o]> (objects st); self := self st |}).

(** [r.json()] builds the decoded body out of new objects, the items of
    a list and the values of a dict before the container itself. *)
Fixpoint decode (v : json) : M state ref :=
  match v with
  | JArr l =>
      rs ← (fix items (l : list json) : M state (list ref) :=
              match l with
              | [] => mret []
              | x :: l' => r ← decode x; rs ← items l'; mret (r :: rs)
              end) l;
      alloc (OList rs)
  | JObj d =>
      es ← (fix entries (d : dict) : M state (list (string * ref)) :=
              match d with
              | [] => mret []
              | kv :: d' =>
                  r ← decode (snd kv); es ← entries d'; mret ((fst kv, r) :: es)
              end) d;
      alloc (ODict es)
  | _ => mret (Atom v)
  end.

Definition is_none (r : ref) : bool :=
  match r with Atom JNull => true | _ => false end.

Definition truthy (h : heap) (r : ref) : bool :=
  match r with
  | Atom v => py.truthy v
  | Ptr l =>
      match h !! l with
      | Some (OList []) | Some (ODict []) => false
      | _ => true
      end
  end.

(** Internal GET helper: the decoded body, as a value and as the new
    object it is. *)
Definition _get (net : network) (path : string) : M state (json * ref) :=
  st ← read;
  let url := base_url (self st) +:+ path in
  match requests_get_json net
          {| req_url := url; req_params := [];
             req_headers := [("User-Agent", user_agent (self st))];
             req_timeout := timeout (self st) |} with
  | Ok v => r ← decode v; mret (v, r)
  | Raise _ => raise FetchError
  end.

(** The references [for x in r] runs over. *)
Definition iter (h : heap) (r : ref) : result (list ref) :=
  match r with
  | Atom (JStr s) =>
      Ok (map (fun c => Atom (JStr (String c EmptyString))) (list_ascii_of_string s))
  | Atom _ => Raise TypeError
  | Ptr l =>
      match h !! l with
      | Some (OList rs) => Ok rs
      | Some (ODict es) => Ok (map (fun e => Atom (JStr (fst e))) es)
      | None => Raise TypeError
      end
  end.

(** [list(r)]: a new list object with the same items. *)
Definition list_copy (r : ref) : M state ref :=
  st ← read;
  rs ← lift (iter (objects st) r);
  alloc (OList rs).

(** [dict(r)]: a new dict object with the same entries; as for
    [py.to_dict], what is not a dict raises [TypeError]. *)
Definition dict_copy (r : ref) : M state ref :=
  st ← read;
  match r with
  | Ptr l =>
      match objects st !! l with
      | Some (ODict es) => alloc (ODict es)
      | _ => raise TypeError
      end
  | Atom _ => raise TypeError
  end.

(** [r.get(k, default)] *)
Definition get (h : heap) (r : ref) (k : string) (default : ref) : result ref :=
  match r with
  | Ptr l =>
      match h !! l with
      | Some (ODict es) =>
          Ok (match find (fun e => String.eqb (fst e) k) es with
              | Some e => snd e
              | None => default
              end)
      | _ => Raise AttributeError
      end
  | Atom _ => Raise AttributeError
  end.

(** The names are strings: they are computed from the body that was
    just decoded. *)
Definition mapping (net : network) (refresh : bool) : M state ref :=
  st ← read;
  (if is_none (_mapping_cache (self st)) || refresh then
     vr ← _get net "/mapping";
     modify (set_mapping_cache (snd vr));;
     rows ← lift (py.iter (fst vr));
     names ← lift (map_result items.name_of rows);
     modify (set_names_cache (Some names))
   else mret tt);;
  st ← read;
  list_copy (_mapping_cache (self st)).

Definition latest_index (net : network) (refresh : bool) : M state ref :=
  st ← read;
  (if is_none (_latest_cache (self st)) || refresh then
     vr ← _get net "/latest";
     dflt ← alloc (ODict []);
     st ← read;
     d ← lift (get (objects st) (snd vr) "data" dflt);
     (if truthy (objects st) d then modify (set_latest_cache d)
      else e ← alloc (ODict []); modify (set_latest_cache e))
   else mret tt);;
  st ← read;
  dict_copy (_latest_cache (self st)).

(** What a caller can do to a list it holds ([append], [pop], [clear],
    [sort], item assignment and deletion, ...) and to a dict it holds:
    replace the contents of that one object. *)
Definition list_mutate (l : loc) (f : list ref -> list ref) (st : state) : state :=
  match objects st !! l with
  | Some (OList rs) =>
      {| objects := <[l := OList (f rs)]> (objects st); self := self st |}
  | _ => st
  end.

Definition dict_mutate (l : loc)
    (f : list (string * ref) -> list (string * ref)) (st : state) : state :=
  match objects st !! l with
  | Some (ODict es) =>
      {| objects := <[l := ODict (f es)]> (objects st); self := self st |}
  | _ => st
  end.

End store.

(** ** Predicates on strings used in the statements *)

(** Every character of [s] passes the test [p]. *)
Fixpoint all_chars (p : ascii -> bool) (s : string) : bool :=
  match s with
  | EmptyString => true
  | String c s' => p c && all_chars p s'
  end.

(** The characters [normalize_name] deletes or turns into a space. *)
Definition is_punct (c : ascii) : bool :=
  existsb (Ascii.eqb c)
          ["'"%char; "-"%char; ":"%char; "("%char; ")"%char; ","%char].

(** A character a normalized key can hold: no white space, its own
    lower case, none of the characters above. *)
Definition clean (c : ascii) : bool :=
  negb (pystr.is_space c) && Ascii.eqb (pystr.lower_char c) c
  && negb (is_punct c).

(** The state of the text while the punctuation in [seen] has been
    replaced: a space, or a lower-case character outside [seen]. *)
Definition spaced (seen : list ascii) (c : ascii) : bool :=
  Ascii.eqb c " "
  || Ascii.eqb (pystr.lower_char c) c && negb (existsb (Ascii.eqb c) seen).

(** ** The classification, in the words of the specification *)

(** The four buckets an activity row can land in. *)
Inductive bucket : Type := Clue | Pvp | Activity | Boss.

#[global] Instance bucket_eq_dec : EqDecision bucket.
Proof. solve_decision. Defined.

(** The priority of the specification on a normalized key: the clue
    prefix, then the PvP set, then the non-boss set or one of the two
    suffixes, then the bosses. *)
Definition bucket_of (key : string) : bucket :=
  if pystr.startswith key "clue_scrolls_" then Clue
  else if bool_decide (key ∈ constants.PVP_ACTIVITY_KEYS) then Pvp
  else if bool_decide (key ∈ constants.NON_BOSS_ACTIVITY_KEYS)
          || pystr.endswith key "_points" || pystr.endswith key "_rank"
       then Activity
  else Boss.

(** The order list and the dict of a bucket. *)
Definition order_of (b : bucket) (self : hiscores.Hiscores) : list string :=
  match b with
  | Clue => hiscores.clue_order self
  | Pvp => hiscores.pvp_order self
  | Activity => hiscores.activity_order self
  | Boss => hiscores.boss_order self
  end.

Definition map_of (b : bucket) (self : hiscores.Hiscores) : gmap string dict :=
  match b with
  | Clue => hiscores.clues self
  | Pvp => hiscores.pvp self
  | Activity => hiscores.activities self
  | Boss => hiscores.bosses self
  end.

(** A row the classifier can read: an object whose name is a string. *)
Definition row_ok (row : json) : Prop :=
  exists d s, row = JObj d /\ py.dict_get d "name" = Some (JStr s).

(** The key and the stored entry of an activity row. *)
Definition row_key (row : json) : string :=
  match hiscores.key_of row with Ok k => k | Raise _ => "" end.

Definition row_data (row : json) : dict :=
  match hiscores.entry_of row ["id"; "name"; "rank"; "score"] with
  | Ok e => e
  | Raise _ => []
  end.

(** The entry of the last row of [rows] whose key is [k]. *)
Definition last_data (rows : list json) (k : string) : option dict :=
  foldl (fun acc row => if decide (row_key row = k) then Some (row_data row) else acc)
        None rows.

(** One row filed: its key appended to the order list of bucket [b] and
    its entry stored under the key in the dict of [b]. *)
Definition file_row (b : bucket) (k : string) (e : dict)
    (self : hiscores.Hiscores) : hiscores.Hiscores :=
  match b with
  | Clue =>
      hiscores.set_clues (<[k := e]> (hiscores.clues self))
        (hiscores.set_clue_order (hiscores.clue_order self ++ [k]) self)
  | Pvp =>
      hiscores.set_pvp (<[k := e]> (hiscores.pvp self))
        (hiscores.set_pvp_order (hiscores.pvp_order self ++ [k]) self)
  | Activity =>
      hiscores.set_activities (<[k := e]> (hiscores.activities self))
        (hiscores.set_activity_order (hiscores.activity_order self ++ [k]) self)
  | Boss =>
      hiscores.set_bosses (<[k := e]> (hiscores.bosses self))
        (hiscores.set_boss_order (hiscores.boss_order self ++ [k]) self)
  end.

(** One turn of the loop of [_parse_activities] on a readable row. *)
Definition file_step (self : hiscores.Hiscores) (row : json) : hiscores.Hiscores :=
  file_row (bucket_of (row_key row)) (row_key row) (row_data row) self.

(** The stored entry of a skill row, and one turn of the loop of
    [_parse_skills] on a readable row. *)
Definition skill_data (row : json) : dict :=
  match hiscores.entry_of row ["id"; "name"; "rank"; "level"; "xp"] with
  | Ok e => e
  | Raise _ => []
  end.

Definition skill_step (self : hiscores.Hiscores) (row : json) : hiscores.Hiscores :=
  let self1 :=
    hiscores.set_skill_order (hiscores.skill_order self ++ [row_key row]) self in
  hiscores.set_skills (<[row_key row := skill_data row]> (hiscores.skills self1)) self1.

(** The state [_parse_skills] starts its loop from. *)
Definition cleared_skills (self : hiscores.Hiscores) : hiscores.Hiscores :=
  hiscores.set_skill_order [] (hiscores.set_skills ∅ self).

(** The state [_parse_activities] starts its loop from. *)
Definition cleared_activities (self : hiscores.Hiscores) : hiscores.Hiscores :=
  hiscores.set_boss_order []
    (hiscores.set_activity_order []
      (hiscores.set_pvp_order []
        (hiscores.set_clue_order []
          (hiscores.set_bosses ∅
            (hiscores.set_activities ∅
              (hiscores.set_pvp ∅ (hiscores.set_clues ∅ self))))))).

(** ** The accessors and the snapshot *)

(** The five bucket accessors of [Hiscores]. *)
Inductive accessor : Type := ASkill | AClue | APvp | AActivity | ABoss.

Definition call (a : accessor) :
  hiscores.Hiscores -> string -> option string -> json -> result json :=
  match a with
  | ASkill => hiscores.skill
  | AClue => hiscores.clue
  | APvp => hiscores.pvp_activity
  | AActivity => hiscores.activity
  | ABoss => hiscores.boss
  end.

Definition bucket_for (a : accessor) (self : hiscores.Hiscores)
  : gmap string dict :=
  match a with
  | ASkill => hiscores.skills self
  | AClue => hiscores.clues self
  | APvp => hiscores.pvp self
  | AActivity => hiscores.activities self
  | ABoss => hiscores.bosses self
  end.

(** The skills pair, and the four pairs [_parse_activities] builds. *)
Definition skills_part (self : hiscores.Hiscores) :=
  (hiscores.skill_order self, hiscores.skills self).

Definition activities_part (self : hiscores.Hiscores) :=
  (hiscores.clue_order self, hiscores.clues self,
   hiscores.pvp_order self, hiscores.pvp self,
   hiscores.activity_order self, hiscores.activities self,
   hiscores.boss_order self, hiscores.bosses self).

(** The five (order list, dict) pairs of a [Hiscores] object. *)
Definition snapshot (self : hiscores.Hiscores) :=
  (skills_part self, activities_part self).

(** ** The tradeable subset, in the words of the specification *)

Definition is_obj (v : json) : Prop := exists d, v = JObj d.

(** The id and the name of a mapping row, as the code reads them. *)
Definition item_id (it : json) : json :=
  match py.get it "id" JNull with Ok v => v | Raise _ => JNull end.

Definition item_name (it : json) : string :=
  match items.name_of it with Ok s => s | Raise _ => "" end.

(** A row is tradeable when its id, as a string, is a key of the price
    map. *)
Definition tradeable (prices : dict) (it : json) : bool :=
  py.dict_has prices (py.str (item_id it)).

Definition tradeable_subset (rows : list json) (prices : dict) : list json :=
  List.filter (tradeable prices) rows.

(** The query the names are matched against: the alias applied, then
    stripped and put in lower case. *)
Definition search_key (self : items.ItemsClient) (query : string) : string :=
  pystr.lower (pystr.strip (items._apply_alias self query)).

(** The substring hits of a query among the tradeable rows. *)
Definition matching (self : items.ItemsClient) (rows : list json)
    (prices : dict) (query : string) : list json :=
  List.filter
    (fun it => pystr.contains (search_key self query) (pystr.lower (item_name it)))
    (tradeable_subset rows prices).

(** Ascending by lower-case name. *)
Definition name_le (a b : json) : Prop :=
  String.leb (pystr.lower (item_name a)) (pystr.lower (item_name b)) = true.

(** The two caches hold a mapping list of objects and a price map. *)
Definition cached (self : items.ItemsClient) (rows : list json) (prices : dict)
  : Prop :=
  items._mapping_cache self = JArr rows
  /\ Forall is_obj rows
  /\ items._latest_cache self = JObj prices.

(** The hits of [search] before truncation: the substring hits, paired
    with their keys and sorted as [list.sort] does. *)
Definition sorted_hits (self : items.ItemsClient) (rows : list json)
    (prices : dict) (query : string) : list json :=
  let hits := matching self rows prices query in
  map snd (py.sort_keyed
             (zip (map (fun it => pystr.lower (item_name it)) hits) hits)).

(** The order [list.sort] leaves a keyed list in. *)
Definition keyed_le {A} (a b : string * A) : Prop :=
  String.leb (fst a) (fst b) = true.

(** The reading of the specification that takes the query in lower case
    only: the tradeable rows whose lower-case name contains the alias of
    the query in lower case. *)
Definition matching_unstripped (self : items.ItemsClient) (rows : list json)
    (prices : dict) (query : string) : list json :=
  List.filter
    (fun it => pystr.contains (pystr.lower (items._apply_alias self query))
                              (pystr.lower (item_name it)))
    (tradeable_subset rows prices).

(** ** decoder.py *)

Module decoder.

(** The entry point: the two clients; [hiscores] is the [HiscoresAPI]
    built on the first, [items] is the second. *)
Record Decoder : Type := {
  hiscores_client : client.HiscoresClient;
  items_client : items.ItemsClient;
}.

(** [Decoder()] *)
Definition new : Decoder :=
  {| hiscores_client := client.default; items_client := items.new |}.

(** [api.hiscores.get(username, fetch=, parse=, **modes)] *)
Definition hiscores_get (net : network) (self : Decoder) (username : string)
    (do_fetch do_parse : bool) (m : client.modes)
  : result unit * hiscores.Hiscores :=
  hiscores_api.get net (hiscores_client self) username do_fetch do_parse m.

(** The property [items]. *)
Definition items (self : Decoder) : items.ItemsClient := items_client self.

End decoder.

(** ** Further notions used in the statements *)

(** The mode flags with only the flag of highest precedence kept. *)
Definition highest_mode (m : client.modes) : client.modes :=
  if client.seasonal m then
    {| client.ironman := false; client.hardcore := false;
       client.ultimate := false; client.deadman := false;
       client.seasonal := true |}
  else if client.deadman m then
    {| client.ironman := false; client.hardcore := false;
       client.ultimate := false; client.deadman := true;
       client.seasonal := false |}
  else if client.ultimate m then
    {| client.ironman := false; client.hardcore := false;
       client.ultimate := true; client.deadman := false;
       client.seasonal := false |}
  else if client.hardcore m then
    {| client.ironman := false; client.hardcore := true;
       client.ultimate := false; client.deadman := false;
       client.seasonal := false |}
  else m.

(** Every keyword of a call is one of the five mode flags. *)
Definition known_keywords (kwargs : dict) : Prop :=
  Forall (fun kv => fst kv ∈ client.mode_names) kwargs.

(** The request [fetch_index_lite_json] sends. *)
Definition index_lite_request (c : client.HiscoresClient) (username : string)
    (m : client.modes) : request :=
  {| req_url := client.base_url c +:+ client._mode_suffix m +:+ "/index_lite.json";
     req_params := [("player", username)];
     req_headers := [];
     req_timeout := client.timeout c |}.

(** The request [ItemsClient._get] sends for a path. *)
Definition items_request (self : items.ItemsClient) (path : string) : request :=
  {| req_url := items.base_url self +:+ path; req_params := [];
     req_headers := [("User-Agent", items.user_agent self)];
     req_timeout := items.timeout self |}.

(** [items[idx]] for a match of [process.extract]. *)
Definition pick (its : list json) (m : string * Z * nat) : result json :=
  match its !! (snd m) with
  | Some it => Ok it
  | None => Raise IndexError
  end.

(** A response the [try] blocks accept: a status outside 400..599 and a
    body that is JSON. *)
Definition accepted (r : response) (v : json) : Prop :=
  exists status, r = Response status (Some v) /\ ~ (400 <= status < 600).

(** Every order list and its dict hold the same keys. *)
Definition consistent (self : hiscores.Hiscores) : Prop :=
  (forall k, k ∈ hiscores.skill_order self <-> is_Some (hiscores.skills self !! k))
  /\ (forall b k, k ∈ order_of b self <-> is_Some (map_of b self !! k)).

Definition skills_ok (self : hiscores.Hiscores) : Prop :=
  forall k, k ∈ hiscores.skill_order self <-> is_Some (hiscores.skills self !! k).

Definition activities_ok (self : hiscores.Hiscores) : Prop :=
  forall b k, k ∈ order_of b self <-> is_Some (map_of b self !! k).

(** The five generators, by pair: [None] is the skills. *)
Definition iter_of (b : option bucket) (self : hiscores.Hiscores)
  : result (list (string * dict)) :=
  match b with
  | None => hiscores.skills_iter self
  | Some Clue => hiscores.clues_iter self
  | Some Pvp => hiscores.pvp_iter self
  | Some Activity => hiscores.activities_iter self
  | Some Boss => hiscores.bosses_iter self
  end.

Definition order_of' (b : option bucket) (self : hiscores.Hiscores) : list string :=
  match b with
  | None => hiscores.skill_order self
  | Some b => order_of b self
  end.

Definition map_of' (b : option bucket) (self : hiscores.Hiscores)
  : gmap string dict :=
  match b with
  | None => hiscores.skills self
  | Some b => map_of b self
  end.

(** The entry of the last skill row of [rows] whose key is [k]. *)
Definition last_skill_data (rows : list json) (k : string) : option dict :=
  foldl (fun acc row => if decide (row_key row = k) then Some (skill_data row) else acc)
        None rows.

(** White space, or punctuation of [normalize_name] not yet in [seen]. *)
Definition blank_rest (seen : list ascii) (c : ascii) : bool :=
  pystr.is_space c || is_punct c && negb (existsb (Ascii.eqb c) seen).

(** What the two parsers leave alone besides the pairs. *)
Definition identity_part (self : hiscores.Hiscores) :=
  (hiscores.username self, hiscores.client self, hiscores.raw_json self,
   hiscores.fetched self, hiscores.parsed self).

(** The accessor of a bucket of activities. *)
Definition accessor_of (b : bucket) : accessor :=
  match b with
  | Clue => AClue
  | Pvp => APvp
  | Activity => AActivity
  | Boss => ABoss
  end.

(** * Proofs *)

Example normalize_bounty :
  hiscores.normalize_name "Bounty Hunter - Hunter" = "bounty_hunter_hunter".
Proof. reflexivity. Qed.

Example normalize_clue :
  hiscores.normalize_name "  Clue Scrolls (all) " = "clue_scrolls_all".
Proof. reflexivity. Qed.

(** ** Name normalization *)

Section normalize_facts.
Import pystr.

Lemma lower_char_idem c : lower_char (lower_char c) = lower_char c.
Proof. destruct c as [[] [] [] [] [] [] [] []]; reflexivity. Qed.

Lemma is_space_lower_char c : is_space (lower_char c) = is_space c.
Proof. destruct c as [[] [] [] [] [] [] [] []]; reflexivity. Qed.

Lemma lower_lower s : lower (lower s) = lower s.
Proof. induction s as [|c s IH]; simpl; [done|]. by rewrite lower_char_idem, IH. Qed.

Lemma lstrip_lower s : lstrip (lower s) = lower (lstrip s).
Proof.
  induction s as [|c s IH]; simpl; [done|].
  rewrite is_space_lower_char. by destruct (is_space c).
Qed.

Lemma rstrip_lower s : rstrip (lower s) = lower (rstrip s).
Proof.
  induction s as [|c s IH]; simpl; [done|].
  rewrite IH, is_space_lower_char.
  destruct (rstrip s); simpl; [|done]. by destruct (is_space c).
Qed.

Lemma all_chars_impl (p q : ascii -> bool) s :
  (forall c, p c = true -> q c = true) ->
  all_chars p s = true -> all_chars q s = true.
Proof.
  intros Hpq. induction s as [|c s IH]; simpl; [done|].
  rewrite !andb_true_iff. intros [Hc Hs]. auto.
Qed.

Lemma all_chars_app p s t :
  all_chars p (s +:+ t) = all_chars p s && all_chars p t.
Proof. induction s as [|c s IH]; simpl; [done|]. by rewrite IH, andb_assoc. Qed.

Lemma all_chars_lower s :
  all_chars (fun c => Ascii.eqb (lower_char c) c) (lower s) = true.
Proof.
  induction s as [|c s IH]; simpl; [done|].
  rewrite lower_char_idem, Ascii.eqb_refl. exact IH.
Qed.

Lemma all_chars_replace (p q : ascii -> bool) old new s :
  all_chars q new = true ->
  (forall c, p c = true -> Ascii.eqb c old = false -> q c = true) ->
  all_chars p s = true -> all_chars q (replace old new s) = true.
Proof.
  intros Hnew Hpq. induction s as [|c s IH]; simpl; [done|].
  rewrite andb_true_iff. intros [Hc Hs].
  destruct (Ascii.eqb c old) eqn:E.
  - rewrite all_chars_app, Hnew. simpl. auto.
  - simpl. rewrite (Hpq c Hc E). simpl. auto.
Qed.

(** The words of [split] are not empty and hold no white space. *)
Lemma split_words p s :
  all_chars p s = true ->
  Forall (fun w => w <> EmptyString /\
                   all_chars (fun c => p c && negb (is_space c)) w = true)
         (split s).
Proof.
  induction s as [|c s IH]; simpl; [constructor|].
  rewrite andb_true_iff. intros [Hc Hs]. specialize (IH Hs).
  destruct (is_space c) eqn:Ec; [exact IH|].
  destruct s as [|c' s'].
  - constructor; [|constructor]. split; [done|]. simpl. by rewrite Hc, Ec.
  - destruct (is_space c') eqn:Ec'.
    + constructor; [|exact IH]. split; [done|]. simpl. by rewrite Hc, Ec.
    + destruct (split (String c' s')) as [|w ws] eqn:Ew.
      * constructor; [|constructor]. split; [done|]. simpl. by rewrite Hc, Ec.
      * inversion IH as [|? ? [Hw1 Hw2] Hws]; subst.
        constructor; [|exact Hws]. split; [done|]. simpl. by rewrite Hc, Ec, Hw2.
Qed.

Lemma all_chars_join q sep ws :
  all_chars q sep = true -> Forall (fun w => all_chars q w = true) ws ->
  all_chars q (join sep ws) = true.
Proof.
  intros Hsep Hws. unfold join.
  induction Hws as [|w ws Hw Hws IH]; simpl; [done|].
  destruct ws as [|w' ws']; [exact Hw|].
  rewrite !all_chars_app, Hw, Hsep. simpl. exact IH.
Qed.

Lemma lstrip_clean s :
  all_chars (fun c => negb (is_space c)) s = true -> lstrip s = s.
Proof. destruct s as [|c s]; simpl; [done|]. by destruct (is_space c). Qed.

Lemma rstrip_clean s :
  all_chars (fun c => negb (is_space c)) s = true -> rstrip s = s.
Proof.
  induction s as [|c s IH]; simpl; [done|].
  rewrite andb_true_iff. intros [Hc Hs]. rewrite (IH Hs).
  destruct s; [|done]. by destruct (is_space c).
Qed.

Lemma lower_clean s :
  all_chars (fun c => Ascii.eqb (lower_char c) c) s = true -> lower s = s.
Proof.
  induction s as [|c s IH]; simpl; [done|].
  rewrite andb_true_iff. intros [Hc Hs]. apply Ascii.eqb_eq in Hc.
  by rewrite Hc, IH.
Qed.

Lemma replace_absent old new s :
  all_chars (fun c => negb (Ascii.eqb c old)) s = true -> replace old new s = s.
Proof.
  induction s as [|c s IH]; simpl; [done|].
  rewrite andb_true_iff. intros [Hc Hs].
  destruct (Ascii.eqb c old); [done|]. by rewrite IH.
Qed.

Lemma split_clean s :
  all_chars (fun c => negb (is_space c)) s = true ->
  split s = match s with EmptyString => [] | _ => [s] end.
Proof.
  induction s as [|c s IH]; simpl; [done|].
  rewrite andb_true_iff. intros [Hc Hs]. apply negb_true_iff in Hc. rewrite Hc.
  destruct s as [|c' s']; [done|].
  rewrite (IH Hs). simpl in Hs. apply andb_true_iff in Hs as [Hc' _].
  apply negb_true_iff in Hc'. by rewrite Hc'.
Qed.

Lemma replace_spaced old seen s :
  all_chars (spaced seen) s = true ->
  all_chars (spaced (old :: seen)) (replace old " " s) = true.
Proof.
  apply all_chars_replace; [reflexivity|].
  intros c Hc E. unfold spaced in *. cbn [existsb]. rewrite E. exact Hc.
Qed.

Lemma spaced_clean c :
  spaced [","%char; ")"%char; "("%char; ":"%char; "-"%char; "'"%char] c
  && negb (is_space c) = true -> clean c = true.
Proof.
  destruct c as [[] [] [] [] [] [] [] []]; intros H;
    try reflexivity; discriminate H.
Qed.

(** A key made by [normalize_name] holds clean characters only. *)
Lemma normalize_name_clean x :
  all_chars clean (hiscores.normalize_name x) = true.
Proof.
  unfold hiscores.normalize_name. simpl.
  apply all_chars_join; [reflexivity|].
  eapply Forall_impl.
  - apply split_words. do 5 apply replace_spaced.
    apply (all_chars_replace (fun c => Ascii.eqb (lower_char c) c)
                             (spaced ["'"%char]));
      [reflexivity| |apply all_chars_lower].
    intros c Hc E. unfold spaced, existsb. by rewrite Hc, E, orb_true_r.
  - intros w [_ Hw]. revert Hw. apply all_chars_impl, spaced_clean.
Qed.

(** A string of clean characters is its own key. *)
Lemma normalize_name_fixed s :
  all_chars clean s = true -> hiscores.normalize_name s = s.
Proof.
  intros Hs.
  assert (Hsp : all_chars (fun c => negb (is_space c)) s = true).
  { revert Hs. apply all_chars_impl. intros c. unfold clean.
    rewrite !andb_true_iff. tauto. }
  assert (Hlow : all_chars (fun c => Ascii.eqb (lower_char c) c) s = true).
  { revert Hs. apply all_chars_impl. intros c. unfold clean.
    rewrite !andb_true_iff. tauto. }
  assert (Hp : forall old, is_punct old = true ->
                 all_chars (fun c => negb (Ascii.eqb c old)) s = true).
  { intros old Hold. revert Hs. apply all_chars_impl. intros c. unfold clean.
    rewrite !andb_true_iff. intros [_ Hc]. apply negb_true_iff.
    destruct (Ascii.eqb c old) eqn:E; [|done].
    apply Ascii.eqb_eq in E. subst c. by rewrite Hold in Hc. }
  unfold hiscores.normalize_name, strip. simpl.
  rewrite (rstrip_clean _ Hsp), (lstrip_clean _ Hsp), (lower_clean _ Hlow).
  rewrite (replace_absent "'" "" s), (replace_absent "-" " " s),
    (replace_absent ":" " " s), (replace_absent "(" " " s),
    (replace_absent ")" " " s), (replace_absent "," " " s)
    by (apply Hp; reflexivity).
  rewrite (split_clean _ Hsp). by destruct s.
Qed.

Lemma normalize_name_idem x :
  hiscores.normalize_name (hiscores.normalize_name x) = hiscores.normalize_name x.
Proof. apply normalize_name_fixed, normalize_name_clean. Qed.


End normalize_facts.


(** ** Classification of the activities *)

Section classification.

Lemma row_ok_key row :
  row_ok row -> hiscores.key_of row = Ok (row_key row).
Proof.
  intros (d & n & -> & Hn). unfold row_key, hiscores.key_of. simpl.
  by rewrite Hn.
Qed.

Lemma row_ok_data row :
  row_ok row ->
  hiscores.entry_of row ["id"; "name"; "rank"; "score"] = Ok (row_data row).
Proof. intros (d & n & -> & Hn). reflexivity. Qed.

(** The body of the loop files the row in the bucket of its key. *)
Lemma activity_body row self :
  row_ok row ->
  hiscores.activities_row row self
  = (Ok tt, file_row (bucket_of (row_key row)) (row_key row) (row_data row) self).
Proof.
  intros Hrow. unfold hiscores.activities_row, mbind, M_bind, lift.
  rewrite (row_ok_key _ Hrow), (row_ok_data _ Hrow).
  unfold bucket_of.
  destruct (pystr.startswith (row_key row) "clue_scrolls_"); [by destruct self|].
  destruct (bool_decide (row_key row ∈ constants.PVP_ACTIVITY_KEYS)); [by destruct self|].
  destruct (bool_decide (row_key row ∈ constants.NON_BOSS_ACTIVITY_KEYS)
            || pystr.endswith (row_key row) "_points"
            || pystr.endswith (row_key row) "_rank"); by destruct self.
Qed.

Lemma parse_skills_unfold v s :
  hiscores._parse_skills v s
  = match py.iter v with
    | Ok rows => for_each rows hiscores.skills_row (cleared_skills s)
    | Raise e => (Raise e, cleared_skills s)
    end.
Proof.
  unfold hiscores._parse_skills, mbind, M_bind, modify, lift. simpl.
  by destruct (py.iter v).
Qed.

Lemma parse_activities_unfold v s :
  hiscores._parse_activities v s
  = match py.iter v with
    | Ok rows => for_each rows hiscores.activities_row (cleared_activities s)
    | Raise e => (Raise e, cleared_activities s)
    end.
Proof.
  unfold hiscores._parse_activities, mbind, M_bind, modify, lift. simpl.
  by destruct (py.iter v).
Qed.

Lemma for_each_fold {S A} (body : A -> M S unit) (step : S -> A -> S)
    (P : A -> Prop) :
  (forall x st, P x -> body x st = (Ok tt, step st x)) ->
  forall l st, Forall P l -> for_each l body st = (Ok tt, foldl step st l).
Proof.
  intros Hbody l. induction l as [|x l IH]; intros st Hl; [done|].
  inversion Hl as [|? ? Hx Hl']; subst.
  simpl. unfold mbind, M_bind. rewrite (Hbody x st Hx). by apply IH.
Qed.

Lemma parse_activities_run acts self :
  Forall row_ok acts ->
  hiscores._parse_activities (JArr acts) self
  = (Ok tt, foldl file_step (cleared_activities self) acts).
Proof.
  intros Hacts. rewrite parse_activities_unfold. simpl.
  apply (for_each_fold _ file_step row_ok); [|exact Hacts].
  intros row st Hrow. apply activity_body, Hrow.
Qed.

Lemma order_of_file_row b b' k e self :
  order_of b (file_row b' k e self)
  = if decide (b' = b) then (order_of b self ++ [k])%list else order_of b self.
Proof. by destruct self, b, b'. Qed.

Lemma map_of_file_row b b' k e self :
  map_of b (file_row b' k e self)
  = if decide (b' = b) then <[k := e]> (map_of b self) else map_of b self.
Proof. by destruct self, b, b'. Qed.

Lemma order_of_fold b acts self :
  order_of b (foldl file_step self acts)
  = (order_of b self ++ filter (fun k => bucket_of k = b) (map row_key acts))%list.
Proof.
  revert self. induction acts as [|row acts IH]; intros self; simpl.
  - by rewrite app_nil_r.
  - rewrite IH. unfold file_step. rewrite order_of_file_row.
    rewrite filter_cons. destruct (decide (bucket_of (row_key row) = b)); [|done].
    by rewrite <- app_assoc.
Qed.

Lemma last_data_snoc acts row k :
  last_data (acts ++ [row]) k
  = if decide (row_key row = k) then Some (row_data row) else last_data acts k.
Proof. unfold last_data. by rewrite foldl_app. Qed.

Lemma map_of_fold b acts self k :
  map_of b (foldl file_step self acts) !! k
  = match last_data acts k with
    | Some e => if decide (bucket_of k = b) then Some e else map_of b self !! k
    | None => map_of b self !! k
    end.
Proof.
  induction acts as [|row acts IH] using rev_ind; [done|].
  rewrite foldl_app, last_data_snoc. simpl. unfold file_step at 1.
  rewrite map_of_file_row.
  destruct (decide (row_key row = k)) as [->|Hne].
  - destruct (decide (bucket_of k = b)); [by rewrite lookup_insert_eq|].
    rewrite IH. by destruct (last_data acts k).
  - destruct (decide (bucket_of (row_key row) = b)); [|exact IH].
    by rewrite lookup_insert_ne.
Qed.

Lemma last_data_Some acts k :
  k ∈ map row_key acts -> is_Some (last_data acts k).
Proof.
  induction acts as [|row acts IH] using rev_ind.
  - intros H. by apply elem_of_nil in H.
  - rewrite map_app, last_data_snoc. simpl. intros H.
    destruct (decide (row_key row = k)); [by eexists|].
    apply IH. apply elem_of_app in H as [H|H]; [done|].
    apply list_elem_of_singleton in H. congruence.
Qed.

Lemma last_data_None acts k :
  k ∉ map row_key acts -> last_data acts k = None.
Proof.
  induction acts as [|row acts IH] using rev_ind; [done|].
  rewrite map_app, last_data_snoc. simpl. intros H.
  destruct (decide (row_key row = k)) as [<-|].
  - exfalso. apply H. apply elem_of_app. right. by apply list_elem_of_singleton.
  - apply IH. intros H'. apply H. apply elem_of_app. by left.
Qed.

Lemma cleared_order b self : order_of b (cleared_activities self) = [].
Proof. by destruct self, b. Qed.

Lemma cleared_map b self : map_of b (cleared_activities self) = ∅.
Proof. by destruct self, b. Qed.

End classification.

(** C1.  For every list of activity rows the classifier can read (each
    an object with a string name), [_parse_activities] returns, and it
    has put each row into exactly one bucket, the one the priority of the
    specification gives its normalized key: the order list of a bucket is
    the keys of that bucket in the order of the rows, the dict of a bucket
    holds under a key of that bucket the entry of the last row with the
    key and holds no key of another bucket, and the key of a row is in
    the order list and in the dict of its own bucket and of no other. *)
Theorem parse_activities_classifies
    (self : hiscores.Hiscores) (acts : list json) :
  Forall row_ok acts ->
  exists self',
    hiscores._parse_activities (JArr acts) self = (Ok tt, self')
    /\ (forall b,
          order_of b self'
          = filter (fun k => bucket_of k = b) (map row_key acts))
    /\ (forall b k,
          map_of b self' !! k
          = if decide (bucket_of k = b) then last_data acts k else None)
    /\ (forall row, row ∈ acts ->
        forall b,
          (row_key row ∈ order_of b self' <-> b = bucket_of (row_key row))
          /\ (is_Some (map_of b self' !! row_key row)
              <-> b = bucket_of (row_key row))).
Proof.
  intros Hacts. eexists. split; [by apply parse_activities_run|].
  assert (Hord : forall b,
    order_of b (foldl file_step (cleared_activities self) acts)
    = filter (fun k => bucket_of k = b) (map row_key acts)).
  { intros b. by rewrite order_of_fold, cleared_order. }
  assert (Hmap : forall b k,
    map_of b (foldl file_step (cleared_activities self) acts) !! k
    = if decide (bucket_of k = b) then last_data acts k else None).
  { intros b k. rewrite map_of_fold, cleared_map, lookup_empty.
    destruct (last_data acts k), (decide (bucket_of k = b)); done. }
  split; [exact Hord|]. split; [exact Hmap|].
  intros row Hrow b.
  assert (Hk : row_key row ∈ map row_key acts) by (by apply list_elem_of_fmap_2).
  split.
  - rewrite Hord, list_elem_of_filter. split; [by intros [<- _]|].
    intros ->. by split.
  - rewrite Hmap. destruct (decide (bucket_of (row_key row) = b)) as [<-|Hne].
    + split; [done|]. intros _. by apply last_data_Some.
    + split; [by intros [? ?]|]. intros Hb. by destruct Hne.
Qed.

(** The row named Zulrah with score 55 yields the boss entry keyed
    [zulrah] with score 55 and appears in no other bucket. *)
Lemma parse_activities_zulrah :
  let acts := [JObj [("name", JStr "Zulrah"); ("score", JNum 55)]] in
  let self' :=
    snd (hiscores._parse_activities (JArr acts)
           (hiscores.new "FixtureUser" client.default)) in
  Forall row_ok acts
  /\ hiscores.boss self' "Zulrah" (Some "score") JNull = Ok (JNum 55)
  /\ hiscores.bosses self' !! "zulrah"
     = Some [("id", JNull); ("name", JStr "Zulrah"); ("rank", JNull);
             ("score", JNum 55)]
  /\ hiscores.boss_order self' = ["zulrah"]
  /\ hiscores.clues self' !! "zulrah" = None
  /\ hiscores.pvp self' !! "zulrah" = None
  /\ hiscores.activities self' !! "zulrah" = None
  /\ hiscores.clue_order self' = []
  /\ hiscores.pvp_order self' = []
  /\ hiscores.activity_order self' = [].
Proof.
  intros acts self'.
  assert (Hok : Forall row_ok acts).
  { repeat constructor. eexists _, _. split; reflexivity. }
  split; [exact Hok|].
  destruct (parse_activities_classifies
              (hiscores.new "FixtureUser" client.default) acts Hok)
    as (st & Hrun & Hord & Hmap & _).
  subst self'. rewrite Hrun. simpl.
  assert (HB : hiscores.bosses st !! "zulrah"
               = Some [("id", JNull); ("name", JStr "Zulrah"); ("rank", JNull);
                       ("score", JNum 55)])
    by (rewrite (Hmap Boss); vm_compute; reflexivity).
  assert (HC : hiscores.clues st !! "zulrah" = None)
    by (rewrite (Hmap Clue); vm_compute; reflexivity).
  assert (HP : hiscores.pvp st !! "zulrah" = None)
    by (rewrite (Hmap Pvp); vm_compute; reflexivity).
  assert (HA : hiscores.activities st !! "zulrah" = None)
    by (rewrite (Hmap Activity); vm_compute; reflexivity).
  assert (OB : hiscores.boss_order st = ["zulrah"])
    by (etrans; [exact (Hord Boss)|vm_compute; reflexivity]).
  assert (OC : hiscores.clue_order st = [])
    by (etrans; [exact (Hord Clue)|vm_compute; reflexivity]).
  assert (OP : hiscores.pvp_order st = [])
    by (etrans; [exact (Hord Pvp)|vm_compute; reflexivity]).
  assert (OA : hiscores.activity_order st = [])
    by (etrans; [exact (Hord Activity)|vm_compute; reflexivity]).
  unfold hiscores.boss, hiscores._get_bucket.
  change (hiscores.normalize_name "Zulrah") with "zulrah".
  rewrite HB. repeat split; assumption || reflexivity.
Defined.

(** ** The bucket accessors *)

Lemma get_bucket_normalized bucket key field default :
  hiscores._get_bucket bucket (hiscores.normalize_name key) field default
  = hiscores._get_bucket bucket key field default.
Proof. unfold hiscores._get_bucket. by rewrite normalize_name_idem. Qed.

Lemma call_get_bucket a self key field default :
  call a self key field default
  = hiscores._get_bucket (bucket_for a self) key field default.
Proof. by destruct a. Qed.

(** C8.  For each of the five accessors, every key, field and default:
    the accessor gives the same answer for a key and for its normalized
    form, whether the key is in the bucket or not.  When the normalized
    key is not in the bucket, the accessor raises [KeyError] if no
    default was given (the keyword is then [None]) and returns the
    default if one was given.  When it is in the bucket the accessor
    reads it: it returns the entry, for the key and for its normalized
    form, and the value of a field the entry has, not the default. *)
Theorem accessor_default
    (a : accessor) (self : hiscores.Hiscores) (key : string)
    (field : option string) (default : json) :
  call a self (hiscores.normalize_name key) field default
  = call a self key field default
  /\ (bucket_for a self !! hiscores.normalize_name key = None ->
      (default = JNull -> call a self key field default = Raise KeyError)
      /\ (default <> JNull -> call a self key field default = Ok default))
  /\ (forall e,
        bucket_for a self !! hiscores.normalize_name key = Some e ->
        call a self key None default = Ok (JObj e)
        /\ call a self (hiscores.normalize_name key) None default
           = Ok (JObj e)
        /\ forall f v,
             py.dict_get e f = Some v ->
             call a self key (Some f) default = Ok v
             /\ call a self (hiscores.normalize_name key) (Some f) default
                = Ok v).
Proof.
  split; [by rewrite !call_get_bucket, get_bucket_normalized|]. split.
  - intros Habsent. rewrite !call_get_bucket.
    unfold hiscores._get_bucket. rewrite Habsent.
    split; [by intros ->|]. intros Hd. by destruct default.
  - intros e He. rewrite !call_get_bucket, get_bucket_normalized.
    unfold hiscores._get_bucket. rewrite He.
    split; [done|]. split; [done|]. intros f v Hf.
    rewrite !call_get_bucket, get_bucket_normalized.
    unfold hiscores._get_bucket. rewrite He. simpl. by rewrite Hf.
Qed.

(** After the parse of a body with the Zulrah row, the boss is found
    under its display name and under its key, with or without a
    default; Vorkath is not there: without a default the lookup raises,
    with the default 0 it returns 0. *)
Lemma accessor_default_zulrah :
  let body :=
    JObj [("skills", JArr []);
          ("activities",
           JArr [JObj [("name", JStr "Zulrah"); ("score", JNum 55)]])] in
  let self :=
    snd (hiscores_api.get (fun _ => Response 200 (Some body)) client.default
           "FixtureUser" true true client.normal) in
  hiscores.boss self "Zulrah" (Some "score") JNull = Ok (JNum 55)
  /\ hiscores.boss self "zulrah" (Some "score") (JNum 0) = Ok (JNum 55)
  /\ hiscores.boss self "zulrah" (Some "score") JNull
     = hiscores.boss self "Zulrah" (Some "score") JNull
  /\ hiscores.boss self "Vorkath" (Some "score") JNull = Raise KeyError
  /\ hiscores.boss self "Vorkath" (Some "score") (JNum 0) = Ok (JNum 0).
Proof.
  intros body self.
  set (e := [("id", JNull); ("name", JStr "Zulrah"); ("rank", JNull);
             ("score", JNum 55)]).
  assert (Hthere : bucket_for ABoss self !! hiscores.normalize_name "Zulrah"
                   = Some e) by (vm_compute; reflexivity).
  assert (Hnot : bucket_for ABoss self !! hiscores.normalize_name "Vorkath"
                 = None) by (vm_compute; reflexivity).
  assert (Hzero : JNum 0 <> JNull) by discriminate.
  split; [|split; [|split; [|split]]].
  - exact (proj1 (proj2 (proj2 (proj2 (proj2
             (accessor_default ABoss self "Zulrah" None JNull)) e Hthere))
             "score" (JNum 55) eq_refl)).
  - exact (proj2 (proj2 (proj2 (proj2 (proj2
             (accessor_default ABoss self "Zulrah" None (JNum 0))) e Hthere))
             "score" (JNum 55) eq_refl)).
  - exact (proj1 (accessor_default ABoss self "Zulrah" (Some "score") JNull)).
  - exact (proj1 (proj1 (proj2
             (accessor_default ABoss self "Vorkath" (Some "score") JNull))
             Hnot) eq_refl).
  - exact (proj2 (proj1 (proj2
             (accessor_default ABoss self "Vorkath" (Some "score") (JNum 0)))
             Hnot) Hzero).
Defined.

(** ** Parsing: what depends on what *)

Section parse_facts.


(** A loop whose body leaves a part of the state alone leaves it alone. *)
Lemma for_each_frame {S A B} (f : S -> B) (body : A -> M S unit) :
  (forall x s, f (snd (body x s)) = f s) ->
  forall l s, f (snd (for_each l body s)) = f s.
Proof.
  intros Hbody l. induction l as [|x l IH]; intros s; [done|].
  simpl. unfold mbind, M_bind. specialize (Hbody x s).
  destruct (body x s) as [[[]|e] t]; simpl in *; [|done].
  by rewrite IH.
Qed.

(** A loop raises only what its body raises. *)
Lemma for_each_raises {S A} (P : exn -> Prop) (body : A -> M S unit) :
  (forall x s e, fst (body x s) = Raise e -> P e) ->
  forall l s e, fst (for_each l body s) = Raise e -> P e.
Proof.
  intros Hbody l. induction l as [|x l IH]; intros s e; [done|].
  simpl. unfold mbind, M_bind. specialize (Hbody x s).
  destruct (body x s) as [[[]|e'] t]; simpl in *; [apply IH|].
  intros [= <-]. by apply Hbody.
Qed.

Lemma key_of_raises row e :
  hiscores.key_of row = Raise e -> e <> ValueError.
Proof.
  unfold hiscores.key_of, py.getitem, py.as_str.
  destruct row as [| | | | |d]; simpl; try (intros [= <-]; discriminate).
  destruct (py.dict_get d "name") as [[]|]; simpl;
    intros [= <-]; discriminate.
Qed.

Lemma entry_of_raises row fields e :
  hiscores.entry_of row fields = Raise e -> e <> ValueError.
Proof.
  unfold hiscores.entry_of. induction fields as [|f fields IH]; [done|].
  simpl. destruct row; simpl; try (intros [= <-]; discriminate).
  unfold mbind, result_bind in *. simpl in *.
  destruct (map_result _ fields); [done|]. intros [= <-]. by apply IH.
Qed.

Ltac run_body :=
  intros; unfold hiscores.skills_row, hiscores.activities_row,
            mbind, M_bind, lift, modify;
  repeat match goal with
         | |- context [hiscores.key_of ?r] => destruct (hiscores.key_of r) eqn:?
         | |- context [hiscores.entry_of ?r ?f] =>
             destruct (hiscores.entry_of r f) eqn:?
         | |- context [if ?b then _ else _] => destruct b
         end;
  simpl.


(** [_parse_skills] leaves the raw data and the other four pairs alone. *)
Lemma parse_skills_frame v s :
  hiscores.raw_json (snd (hiscores._parse_skills v s)) = hiscores.raw_json s
  /\ activities_part (snd (hiscores._parse_skills v s)) = activities_part s.
Proof.
  rewrite parse_skills_unfold.
  destruct (py.iter v) as [rows|e]; [|by destruct s].
  split.
  - etrans; [apply (for_each_frame hiscores.raw_json)|by destruct s].
    clear. intros row s. run_body; by destruct s.
  - etrans; [apply (for_each_frame activities_part)|by destruct s].
    clear. intros row s. run_body; by destruct s.
Qed.

Lemma parse_skills_raises v s e :
  fst (hiscores._parse_skills v s) = Raise e -> e <> ValueError.
Proof.
  rewrite parse_skills_unfold.
  destruct (py.iter v) as [rows|e'] eqn:Ev.
  - apply (for_each_raises (fun e => e <> ValueError)). clear. intros row s e.
    unfold hiscores.skills_row, mbind, M_bind, lift, modify.
    destruct (hiscores.key_of row) eqn:Ek; simpl.
    + destruct (hiscores.entry_of row _) eqn:Ee; simpl; [done|].
      intros [= <-]. by eapply entry_of_raises.
    + intros [= <-]. by eapply key_of_raises.
  - simpl. intros [= <-]. destruct v; simpl in Ev; by simplify_eq.
Qed.


(** [_parse_activities] leaves the skills pair alone. *)
Lemma parse_activities_frame v s :
  skills_part (snd (hiscores._parse_activities v s)) = skills_part s.
Proof.
  rewrite parse_activities_unfold.
  destruct (py.iter v) as [rows|e]; [|by destruct s].
  etrans; [apply (for_each_frame skills_part)|by destruct s].
  clear. intros row s. run_body; by destruct s.
Qed.

Lemma parse_activities_raises v s e :
  fst (hiscores._parse_activities v s) = Raise e -> e <> ValueError.
Proof.
  rewrite parse_activities_unfold.
  destruct (py.iter v) as [rows|e'] eqn:Ev.
  - apply (for_each_raises (fun e => e <> ValueError)). clear. intros row s e.
    unfold hiscores.activities_row, mbind, M_bind, lift, modify.
    destruct (hiscores.key_of row) eqn:Ek; simpl.
    + destruct (hiscores.entry_of row _) eqn:Ee; simpl.
      * repeat match goal with
               | |- context [if ?b then _ else _] => destruct b
               end; done.
      * intros [= <-]. by eapply entry_of_raises.
    + intros [= <-]. by eapply key_of_raises.
  - simpl. intros [= <-]. destruct v; simpl in Ev; by simplify_eq.
Qed.

Lemma parse_skills_run rows self :
  Forall row_ok rows ->
  hiscores._parse_skills (JArr rows) self
  = (Ok tt, foldl skill_step (cleared_skills self) rows).
Proof.
  intros Hrows. rewrite parse_skills_unfold. simpl.
  apply (for_each_fold _ skill_step row_ok); [|exact Hrows].
  intros row st Hrow.
  unfold hiscores.skills_row, mbind, M_bind, lift, modify.
  rewrite (row_ok_key _ Hrow). simpl.
  destruct Hrow as (d & n & -> & Hn). reflexivity.
Qed.

(** [parse], step by step. *)
Lemma parse_unfold s :
  hiscores.parse s
  = if negb (py.truthy (hiscores.raw_json s)) then (Raise ValueError, s)
    else
      match py.get (hiscores.raw_json s) "skills" (JArr []) with
      | Raise e => (Raise e, s)
      | Ok sk =>
          match hiscores._parse_skills sk s with
          | (Raise e, s1) => (Raise e, s1)
          | (Ok _, s1) =>
              match py.get (hiscores.raw_json s1) "activities" (JArr []) with
              | Raise e => (Raise e, s1)
              | Ok acts =>
                  match hiscores._parse_activities acts s1 with
                  | (Raise e, s2) => (Raise e, s2)
                  | (Ok _, s2) => (Ok tt, hiscores.set_parsed true s2)
                  end
              end
          end
      end.
Proof.
  unfold hiscores.parse, mbind, M_bind, read, raise, lift, modify.
  destruct (negb (py.truthy (hiscores.raw_json s))); [done|].
  destruct (py.get (hiscores.raw_json s) "skills" (JArr [])); [|done].
  destruct (hiscores._parse_skills a s) as [[[]|e] s1]; [|done].
  destruct (py.get (hiscores.raw_json s1) "activities" (JArr [])); [|done].
  by destruct (hiscores._parse_activities a0 s1) as [[[]|e] s2].
Qed.

Lemma py_get_raises v k d e : py.get v k d = Raise e -> e <> ValueError.
Proof. destruct v; simpl; intros [= <-]; discriminate. Qed.


Lemma parse_value_error s :
  fst (hiscores.parse s) = Raise ValueError <->
  py.truthy (hiscores.raw_json s) = false.
Proof.
  rewrite parse_unfold.
  destruct (py.truthy (hiscores.raw_json s)); simpl; [|done].
  split; [|done]. intros H. exfalso.
  destruct (py.get (hiscores.raw_json s) "skills" (JArr [])) as [sk|e] eqn:E1.
  2:{ simpl in H. injection H as ->. by eapply py_get_raises. }
  pose proof (parse_skills_raises sk s) as Hsk.
  destruct (hiscores._parse_skills sk s) as [[[]|e] s1]; simpl in *.
  2:{ injection H as ->. by eapply Hsk. }
  destruct (py.get (hiscores.raw_json s1) "activities" (JArr [])) as [ac|e] eqn:E2.
  2:{ simpl in H. injection H as ->. by eapply py_get_raises. }
  pose proof (parse_activities_raises ac s1) as Hac.
  destruct (hiscores._parse_activities ac s1) as [[[]|e] s2]; simpl in *; [done|].
  injection H as ->. by eapply Hac.
Qed.



End parse_facts.

(** C9, as amended.  [parse] raises the invalid-state error exactly when
    the raw data is [None] or empty; so it does on a new object, before
    any fetch.  When the raw data is an object that is not empty and its
    two lists hold rows the classifier can read (objects with a string
    name), [parse] returns; and when the two lists are empty all five
    pairs are empty. *)
Theorem parse_invalid_state (self : hiscores.Hiscores) :
  (fst (hiscores.parse self) = Raise ValueError
   <-> py.truthy (hiscores.raw_json self) = false)
  /\ (forall u c, fst (hiscores.parse (hiscores.new u c)) = Raise ValueError)
  /\ (forall d srows arows,
        hiscores.raw_json self = JObj d -> d <> [] ->
        py.get (JObj d) "skills" (JArr []) = Ok (JArr srows) ->
        py.get (JObj d) "activities" (JArr []) = Ok (JArr arows) ->
        Forall row_ok srows -> Forall row_ok arows ->
        fst (hiscores.parse self) = Ok tt
        /\ (srows = [] -> arows = [] ->
            snapshot (snd (hiscores.parse self))
            = (([], ∅), ([], ∅, [], ∅, [], ∅, [], ∅)))).
Proof.
  split; [apply parse_value_error|]. split; [done|].
  intros d srows arows Hraw Hd Hs Ha Hsr Har.
  rewrite parse_unfold, Hraw.
  assert (Ht : py.truthy (JObj d) = true) by (by destruct d).
  rewrite Ht, Hs. simpl negb. cbv iota.
  pose proof (parse_skills_frame (JArr srows) self) as [Hf _].
  rewrite (parse_skills_run _ _ Hsr) in *. simpl in Hf.
  rewrite Hf, Hraw, Ha, (parse_activities_run _ _ Har).
  split; [done|]. intros -> ->. simpl. by destruct self.
Qed.

(** The fixture of the tests parses. *)
Lemma parse_invalid_state_fixture :
  let d :=
    [("name", JStr "FixtureUser");
     ("skills", JArr [JObj [("id", JNum 0); ("name", JStr "Overall")]]);
     ("activities", JArr [JObj [("id", JNum 87); ("name", JStr "Zulrah");
                                ("rank", JNum 100); ("score", JNum 55)]])] in
  let self :=
    hiscores.set_raw_json (JObj d) (hiscores.new "FixtureUser" client.default) in
  fst (hiscores.parse self) = Ok tt.
Proof.
  intros d self.
  refine (proj1 (proj2 (proj2 (parse_invalid_state self)) d _ _
                   eq_refl _ eq_refl eq_refl _ _)).
  - discriminate.
  - repeat constructor. eexists _, _. split; reflexivity.
  - repeat constructor. eexists _, _. split; reflexivity.
Defined.

(** C9, as stated, fails: a fetch that succeeds with the empty object as
    its body is followed by a [parse] that raises the invalid-state
    error. *)
Lemma parse_after_empty_fetch :
  let net : network := fun _ => Response 200 (Some (JObj [])) in
  let fetched :=
    hiscores.fetch net client.normal (hiscores.new "FixtureUser" client.default) in
  fst fetched = Ok tt
  /\ hiscores.fetched (snd fetched) = true
  /\ hiscores.raw_json (snd fetched) = JObj []
  /\ fst (hiscores.parse (snd fetched)) = Raise ValueError.
Proof. repeat split; reflexivity. Qed.

(** ** The item caches *)

Section items_facts.

Lemma map_result_ok {A B} (f : A -> result B) (g : A -> B) (l : list A) :
  Forall (fun x => f x = Ok (g x)) l -> map_result f l = Ok (map g l).
Proof.
  induction 1 as [|x l Hx Hl IH]; [done|].
  simpl. by rewrite Hx, IH.
Qed.

Lemma filter_result_ok {A} (f : A -> result bool) (g : A -> bool) (l : list A) :
  Forall (fun x => f x = Ok (g x)) l ->
  filter_result f l = Ok (List.filter g l).
Proof.
  induction 1 as [|x l Hx Hl IH]; [done|].
  simpl. rewrite Hx, IH. simpl. by destruct (g x).
Qed.

Lemma map_result_raises {A B} (f : A -> result B) (P : exn -> Prop) l e :
  (forall x e, f x = Raise e -> P e) -> map_result f l = Raise e -> P e.
Proof.
  intros Hf. induction l as [|x l IH]; [done|]. simpl.
  destruct (f x) eqn:Ex; simpl; [|intros [= <-]; by eapply Hf].
  destruct (map_result f l); simpl; [done|]. intros [= <-]. by apply IH.
Qed.

Lemma dict_has_keys (d : dict) (k : string) :
  bool_decide (k ∈ (list_to_set (map fst d) : gset string)) = py.dict_has d k.
Proof.
  unfold py.dict_has. induction d as [|[k' v] d IH]; simpl.
  - apply bool_decide_eq_false. apply not_elem_of_empty.
  - destruct (String.eqb k' k) eqn:E.
    + apply String.eqb_eq in E. subst. apply bool_decide_eq_true.
      apply elem_of_union_l. by apply elem_of_singleton.
    + apply String.eqb_neq in E. rewrite <- IH.
      apply bool_decide_ext. rewrite elem_of_union, elem_of_singleton.
      split; [intros [Hk|Hk]; [congruence|done]|by right].
Qed.

Lemma mapping_cached net self rows :
  items._mapping_cache self = JArr rows ->
  items.mapping net false self = (Ok rows, self).
Proof.
  intros H. unfold items.mapping, mbind, M_bind, read, lift. cbn beta iota.
  rewrite H. cbn. by rewrite H.
Qed.

Lemma latest_index_cached net self d :
  items._latest_cache self = JObj d ->
  items.latest_index net false self = (Ok d, self).
Proof.
  intros H. unfold items.latest_index, mbind, M_bind, read, lift. cbn beta iota.
  rewrite H. cbn. by rewrite H.
Qed.

Lemma tradeable_mapping_cached net self rows prices :
  cached self rows prices ->
  items.tradeable_mapping net false self
  = (Ok (tradeable_subset rows prices), self).
Proof.
  intros (Hm & Hobj & Hl). unfold items.tradeable_mapping, mbind, M_bind.
  rewrite (mapping_cached _ _ _ Hm), (latest_index_cached _ _ _ Hl).
  unfold lift. f_equal. apply filter_result_ok.
  eapply Forall_impl; [exact Hobj|]. intros it [d ->]. simpl.
  unfold tradeable, item_id. simpl. by rewrite dict_has_keys.
Qed.

Lemma tradeable_subset_obj rows prices :
  Forall is_obj rows -> Forall is_obj (tradeable_subset rows prices).
Proof.
  intros H. apply List.Forall_forall. intros x Hx.
  apply List.filter_In in Hx as [Hx _].
  by apply (proj1 (List.Forall_forall _ _) H).
Qed.

End items_facts.

(** C2.  For every cached mapping list (of objects) and price map, the
    tradeable subset [tradeable_mapping] returns is the mapping rows, in
    order, whose id converted to a string is a key of the price map; the
    call computes it from the two caches and stores nothing: the client
    is as before. *)
Theorem tradeable_mapping_spec
    (net : network) (self : items.ItemsClient) (rows : list json)
    (prices : dict) :
  cached self rows prices ->
  items.tradeable_mapping net false self
  = (Ok (List.filter (fun it => py.dict_has prices (py.str (item_id it))) rows),
     self).
Proof. apply tradeable_mapping_cached. Qed.

(** With the rows 1 "A" and 2 "B" and a price for 1 only: the tradeable
    subset is row 1, [lookup(2)] raises the not-found error and
    [search("")] returns row 1 only. *)
Lemma tradeable_mapping_two_rows :
  let row1 := JObj [("id", JNum 1); ("name", JStr "A")] in
  let row2 := JObj [("id", JNum 2); ("name", JStr "B")] in
  let prices := [("1", JObj [("high", JNum 1); ("low", JNum 1)])] in
  let self :=
    items.set_latest_cache (JObj prices)
      (items.set_mapping_cache (JArr [row1; row2]) items.new) in
  let net : network := fun _ => NoResponse in
  cached self [row1; row2] prices
  /\ items.tradeable_mapping net false self = (Ok [row1], self)
  /\ items.lookup net (inl 2) self = (Raise KeyError, self)
  /\ items.search net None "" None false 60 self = (Ok [row1], self).
Proof.
  intros row1 row2 prices self net.
  assert (Hc : cached self [row1; row2] prices).
  { split; [reflexivity|]. split; [|reflexivity].
    repeat constructor; eexists; reflexivity. }
  split; [exact Hc|]. split; [|split; reflexivity].
  rewrite (tradeable_mapping_spec net self [row1; row2] prices Hc).
  reflexivity.
Defined.

(** ** Fetch errors and the caches *)

Section fetch_facts.

Lemma get_unfold net path self :
  items._get net path self
  = match requests_get_json net
            {| req_url := items.base_url self +:+ path; req_params := [];
               req_headers := [("User-Agent", items.user_agent self)];
               req_timeout := items.timeout self |} with
    | Ok v => (Ok v, self)
    | Raise _ => (Raise FetchError, self)
    end.
Proof.
  unfold items._get, mbind, M_bind, read. cbn beta iota.
  by destruct (requests_get_json _ _).
Qed.

Lemma py_iter_raises v e : py.iter v = Raise e -> e = TypeError.
Proof. destruct v; simpl; by intros [= <-]. Qed.

Lemma name_of_raises it e : items.name_of it = Raise e -> e = AttributeError.
Proof. destruct it; simpl; by intros [= <-]. Qed.

Lemma mapping_fetch_error net refresh self :
  fst (items.mapping net refresh self) = Raise FetchError ->
  snd (items.mapping net refresh self) = self.
Proof.
  unfold items.mapping, mbind, M_bind, read, lift, modify. cbn beta iota.
  destruct (py.is_none (items._mapping_cache self) || refresh).
  - rewrite get_unfold.
    destruct (requests_get_json _ _) as [v|e]; [|done].
    destruct (py.iter v) as [rows|e] eqn:Ei.
    + destruct (map_result items.name_of rows) as [names|e] eqn:En.
      * cbn. destruct self; cbn. by rewrite Ei.
      * cbn. intros [= ->].
        by apply (map_result_raises _ (fun e => e = AttributeError)) in En;
          [|apply name_of_raises].
    + cbn. intros [= ->]. by apply py_iter_raises in Ei.
  - cbn. by destruct (py.iter _).
Qed.

Lemma latest_index_fetch_error net refresh self :
  fst (items.latest_index net refresh self) = Raise FetchError ->
  snd (items.latest_index net refresh self) = self.
Proof.
  unfold items.latest_index, mbind, M_bind, read, lift, modify. cbn beta iota.
  destruct (py.is_none (items._latest_cache self) || refresh).
  - rewrite get_unfold.
    destruct (requests_get_json _ _) as [v|e]; [|done].
    destruct (py.get v "data" (JObj [])) as [d|e] eqn:Ed.
    + cbn. destruct self; cbn.
      destruct (py.to_dict _) eqn:Et; cbn; [done|].
      intros [= ->]. by destruct (if py.truthy d then d else JObj []).
    + cbn. intros [= ->]. by destruct v.
  - cbn. by destruct (py.to_dict _).
Qed.

Lemma mapping_raises_fetch_error net refresh self e :
  py.is_none (items._mapping_cache self) || refresh = true ->
  requests_get_json net
    {| req_url := items.base_url self +:+ "/mapping"; req_params := [];
       req_headers := [("User-Agent", items.user_agent self)];
       req_timeout := items.timeout self |} = Raise e ->
  items.mapping net refresh self = (Raise FetchError, self).
Proof.
  intros Hdue Hreq.
  unfold items.mapping, mbind, M_bind, read, lift, modify. cbn beta iota.
  by rewrite Hdue, get_unfold, Hreq.
Qed.

Lemma latest_index_raises_fetch_error net refresh self e :
  py.is_none (items._latest_cache self) || refresh = true ->
  requests_get_json net
    {| req_url := items.base_url self +:+ "/latest"; req_params := [];
       req_headers := [("User-Agent", items.user_agent self)];
       req_timeout := items.timeout self |} = Raise e ->
  items.latest_index net refresh self = (Raise FetchError, self).
Proof.
  intros Hdue Hreq.
  unfold items.latest_index, mbind, M_bind, read, lift, modify. cbn beta iota.
  by rewrite Hdue, get_unfold, Hreq.
Qed.

(** The three ways a request fails. *)
Lemma requests_get_json_fails net req :
  net req = NoResponse
  \/ (exists status body, net req = Response status body
                          /\ 400 <= status < 600)
  \/ (exists status, net req = Response status None) ->
  exists e, requests_get_json net req = Raise e.
Proof.
  unfold requests_get_json.
  intros [->|[(st & b & -> & Hst)|(st & ->)]]; [by eexists| |].
  - assert ((400 <=? st) && (st <? 600) = true) as -> by lia. by eexists.
  - destruct ((400 <=? st) && (st <? 600)); by eexists.
Qed.

End fetch_facts.

(** C7.  For every state of the client: when [mapping] or
    [latest_index] raises [FetchError], the client is left as it was, so
    its caches are unchanged; a fetch that is due (the cache is empty or
    a refresh is asked) and whose request fails, by a transport failure,
    an error status or a body that is not JSON, does raise [FetchError];
    and a call without refresh on a cached mapping list or price map
    returns what is cached, whatever the network would answer. *)
Theorem fetch_error_keeps_cache
    (net : network) (refresh : bool) (self : items.ItemsClient) :
  (fst (items.mapping net refresh self) = Raise FetchError ->
   snd (items.mapping net refresh self) = self)
  /\ (fst (items.latest_index net refresh self) = Raise FetchError ->
      snd (items.latest_index net refresh self) = self)
  /\ (forall path,
        let req :=
          {| req_url := items.base_url self +:+ path; req_params := [];
             req_headers := [("User-Agent", items.user_agent self)];
             req_timeout := items.timeout self |} in
        net req = NoResponse
        \/ (exists status body, net req = Response status body
                                /\ 400 <= status < 600)
        \/ (exists status, net req = Response status None) ->
        (path = "/mapping" ->
         py.is_none (items._mapping_cache self) || refresh = true ->
         items.mapping net refresh self = (Raise FetchError, self))
        /\ (path = "/latest" ->
            py.is_none (items._latest_cache self) || refresh = true ->
            items.latest_index net refresh self = (Raise FetchError, self)))
  /\ (forall net' rows,
        items._mapping_cache self = JArr rows ->
        items.mapping net' false self = (Ok rows, self))
  /\ (forall net' prices,
        items._latest_cache self = JObj prices ->
        items.latest_index net' false self = (Ok prices, self)).
Proof.
  split; [apply mapping_fetch_error|].
  split; [apply latest_index_fetch_error|].
  split.
  - intros path req Hfail.
    destruct (requests_get_json_fails net req Hfail) as [e He].
    split; intros -> Hdue.
    + by eapply mapping_raises_fetch_error.
    + by eapply latest_index_raises_fetch_error.
  - split; intros net' x Hx;
      [by apply mapping_cached|by apply latest_index_cached].
Qed.

(** A refresh with no connection on a client that holds one cached row
    and one cached price: both calls raise [FetchError], the client is
    unchanged, and the next calls without refresh return the cached
    values. *)
Lemma fetch_error_keeps_cache_offline :
  let row := JObj [("id", JNum 4151); ("name", JStr "Abyssal whip")] in
  let prices := [("4151", JObj [("high", JNum 2300000); ("low", JNum 2200000)])] in
  let self :=
    items.set_latest_cache (JObj prices)
      (items.set_mapping_cache (JArr [row]) items.new) in
  let offline : network := fun _ => NoResponse in
  items.mapping offline true self = (Raise FetchError, self)
  /\ items.latest_index offline true self = (Raise FetchError, self)
  /\ items.mapping offline false self = (Ok [row], self)
  /\ items.latest_index offline false self = (Ok prices, self)
  /\ items.mapping offline false items.new = (Raise FetchError, items.new).
Proof.
  intros row prices self offline.
  pose proof (fetch_error_keeps_cache offline true self)
    as (_ & _ & Hfail & Hm & Hl).
  split; [|split; [|split; [|split]]].
  - apply (proj1 (Hfail "/mapping" (or_introl eq_refl))); reflexivity.
  - apply (proj2 (Hfail "/latest" (or_introl eq_refl))); reflexivity.
  - apply Hm. reflexivity.
  - apply Hl. reflexivity.
  - reflexivity.
Defined.

(** ** Search *)

Section search_facts.

Lemma ltb_leb a b : String.ltb a b = true -> String.leb a b = true.
Proof. unfold String.ltb, String.leb. by destruct (String.compare a b). Qed.

Lemma not_ltb_leb a b : String.ltb a b = false -> String.leb b a = true.
Proof.
  unfold String.ltb, String.leb. rewrite (String.compare_antisym b a).
  by destruct (String.compare a b).
Qed.

Lemma insert_keyed_perm {A} (x : string * A) l :
  Permutation (py.insert_keyed x l) (x :: l).
Proof.
  induction l as [|y l IH]; simpl; [done|].
  destruct (String.ltb (fst y) (fst x)); [|done].
  rewrite IH. apply perm_swap.
Qed.

Lemma sort_keyed_perm {A} (l : list (string * A)) :
  Permutation (py.sort_keyed l) l.
Proof.
  induction l as [|x l IH]; simpl; [done|].
  by rewrite insert_keyed_perm, IH.
Qed.

Lemma insert_keyed_hd {A} (x y : string * A) l :
  keyed_le y x -> HdRel keyed_le y l -> HdRel keyed_le y (py.insert_keyed x l).
Proof.
  intros Hyx Hl. destruct l as [|z l]; simpl; [by constructor|].
  destruct (String.ltb (fst z) (fst x)); constructor; [|done].
  by inversion Hl.
Qed.

Lemma insert_keyed_sorted {A} (x : string * A) l :
  Sorted keyed_le l -> Sorted keyed_le (py.insert_keyed x l).
Proof.
  induction 1 as [|y l Hl IH Hy]; simpl; [by repeat constructor|].
  destruct (String.ltb (fst y) (fst x)) eqn:E.
  - constructor; [exact IH|]. apply insert_keyed_hd; [|exact Hy].
    by apply ltb_leb.
  - constructor; [by constructor|]. constructor. by apply not_ltb_leb.
Qed.

Lemma sort_keyed_sorted {A} (l : list (string * A)) :
  Sorted keyed_le (py.sort_keyed l).
Proof.
  induction l as [|x l IH]; simpl; [constructor|].
  by apply insert_keyed_sorted.
Qed.

Lemma sorted_map_snd {A} (key : A -> string) (l : list (string * A)) :
  Forall (fun p => fst p = key (snd p)) l ->
  Sorted keyed_le l ->
  Sorted (fun a b => String.leb (key a) (key b) = true) (map snd l).
Proof.
  intros Hk Hs. induction Hs as [|p l Hl IH Hp]; simpl; [constructor|].
  inversion Hk as [|? ? Hp1 Hk']; subst.
  constructor; [by apply IH|].
  destruct Hp as [|q l Hpq]; simpl; constructor.
  inversion Hk' as [|? ? Hq1 _]; subst.
  unfold keyed_le in Hpq. by rewrite Hp1, Hq1 in Hpq.
Qed.

Lemma zip_keys {A} (key : A -> string) (l : list A) :
  map snd (zip (map key l) l) = l
  /\ Forall (fun p => fst p = key (snd p)) (zip (map key l) l).
Proof.
  induction l as [|x l [IH1 IH2]]; simpl; [by split|].
  split; [by rewrite IH1|by constructor].
Qed.

Lemma sorted_hits_perm self rows prices query :
  Permutation (sorted_hits self rows prices query)
              (matching self rows prices query).
Proof.
  unfold sorted_hits.
  set (key := fun it => pystr.lower (item_name it)).
  rewrite sort_keyed_perm. by rewrite (proj1 (zip_keys key _)).
Qed.

Lemma sorted_hits_sorted self rows prices query :
  Sorted name_le (sorted_hits self rows prices query).
Proof.
  unfold sorted_hits.
  set (key := fun it => pystr.lower (item_name it)).
  apply (sorted_map_snd key); [|apply sort_keyed_sorted].
  apply List.Forall_forall. intros p Hp.
  assert (Hp' : p ∈ zip (map key (matching self rows prices query))
                        (matching self rows prices query)).
  { apply list_elem_of_In in Hp. by rewrite sort_keyed_perm in Hp. }
  apply list_elem_of_In in Hp'.
  exact (proj1 (List.Forall_forall _ _)
           (proj2 (zip_keys key (matching self rows prices query))) p Hp').
Qed.

Lemma sorted_hits_nil self rows prices query :
  sorted_hits self rows prices query = [] <->
  matching self rows prices query = [].
Proof.
  pose proof (sorted_hits_perm self rows prices query) as Hp.
  split; intros H; rewrite H in Hp.
  - by apply Permutation_nil.
  - by apply Permutation_nil, Permutation_sym.
Qed.

Lemma name_of_obj it : is_obj it -> items.name_of it = Ok (item_name it).
Proof. by intros [d ->]. Qed.

(** [search] on cached data, step by step. *)
Lemma search_cached net rapidfuzz self rows prices query limit fuzzy cutoff :
  cached self rows prices ->
  items.search net rapidfuzz query limit fuzzy cutoff self
  = let hits := sorted_hits self rows prices query in
    if py.truthy (JArr hits) || negb fuzzy then
      (Ok (match limit with
           | Some n => if py.truthy (JNum n) then py.slice_to hits n else hits
           | None => hits
           end), self)
    else
      items.fuzzy_search net rapidfuzz (items._apply_alias self query)
        (items.limit_or limit 10) cutoff "WRatio" self.
Proof.
  intros Hc. unfold items.search, mbind, M_bind, read, lift. cbn beta iota.
  rewrite (tradeable_mapping_cached _ _ _ _ Hc).
  destruct Hc as (_ & Hobj & _).
  pose proof (tradeable_subset_obj rows prices Hobj) as Hobj'.
  rewrite (filter_result_ok _
             (fun it => pystr.contains (search_key self query)
                                       (pystr.lower (item_name it)))).
  2:{ eapply Forall_impl; [exact Hobj'|]. intros it Hit. cbn.
      by rewrite (name_of_obj _ Hit). }
  fold (matching self rows prices query).
  rewrite (map_result_ok _ (fun it => pystr.lower (item_name it))).
  2:{ apply List.Forall_forall. intros it Hit.
      apply List.filter_In in Hit as [Hit _].
      pose proof (proj1 (List.Forall_forall _ _) Hobj' it Hit) as Ho.
      cbn. by rewrite (name_of_obj _ Ho). }
  unfold sorted_hits. cbn zeta beta iota.
  by destruct (py.truthy _ || negb fuzzy).
Qed.

Lemma fuzzy_search_missing net query limit cutoff scorer self :
  items.fuzzy_search net None query limit cutoff scorer self
  = (Raise ImportError, self).
Proof. reflexivity. Qed.

End search_facts.

(** C4, as amended.  On cached data, when the search is not fuzzy or
    has a substring hit, [search] returns the tradeable rows whose
    lower-case name contains the query after alias substitution,
    stripping and lower-casing: all of them, each once, in ascending
    order of the lower-case name, when no limit is given, and the first
    [limit] of that list when a positive limit is given.  The client is
    unchanged. *)
Theorem search_substring
    (net : network) (rapidfuzz : option items.Rapidfuzz)
    (self : items.ItemsClient) (rows : list json) (prices : dict)
    (query : string) (limit : option Z) (fuzzy : bool) (cutoff : Z) :
  cached self rows prices ->
  matching self rows prices query <> [] \/ fuzzy = false ->
  exists hits,
    Permutation hits (matching self rows prices query)
    /\ Sorted name_le hits
    /\ (limit = None ->
        items.search net rapidfuzz query limit fuzzy cutoff self
        = (Ok hits, self))
    /\ (forall n, limit = Some n -> 0 < n ->
        items.search net rapidfuzz query limit fuzzy cutoff self
        = (Ok (firstn (Z.to_nat n) hits), self)).
Proof.
  intros Hc Hsub. exists (sorted_hits self rows prices query).
  split; [apply sorted_hits_perm|]. split; [apply sorted_hits_sorted|].
  rewrite (search_cached _ _ _ _ _ _ _ _ _ Hc). cbn zeta.
  assert (py.truthy (JArr (sorted_hits self rows prices query)) || negb fuzzy
          = true) as ->.
  { destruct Hsub as [Hne| ->]; [|apply orb_true_r].
    apply orb_true_iff. left. simpl.
    destruct (sorted_hits self rows prices query) eqn:E; [|done].
    by apply sorted_hits_nil in E. }
  split; [by intros ->|]. intros n -> Hn. simpl.
  assert ((n =? 0) = false) as -> by lia. simpl.
  unfold py.slice_to. by assert ((n <? 0) = false) as -> by lia.
Qed.

(** The search for "abyssal" among the whip, the bludgeon and the boots
    returns the bludgeon, then the whip. *)
Lemma search_substring_abyssal :
  let whip := JObj [("id", JNum 4151); ("name", JStr "Abyssal whip")] in
  let bludgeon := JObj [("id", JNum 13239); ("name", JStr "Abyssal bludgeon")] in
  let boots := JObj [("id", JNum 11840); ("name", JStr "Dragon boots")] in
  let prices := [("4151", JNull); ("13239", JNull); ("11840", JNull)] in
  let self :=
    items.set_latest_cache (JObj prices)
      (items.set_mapping_cache (JArr [whip; bludgeon; boots]) items.new) in
  let net : network := fun _ => NoResponse in
  cached self [whip; bludgeon; boots] prices
  /\ (exists hits,
        Permutation hits (matching self [whip; bludgeon; boots] prices "abyssal")
        /\ Sorted name_le hits
        /\ items.search net None "abyssal" None false 60 self = (Ok hits, self))
  /\ items.search net None "abyssal" None false 60 self
     = (Ok [bludgeon; whip], self)
  /\ items.search net None "abyssal" (Some 1) false 60 self
     = (Ok [bludgeon], self).
Proof.
  intros whip bludgeon boots prices self net.
  assert (Hc : cached self [whip; bludgeon; boots] prices).
  { split; [reflexivity|]. split; [|reflexivity].
    repeat constructor; eexists; reflexivity. }
  split; [exact Hc|].
  destruct (search_substring net None self [whip; bludgeon; boots] prices
              "abyssal" None false 60 Hc (or_intror eq_refl))
    as (hits & Hperm & Hsorted & Hnone & _).
  split; [|split; reflexivity].
  exists hits. split; [exact Hperm|]. split; [exact Hsorted|].
  exact (Hnone eq_refl).
Defined.

(** C4, as stated, fails: the query " a" is stripped before it is
    matched, so the row named "A" is returned although its lower-case
    name does not contain the query in lower case. *)
Lemma search_strips_query :
  let row := JObj [("id", JNum 1); ("name", JStr "A")] in
  let prices := [("1", JObj [("high", JNum 1); ("low", JNum 1)])] in
  let self :=
    items.set_latest_cache (JObj prices)
      (items.set_mapping_cache (JArr [row]) items.new) in
  let net : network := fun _ => NoResponse in
  pystr.contains (pystr.lower (items._apply_alias self " a"))
                 (pystr.lower (item_name row)) = false
  /\ matching_unstripped self [row] prices " a" = []
  /\ items.search net None " a" None false 60 self = (Ok [row], self).
Proof. repeat split; reflexivity. Qed.

(** A limit of 0 is the same as no limit. *)
Example search_limit_zero :
  let row := JObj [("id", JNum 1); ("name", JStr "A")] in
  let prices := [("1", JObj [("high", JNum 1); ("low", JNum 1)])] in
  let self :=
    items.set_latest_cache (JObj prices)
      (items.set_mapping_cache (JArr [row]) items.new) in
  items.search (fun _ => NoResponse) None "a" (Some 0) false 60 self
  = (Ok [row], self).
Proof. reflexivity. Qed.

(** C5, as amended.  On cached data and with no [rapidfuzz]: a fuzzy
    search with a substring hit returns what the search that is not
    fuzzy returns; a fuzzy search with no substring hit raises
    [ImportError], the error of [fuzzy_search] it hands over to; the
    search that is not fuzzy returns and never raises it; and
    [fuzzy_search] itself always raises it. *)
Theorem search_without_rapidfuzz
    (net : network) (self : items.ItemsClient) (rows : list json)
    (prices : dict) (query : string) (limit : option Z) (cutoff : Z) :
  cached self rows prices ->
  (matching self rows prices query <> [] ->
   items.search net None query limit true cutoff self
   = items.search net None query limit false cutoff self)
  /\ (matching self rows prices query = [] ->
      items.search net None query limit true cutoff self
      = (Raise ImportError, self))
  /\ (exists hits,
        items.search net None query limit false cutoff self = (Ok hits, self))
  /\ (forall q l c scorer st,
        items.fuzzy_search net None q l c scorer st = (Raise ImportError, st)).
Proof.
  intros Hc. rewrite !(search_cached _ _ _ _ _ _ _ _ _ Hc). cbn zeta.
  split; [|split; [|split]].
  - intros Hne. rewrite orb_true_r.
    destruct (sorted_hits self rows prices query) eqn:E; [|done].
    by apply sorted_hits_nil in E.
  - intros He. apply sorted_hits_nil in He. by rewrite He.
  - rewrite orb_true_r. by eexists.
  - done.
Qed.

(** With a substring hit the fuzzy search does not need [rapidfuzz]. *)
Lemma search_without_rapidfuzz_hit :
  let whip := JObj [("id", JNum 4151); ("name", JStr "Abyssal whip")] in
  let prices := [("4151", JNull)] in
  let self :=
    items.set_latest_cache (JObj prices)
      (items.set_mapping_cache (JArr [whip]) items.new) in
  let net : network := fun _ => NoResponse in
  cached self [whip] prices
  /\ items.search net None "whip" None true 60 self = (Ok [whip], self).
Proof.
  intros whip prices self net.
  assert (Hc : cached self [whip] prices).
  { split; [reflexivity|]. split; [|reflexivity].
    repeat constructor; eexists; reflexivity. }
  split; [exact Hc|].
  rewrite (proj1 (search_without_rapidfuzz net self [whip] prices "whip" None 60
                    Hc)); [reflexivity|discriminate].
Defined.

(** C5, as stated, fails: with no [rapidfuzz] and no substring hit the
    fuzzy search raises [ImportError], where the substring search
    returns the empty list. *)
Lemma search_fuzzy_raises :
  let whip := JObj [("id", JNum 4151); ("name", JStr "Abyssal whip")] in
  let prices := [("4151", JNull)] in
  let self :=
    items.set_latest_cache (JObj prices)
      (items.set_mapping_cache (JArr [whip]) items.new) in
  let net : network := fun _ => NoResponse in
  items.search net None "zzz" None false 60 self = (Ok [], self)
  /\ items.search net None "zzz" None true 60 self = (Raise ImportError, self).
Proof. split; reflexivity. Qed.

(** ** The collections handed out are copies *)

Section store_facts.
Import store.

Lemma fresh_loc (h : heap) : h !! fresh (dom h) = None.
Proof. apply not_elem_of_dom, is_fresh. Qed.

(** [mapping] without refresh on a cached list: a new list object with
    the items of the cache; nothing else changes. *)
Lemma store_mapping_cached net st lm rows :
  _mapping_cache (self st) = Ptr lm ->
  objects st !! lm = Some (OList rows) ->
  mapping net false st
  = (Ok (Ptr (fresh (dom (objects st)))),
     {| objects := <[fresh (dom (objects st)) := OList rows]> (objects st);
        self := self st |}).
Proof.
  intros Hc Hl.
  unfold mapping, list_copy, alloc, mbind, M_bind, read, lift.
  cbn beta iota. rewrite Hc. cbn. rewrite Hc. unfold iter. by rewrite Hl.
Qed.

(** [latest_index] without refresh on a cached dict: a new dict object
    with the entries of the cache; nothing else changes. *)
Lemma store_latest_index_cached net st ll entries :
  _latest_cache (self st) = Ptr ll ->
  objects st !! ll = Some (ODict entries) ->
  latest_index net false st
  = (Ok (Ptr (fresh (dom (objects st)))),
     {| objects := <[fresh (dom (objects st)) := ODict entries]> (objects st);
        self := self st |}).
Proof.
  intros Hc Hl.
  unfold latest_index, dict_copy, alloc, mbind, M_bind, read, lift.
  cbn beta iota. rewrite Hc. cbn. rewrite ?Hc. by rewrite Hl.
Qed.

Lemma list_mutate_other l f st l' :
  l' <> l -> objects (list_mutate l f st) !! l' = objects st !! l'.
Proof.
  intros Hne. unfold list_mutate.
  destruct (objects st !! l) as [[]|]; simpl; [|done..].
  by rewrite lookup_insert_ne.
Qed.

Lemma dict_mutate_other l f st l' :
  l' <> l -> objects (dict_mutate l f st) !! l' = objects st !! l'.
Proof.
  intros Hne. unfold dict_mutate.
  destruct (objects st !! l) as [[]|]; simpl; [done| |done].
  by rewrite lookup_insert_ne.
Qed.

Lemma list_mutate_self l f st : self (list_mutate l f st) = self st.
Proof. unfold list_mutate. by destruct (objects st !! l) as [[]|]. Qed.

Lemma dict_mutate_self l f st : self (dict_mutate l f st) = self st.
Proof. unfold dict_mutate. by destruct (objects st !! l) as [[]|]. Qed.

End store_facts.

(** C10.  For every state whose two caches are populated: [mapping]
    returns a list object that did not exist before the call and holds
    the cached rows, and [latest_index] returns such a dict object with
    the cached price entries; the caches and every object that existed
    are as before.  Whatever a caller then does to the contents of the
    returned list (of the returned dict), every object that existed
    before the call is unchanged, the client still refers to the same
    cache objects, and a later call without refresh returns again a list
    of the cached rows (a dict of the cached price entries). *)
Theorem returned_collections_are_copies
    (net : network) (st : store.state) (lm ll : store.loc)
    (rows : list store.ref) (entries : list (string * store.ref))
    (f : list store.ref -> list store.ref)
    (g : list (string * store.ref) -> list (string * store.ref)) :
  store._mapping_cache (store.self st) = store.Ptr lm ->
  store.objects st !! lm = Some (store.OList rows) ->
  store._latest_cache (store.self st) = store.Ptr ll ->
  store.objects st !! ll = Some (store.ODict entries) ->
  (exists l1 st1,
     store.mapping net false st = (Ok (store.Ptr l1), st1)
     /\ store.objects st !! l1 = None
     /\ store.objects st1 !! l1 = Some (store.OList rows)
     /\ store.self st1 = store.self st
     /\ (forall l o, store.objects st !! l = Some o ->
                     store.objects (store.list_mutate l1 f st1) !! l = Some o)
     /\ store.self (store.list_mutate l1 f st1) = store.self st
     /\ (forall net', exists l2 st2,
           store.mapping net' false (store.list_mutate l1 f st1)
           = (Ok (store.Ptr l2), st2)
           /\ store.objects st2 !! l2 = Some (store.OList rows)))
  /\ (exists l1 st1,
        store.latest_index net false st = (Ok (store.Ptr l1), st1)
        /\ store.objects st !! l1 = None
        /\ store.objects st1 !! l1 = Some (store.ODict entries)
        /\ store.self st1 = store.self st
        /\ (forall l o, store.objects st !! l = Some o ->
                        store.objects (store.dict_mutate l1 g st1) !! l = Some o)
        /\ store.self (store.dict_mutate l1 g st1) = store.self st
        /\ (forall net', exists l2 st2,
              store.latest_index net' false (store.dict_mutate l1 g st1)
              = (Ok (store.Ptr l2), st2)
              /\ store.objects st2 !! l2 = Some (store.ODict entries))).
Proof.
  intros Hcm Hlm Hcl Hll.
  pose proof (fresh_loc (store.objects st)) as Hfresh.
  set (l1 := fresh (dom (store.objects st))) in *.
  assert (Hold : forall l o, store.objects st !! l = Some o -> l <> l1).
  { intros l o Hl ->. by rewrite Hfresh in Hl. }
  split.
  - eexists l1, _. split; [by apply (store_mapping_cached net st lm rows)|].
    split; [exact Hfresh|]. split; [by simpl; rewrite lookup_insert_eq|].
    split; [done|].
    set (st1 := {| store.objects := <[l1 := store.OList rows]> (store.objects st);
                   store.self := store.self st |}).
    assert (Hkeep : forall l o, store.objects st !! l = Some o ->
              store.objects (store.list_mutate l1 f st1) !! l = Some o).
    { intros l o Hl. rewrite list_mutate_other by (by eapply Hold).
      simpl. rewrite lookup_insert_ne; [done|]. intros <-. by eapply Hold. }
    split; [exact Hkeep|]. split; [by rewrite list_mutate_self|].
    intros net'. eexists _, _. split.
    + apply (store_mapping_cached net' _ lm rows).
      * by rewrite list_mutate_self.
      * by apply Hkeep.
    + simpl. by rewrite lookup_insert_eq.
  - eexists l1, _. split; [by apply (store_latest_index_cached net st ll entries)|].
    split; [exact Hfresh|]. split; [by simpl; rewrite lookup_insert_eq|].
    split; [done|].
    set (st1 := {| store.objects := <[l1 := store.ODict entries]> (store.objects st);
                   store.self := store.self st |}).
    assert (Hkeep : forall l o, store.objects st !! l = Some o ->
              store.objects (store.dict_mutate l1 g st1) !! l = Some o).
    { intros l o Hl. rewrite dict_mutate_other by (by eapply Hold).
      simpl. rewrite lookup_insert_ne; [done|]. intros <-. by eapply Hold. }
    split; [exact Hkeep|]. split; [by rewrite dict_mutate_self|].
    intros net'. eexists _, _. split.
    + apply (store_latest_index_cached net' _ ll entries).
      * by rewrite dict_mutate_self.
      * by apply Hkeep.
    + simpl. by rewrite lookup_insert_eq.
Qed.

(** A client that has fetched one row and one price: the list [mapping]
    returns is not the cached list, and after the caller has cleared it
    the next call still returns a list of the cached row; the same for
    the dict of [latest_index]. *)
Lemma returned_collections_after_fetch :
  let net : network := fun req =>
    if pystr.endswith (req_url req) "/mapping" then
      Response 200 (Some (JArr [JObj [("id", JNum 4151);
                                      ("name", JStr "Abyssal whip")]]))
    else
      Response 200 (Some (JObj [("data",
                                 JObj [("4151", JObj [("high", JNum 1)])])])) in
  let st := snd (store.latest_index net true
                   (snd (store.mapping net true store.new))) in
  store._mapping_cache (store.self st) = store.Ptr 1%nat
  /\ store.objects st !! 1%nat = Some (store.OList [store.Ptr 0%nat])
  /\ store._latest_cache (store.self st) = store.Ptr 4%nat
  /\ store.objects st !! 4%nat = Some (store.ODict [("4151", store.Ptr 3%nat)])
  /\ (exists l1 st1 l2 st2,
        store.mapping net false st = (Ok (store.Ptr l1), st1)
        /\ l1 <> 1%nat
        /\ store.mapping net false (store.list_mutate l1 (fun _ => []) st1)
           = (Ok (store.Ptr l2), st2)
        /\ store.objects st2 !! l2 = Some (store.OList [store.Ptr 0%nat]))
  /\ (exists l1 st1 l2 st2,
        store.latest_index net false st = (Ok (store.Ptr l1), st1)
        /\ l1 <> 4%nat
        /\ store.latest_index net false (store.dict_mutate l1 (fun _ => []) st1)
           = (Ok (store.Ptr l2), st2)
        /\ store.objects st2 !! l2
           = Some (store.ODict [("4151", store.Ptr 3%nat)])).
Proof.
  intros net st.
  assert (H1 : store._mapping_cache (store.self st) = store.Ptr 1%nat)
    by (vm_compute; reflexivity).
  assert (H2 : store.objects st !! 1%nat = Some (store.OList [store.Ptr 0%nat]))
    by (vm_compute; reflexivity).
  assert (H3 : store._latest_cache (store.self st) = store.Ptr 4%nat)
    by (vm_compute; reflexivity).
  assert (H4 : store.objects st !! 4%nat
               = Some (store.ODict [("4151", store.Ptr 3%nat)]))
    by (vm_compute; reflexivity).
  do 4 (split; [assumption|]).
  destruct (returned_collections_are_copies net st 1%nat 4%nat _ _ (fun _ => []) (fun _ => [])
              H1 H2 H3 H4) as [Hm Hl].
  split.
  - destruct Hm as (l1 & st1 & Hrun & Hnew & _ & _ & _ & _ & Hnext).
    destruct (Hnext net) as (l2 & st2 & Hrun2 & Hobj2).
    exists l1, st1, l2, st2. repeat split; try assumption.
    intros Heq. rewrite Heq in Hnew.
    discriminate (eq_trans (eq_sym Hnew) H2).
  - destruct Hl as (l1 & st1 & Hrun & Hnew & _ & _ & _ & _ & Hnext).
    destruct (Hnext net) as (l2 & st2 & Hrun2 & Hobj2).
    exists l1, st1, l2, st2. repeat split; try assumption.
    intros Heq. rewrite Heq in Hnew.
    discriminate (eq_trans (eq_sym Hnew) H4).
Defined.

(** The copy is one level deep: the rows themselves are shared, and a
    change made to a row reached through a returned list is seen through
    the cache. *)
Example returned_rows_are_shared :
  let net : network := fun _ =>
    Response 200 (Some (JArr [JObj [("name", JStr "Abyssal whip")]])) in
  let st := snd (store.mapping net true store.new) in
  let st' := store.dict_mutate 0%nat (fun _ => []) st in
  store.objects st !! 1%nat = Some (store.OList [store.Ptr 0%nat])
  /\ store.objects st !! 2%nat = Some (store.OList [store.Ptr 0%nat])
  /\ store._mapping_cache (store.self st') = store.Ptr 1%nat
  /\ store.objects st' !! 0%nat = Some (store.ODict []).
Proof. vm_compute. repeat split; reflexivity. Qed.

(** * Further properties of the code *)

(** ** The keys *)

Section key_facts.
Import pystr.

Lemma blank_lower_char c :
  is_space c || is_punct c = true -> lower_char c = c.
Proof.
  destruct c as [[] [] [] [] [] [] [] []]; intros H;
    try reflexivity; discriminate H.
Qed.

Lemma blank_rest_all c :
  blank_rest [","%char; ")"%char; "("%char; ":"%char; "-"%char; "'"%char] c
  = true -> is_space c = true.
Proof.
  destruct c as [[] [] [] [] [] [] [] []]; intros H;
    try reflexivity; discriminate H.
Qed.

Lemma replace_blank_rest old new seen s :
  all_chars is_space new = true ->
  all_chars (blank_rest seen) s = true ->
  all_chars (blank_rest (old :: seen)) (replace old new s) = true.
Proof.
  intros Hnew. apply all_chars_replace.
  - revert Hnew. apply all_chars_impl. intros c Hc. unfold blank_rest.
    by rewrite Hc.
  - intros c Hc E. unfold blank_rest in *. cbn [existsb]. by rewrite E.
Qed.

Lemma all_chars_lstrip p s :
  all_chars p s = true -> all_chars p (lstrip s) = true.
Proof.
  induction s as [|c s IH]; simpl; [done|].
  rewrite andb_true_iff. intros [Hc Hs].
  destruct (is_space c); [by apply IH|]. simpl. by rewrite Hc.
Qed.

Lemma all_chars_rstrip p s :
  all_chars p s = true -> all_chars p (rstrip s) = true.
Proof.
  induction s as [|c s IH]; simpl; [done|].
  rewrite andb_true_iff. intros [Hc Hs]. specialize (IH Hs).
  destruct (rstrip s); simpl in *.
  - destruct (is_space c); [done|]. simpl. by rewrite Hc.
  - by rewrite Hc, IH.
Qed.

Lemma lower_blank s :
  all_chars (fun c => is_space c || is_punct c) s = true -> lower s = s.
Proof.
  induction s as [|c s IH]; simpl; [done|].
  rewrite andb_true_iff. intros [Hc Hs].
  by rewrite (blank_lower_char c Hc), IH.
Qed.

Lemma split_spaces s : all_chars is_space s = true -> split s = [].
Proof.
  induction s as [|c s IH]; simpl; [done|].
  rewrite andb_true_iff. intros [-> Hs]. by apply IH.
Qed.

End key_facts.

(** A normalized key holds no white space, none of the characters
    ['], [-], [:], [(], [)], [,] and no character that [lower] would
    change; and the key of a name made of white space and such
    punctuation only is the empty string. *)
Theorem normalize_name_charset (x : string) :
  all_chars (fun c =>
               negb (pystr.is_space c)
               && negb (is_punct c)
               && Ascii.eqb (pystr.lower_char c) c)
            (hiscores.normalize_name x) = true
  /\ (all_chars (fun c => pystr.is_space c || is_punct c) x = true ->
      hiscores.normalize_name x = "").
Proof.
  split.
  - generalize (normalize_name_clean x). apply all_chars_impl.
    intros c. unfold clean. rewrite !andb_true_iff. tauto.
  - intros Hx. unfold hiscores.normalize_name. simpl.
    rewrite split_spaces; [done|].
    apply (all_chars_impl
             (blank_rest [","%char; ")"%char; "("%char; ":"%char; "-"%char;
                          "'"%char])); [apply blank_rest_all|].
    do 6 (apply replace_blank_rest; [reflexivity|]).
    unfold pystr.strip. rewrite lower_blank.
    + apply all_chars_lstrip, all_chars_rstrip. revert Hx.
      apply all_chars_impl. intros c Hc. unfold blank_rest. simpl.
      by rewrite andb_true_r.
    + by apply all_chars_lstrip, all_chars_rstrip.
Qed.

(** ** The hiscores client *)

Lemma requests_get_json_ok net req v :
  requests_get_json net req = Ok v <-> accepted (net req) v.
Proof.
  unfold requests_get_json, accepted. split.
  - destruct (net req) as [|status body]; [done|].
    destruct ((400 <=? status) && (status <? 600)) eqn:E; [done|].
    destruct body as [w|]; [|done]. intros [= ->].
    exists status. split; [done|]. lia.
  - intros (status & -> & Hst).
    by assert ((400 <=? status) && (status <? 600) = false) as -> by lia.
Qed.

Lemma fetch_index_ok net c username m v :
  client.fetch_index_lite_json net c username m = Ok v
  <-> accepted (net (index_lite_request c username m)) v.
Proof.
  rewrite <- requests_get_json_ok.
  change (client.fetch_index_lite_json net c username m)
    with (match requests_get_json net (index_lite_request c username m) with
          | Ok v => Ok v
          | Raise _ => Raise FetchError
          end).
  destruct (requests_get_json _ _); split; intros H; by simplify_eq.
Qed.

Lemma fetch_index_raises net c username m e :
  client.fetch_index_lite_json net c username m = Raise e -> e = FetchError.
Proof.
  unfold client.fetch_index_lite_json.
  destruct (requests_get_json _ _); by intros [= <-].
Qed.

Lemma fetch_unfold net m self :
  hiscores.fetch net m self
  = match client.fetch_index_lite_json net (hiscores.client self)
            (hiscores.username self) m with
    | Ok v =>
        (Ok tt,
         hiscores.set_parsed false
           (hiscores.set_fetched true (hiscores.set_raw_json v self)))
    | Raise e => (Raise e, self)
    end.
Proof.
  unfold hiscores.fetch, mbind, M_bind, read, lift, modify. cbn beta iota.
  by destruct (client.fetch_index_lite_json _ _ _ _).
Qed.

Lemma known_forallb kwargs :
  forallb (fun kv => bool_decide (fst kv ∈ client.mode_names)) kwargs = true
  <-> known_keywords kwargs.
Proof.
  unfold known_keywords. induction kwargs as [|kv l IH]; simpl.
  - split; [constructor|done].
  - by rewrite andb_true_iff, IH, bool_decide_eq_true, Forall_cons.
Qed.

Lemma bind_modes_known kwargs :
  known_keywords kwargs -> client.bind_modes kwargs = Ok (client.bound kwargs).
Proof.
  intros H. apply known_forallb in H. unfold client.bind_modes. by rewrite H.
Qed.

Lemma bind_modes_unknown kwargs :
  ~ known_keywords kwargs -> client.bind_modes kwargs = Raise TypeError.
Proof.
  intros H. unfold client.bind_modes.
  destruct (forallb _ kwargs) eqn:E; [|done].
  exfalso. by apply H, known_forallb.
Qed.

Lemma fetch_index_kw_known net c username kwargs :
  known_keywords kwargs ->
  client.fetch_index_lite_json_kw net c username kwargs
  = client.fetch_index_lite_json net c username (client.bound kwargs).
Proof.
  intros H. unfold client.fetch_index_lite_json_kw.
  by rewrite (bind_modes_known _ H).
Qed.

Lemma fetch_index_kw_unknown net c username kwargs :
  ~ known_keywords kwargs ->
  client.fetch_index_lite_json_kw net c username kwargs = Raise TypeError.
Proof.
  intros H. unfold client.fetch_index_lite_json_kw.
  by rewrite (bind_modes_unknown _ H).
Qed.

Lemma highest_mode_suffix m :
  client._mode_suffix (highest_mode m) = client._mode_suffix m.
Proof.
  unfold highest_mode, client._mode_suffix. by destruct m as [[] [] [] [] []].
Qed.

Lemma fetch_kw_unfold net kwargs self :
  hiscores.fetch_kw net kwargs self
  = match client.fetch_index_lite_json_kw net (hiscores.client self)
            (hiscores.username self) kwargs with
    | Ok v =>
        (Ok tt,
         hiscores.set_parsed false
           (hiscores.set_fetched true (hiscores.set_raw_json v self)))
    | Raise e => (Raise e, self)
    end.
Proof.
  unfold hiscores.fetch_kw, mbind, M_bind, read, lift, modify. cbn beta iota.
  by destruct (client.fetch_index_lite_json_kw _ _ _ _).
Qed.

(** [fetch_index_lite_json(username, **modes)].  A keyword that is none
    of the five mode flags raises [TypeError], whatever the network
    would answer.  When every keyword is a mode flag, one request is
    sent, to the base URL followed by the mode suffix and
    [/index_lite.json], with the user name as the parameter [player]
    and the timeout of the client, and no header; the call returns the
    body when the response is accepted and raises [FetchError] when it
    is not.  It raises nothing but these two errors.  Flags in conflict
    are resolved without an error: the call is the call with the flag
    of highest precedence alone (seasonal, deadman, ultimate, hardcore,
    ironman, in this order). *)
Theorem fetch_index_lite_json_outcome
    (net : network) (c : client.HiscoresClient) (username : string)
    (kwargs : dict) :
  (~ known_keywords kwargs ->
   client.fetch_index_lite_json_kw net c username kwargs = Raise TypeError)
  /\ (known_keywords kwargs ->
      let m := client.bound kwargs in
      (forall v,
         client.fetch_index_lite_json_kw net c username kwargs = Ok v
         <-> accepted (net (index_lite_request c username m)) v)
      /\ ((forall v, ~ accepted (net (index_lite_request c username m)) v)
          <-> client.fetch_index_lite_json_kw net c username kwargs
              = Raise FetchError)
      /\ client.fetch_index_lite_json_kw net c username kwargs
         = client.fetch_index_lite_json net c username (highest_mode m))
  /\ (forall e,
        client.fetch_index_lite_json_kw net c username kwargs = Raise e ->
        (e = TypeError /\ ~ known_keywords kwargs)
        \/ (e = FetchError /\ known_keywords kwargs)).
Proof.
  split; [apply fetch_index_kw_unknown|]. split.
  - intros Hk m. rewrite (fetch_index_kw_known _ _ _ _ Hk). fold m.
    split; [|split].
    + intros v. apply fetch_index_ok.
    + split.
      * intros Hno.
        destruct (client.fetch_index_lite_json net c username m) as [v|e] eqn:E.
        -- exfalso. apply (Hno v). by apply fetch_index_ok.
        -- by rewrite (fetch_index_raises _ _ _ _ _ E).
      * intros H v Hv. apply fetch_index_ok in Hv. by rewrite Hv in H.
    + unfold client.fetch_index_lite_json. by rewrite highest_mode_suffix.
  - intros e He.
    destruct (forallb (fun kv => bool_decide (fst kv ∈ client.mode_names))
                kwargs) eqn:E.
    + apply known_forallb in E. right. split; [|done].
      rewrite (fetch_index_kw_known _ _ _ _ E) in He.
      by apply fetch_index_raises in He.
    + assert (Hn : ~ known_keywords kwargs).
      { intros Hk. apply known_forallb in Hk. by rewrite Hk in E. }
      left. split; [|done].
      rewrite (fetch_index_kw_unknown _ _ _ _ Hn) in He. by injection He.
Qed.

(** The keyword [league] is none of the flags: [TypeError], although
    the network would answer.  With [ironman] and [seasonal] the
    request goes to the seasonal table. *)
Lemma fetch_index_lite_json_outcome_seasonal :
  let net : network := fun req =>
    if String.eqb (req_url req)
         (constants.DEFAULT_HISCORES_BASE_URL +:+ "_seasonal/index_lite.json")
    then Response 200 (Some (JObj [("name", JStr "FixtureUser")]))
    else NoResponse in
  client.fetch_index_lite_json_kw net client.default "FixtureUser"
    [("seasonal", JBool true); ("league", JBool true)] = Raise TypeError
  /\ client.fetch_index_lite_json_kw net client.default "FixtureUser"
       [("ironman", JBool true); ("seasonal", JNum 1)]
     = Ok (JObj [("name", JStr "FixtureUser")])
  /\ client.fetch_index_lite_json_kw net client.default "FixtureUser"
       [("ironman", JBool true)] = Raise FetchError.
Proof.
  intros net.
  assert (Hbad : ~ known_keywords [("seasonal", JBool true);
                                   ("league", JBool true)]).
  { intros H. apply known_forallb in H. vm_compute in H. discriminate H. }
  assert (Hgood : known_keywords [("ironman", JBool true);
                                  ("seasonal", JNum 1)]).
  { apply known_forallb. vm_compute. reflexivity. }
  assert (Hiron : known_keywords [("ironman", JBool true)]).
  { apply known_forallb. vm_compute. reflexivity. }
  split; [|split].
  - exact (proj1 (fetch_index_lite_json_outcome net client.default
                    "FixtureUser" _) Hbad).
  - pose proof (proj1 (proj2 (fetch_index_lite_json_outcome net client.default
                                "FixtureUser" _)) Hgood) as H.
    cbv zeta in H. destruct H as (Hok & _ & _).
    apply Hok. exists 200. split; [reflexivity|lia].
  - pose proof (proj1 (proj2 (fetch_index_lite_json_outcome net client.default
                                "FixtureUser" _)) Hiron) as H.
    cbv zeta in H. destruct H as (_ & Hfail & _).
    apply Hfail. intros v (status & Heq & _). vm_compute in Heq.
    discriminate Heq.
Defined.

(** ** Fetching *)

(** [fetch] with its keywords has three outcomes.  With a keyword that is none
    of the five mode flags it raises [TypeError] and changes nothing.
    Otherwise it either returns, with [raw_json] the body of an
    accepted response, [fetched] set and [parsed] reset and every other
    field as before (the five pairs keep what the last parse left), or
    raises [FetchError], no response being accepted, and changes
    nothing.  [HiscoresAPI.get] passes its keywords to [fetch]: with
    [fetch=True] and such a keyword it raises the same [TypeError]
    before any parse, and with [fetch=False] the keywords are not
    looked at. *)
Theorem fetch_outcome
    (net : network) (kwargs : dict) (self : hiscores.Hiscores) :
  ((~ known_keywords kwargs
    /\ hiscores.fetch_kw net kwargs self = (Raise TypeError, self))
   \/ (known_keywords kwargs
       /\ exists v,
            accepted
              (net (index_lite_request (hiscores.client self)
                      (hiscores.username self) (client.bound kwargs))) v
            /\ hiscores.fetch_kw net kwargs self
               = (Ok tt,
                  hiscores.set_parsed false
                    (hiscores.set_fetched true (hiscores.set_raw_json v self)))
            /\ hiscores.raw_json (snd (hiscores.fetch_kw net kwargs self)) = v
            /\ hiscores.fetched (snd (hiscores.fetch_kw net kwargs self)) = true
            /\ hiscores.parsed (snd (hiscores.fetch_kw net kwargs self)) = false
            /\ snapshot (snd (hiscores.fetch_kw net kwargs self))
               = snapshot self)
   \/ (known_keywords kwargs
       /\ hiscores.fetch_kw net kwargs self = (Raise FetchError, self)
       /\ forall v, ~ accepted
            (net (index_lite_request (hiscores.client self)
                    (hiscores.username self) (client.bound kwargs))) v))
  /\ (known_keywords kwargs ->
      hiscores.fetch_kw net kwargs self
      = hiscores.fetch net (client.bound kwargs) self)
  /\ (forall c username do_parse,
        (~ known_keywords kwargs ->
         hiscores_api.get_kw net c username true do_parse kwargs
         = (Raise TypeError, hiscores.new username c))
        /\ hiscores_api.get_kw net c username false do_parse kwargs
           = hiscores_api.get net c username false do_parse client.normal).
Proof.
  split; [|split].
  - rewrite fetch_kw_unfold.
    destruct (forallb (fun kv => bool_decide (fst kv ∈ client.mode_names))
                kwargs) eqn:E.
    + apply known_forallb in E. right.
      rewrite (fetch_index_kw_known _ _ _ _ E).
      destruct (client.fetch_index_lite_json _ _ _ _) as [v|e] eqn:Ef.
      * left. split; [done|]. exists v.
        split; [by apply fetch_index_ok|]. by destruct self.
      * right. split; [done|].
        rewrite (fetch_index_raises _ _ _ _ _ Ef). split; [done|].
        intros v Hv. apply fetch_index_ok in Hv. by rewrite Hv in Ef.
    + assert (Hn : ~ known_keywords kwargs).
      { intros Hk. apply known_forallb in Hk. by rewrite Hk in E. }
      left. split; [done|]. by rewrite (fetch_index_kw_unknown _ _ _ _ Hn).
  - intros Hk. by rewrite fetch_kw_unfold, fetch_unfold,
      (fetch_index_kw_known _ _ _ _ Hk).
  - intros c username do_parse. split; [|reflexivity].
    intros Hn. unfold hiscores_api.get_kw, mbind, M_bind.
    by rewrite fetch_kw_unfold, (fetch_index_kw_unknown _ _ _ _ Hn).
Qed.

(** A misspelt flag leaves the object as it was, although the network
    would answer; the flag spelt right fetches. *)
Lemma fetch_outcome_misspelt :
  let net : network := fun _ => Response 200 (Some (JObj [("skills", JArr [])])) in
  let self := hiscores.new "FixtureUser" client.default in
  hiscores.fetch_kw net [("iron_man", JBool true)] self = (Raise TypeError, self)
  /\ fst (hiscores.fetch_kw net [("ironman", JBool true)] self) = Ok tt
  /\ hiscores.raw_json (snd (hiscores.fetch_kw net [("ironman", JBool true)] self))
     = JObj [("skills", JArr [])].
Proof.
  intros net self.
  assert (Hbad : ~ known_keywords [("iron_man", JBool true)]).
  { intros H. apply known_forallb in H. vm_compute in H. discriminate H. }
  assert (Hgood : known_keywords [("ironman", JBool true)]).
  { apply known_forallb. vm_compute. reflexivity. }
  split.
  - destruct (proj1 (fetch_outcome net [("iron_man", JBool true)] self))
      as [[_ H]|[[Hk _]|[Hk _]]]; [exact H|by destruct Hbad..].
  - split; reflexivity.
Defined.

(** [HiscoresAPI.get]: with fetch and parse, a fetch that fails raises
    [FetchError] and leaves the new object empty, a fetch that succeeds
    is followed by the parse of its body; without fetch, a parse always
    raises the invalid-state error; without either, the new object is
    returned as it is. *)
Theorem api_get_outcome
    (net : network) (c : client.HiscoresClient) (username : string)
    (m : client.modes) :
  ((forall v, ~ accepted (net (index_lite_request c username m)) v) ->
   forall do_parse,
     hiscores_api.get net c username true do_parse m
     = (Raise FetchError, hiscores.new username c))
  /\ (forall v, accepted (net (index_lite_request c username m)) v ->
      hiscores_api.get net c username true true m
      = hiscores.parse
          (hiscores.set_parsed false
             (hiscores.set_fetched true
                (hiscores.set_raw_json v (hiscores.new username c))))
      /\ hiscores_api.get net c username true false m
         = (Ok tt,
            hiscores.set_parsed false
              (hiscores.set_fetched true
                 (hiscores.set_raw_json v (hiscores.new username c)))))
  /\ hiscores_api.get net c username false true m
     = (Raise ValueError, hiscores.new username c)
  /\ hiscores_api.get net c username false false m
     = (Ok tt, hiscores.new username c).
Proof.
  split; [|split; [|split; reflexivity]].
  - intros Hno do_parse.
    unfold hiscores_api.get, mbind, M_bind. rewrite fetch_unfold. simpl.
    destruct (client.fetch_index_lite_json net c username m) as [v|e] eqn:E.
    + exfalso. apply (Hno v). by apply fetch_index_ok.
    + by rewrite (fetch_index_raises _ _ _ _ _ E).
  - intros v Hv. apply fetch_index_ok in Hv.
    unfold hiscores_api.get, mbind, M_bind. rewrite fetch_unfold. simpl.
    rewrite Hv. split; [|done].
    by destruct (hiscores.parse _) as [[[]|e] s].
Qed.

(** ** Parsing, end to end *)

Section parse_more.

Lemma skill_order_fold rows self :
  hiscores.skill_order (foldl skill_step self rows)
  = (hiscores.skill_order self ++ map row_key rows)%list.
Proof.
  revert self. induction rows as [|row rows IH]; intros self; simpl.
  - by rewrite app_nil_r.
  - rewrite IH. unfold skill_step. destruct self; simpl.
    by rewrite <- app_assoc.
Qed.

Lemma last_skill_data_snoc rows row k :
  last_skill_data (rows ++ [row]) k
  = if decide (row_key row = k) then Some (skill_data row)
    else last_skill_data rows k.
Proof. unfold last_skill_data. by rewrite foldl_app. Qed.

Lemma skills_fold rows self k :
  hiscores.skills (foldl skill_step self rows) !! k
  = match last_skill_data rows k with
    | Some e => Some e
    | None => hiscores.skills self !! k
    end.
Proof.
  induction rows as [|row rows IH] using rev_ind; [done|].
  rewrite foldl_app, last_skill_data_snoc. simpl.
  unfold skill_step at 1.
  assert (Hs : forall k' e s,
    hiscores.skills
      (hiscores.set_skills (<[k' := e]> (hiscores.skills
         (hiscores.set_skill_order (hiscores.skill_order s ++ [k']) s)))
         (hiscores.set_skill_order (hiscores.skill_order s ++ [k']) s))
    = <[k' := e]> (hiscores.skills s)) by (by intros ? ? []).
  cbn zeta. rewrite Hs.
  destruct (decide (row_key row = k)) as [->|Hne].
  - by rewrite lookup_insert_eq.
  - by rewrite lookup_insert_ne.
Qed.

Ltac step_body :=
  intros; unfold hiscores.skills_row, hiscores.activities_row,
            mbind, M_bind, lift, modify;
  repeat match goal with
         | |- context [hiscores.key_of ?r] => destruct (hiscores.key_of r) eqn:?
         | |- context [hiscores.entry_of ?r ?f] =>
             destruct (hiscores.entry_of r f) eqn:?
         | |- context [if ?b then _ else _] => destruct b
         end;
  simpl.

Lemma parse_skills_identity v s :
  identity_part (snd (hiscores._parse_skills v s)) = identity_part s.
Proof.
  rewrite parse_skills_unfold.
  destruct (py.iter v) as [rows|e]; [|by destruct s].
  etrans; [apply (for_each_frame identity_part)|by destruct s].
  clear. intros row s. step_body; by destruct s.
Qed.

Lemma parse_activities_identity v s :
  identity_part (snd (hiscores._parse_activities v s)) = identity_part s.
Proof.
  rewrite parse_activities_unfold.
  destruct (py.iter v) as [rows|e]; [|by destruct s].
  etrans; [apply (for_each_frame identity_part)|by destruct s].
  clear. intros row s. step_body; by destruct s.
Qed.

Lemma order_of_part b s1 s2 :
  activities_part s1 = activities_part s2 ->
  order_of b s1 = order_of b s2 /\ map_of b s1 = map_of b s2.
Proof.
  unfold activities_part. intros H. destruct s1, s2, b; simpl in *;
    by simplify_eq.
Qed.

End parse_more.

(** ** A parse that stops at a row *)

Section parse_stops.






End parse_stops.




(** [parse] on raw data whose two lists hold readable rows returns;
    then [skill_order] is the keys of the skill rows in the order of the
    response, repeats included, [skills] holds under each key the entry
    of the last row with that key, the four other pairs are filled by
    the classification of the activity rows, [parsed] is set, and the
    raw data and the other fields are as before. *)
Theorem parse_end_to_end
    (self : hiscores.Hiscores) (d : dict) (srows arows : list json) :
  hiscores.raw_json self = JObj d -> d <> [] ->
  py.get (JObj d) "skills" (JArr []) = Ok (JArr srows) ->
  py.get (JObj d) "activities" (JArr []) = Ok (JArr arows) ->
  Forall row_ok srows -> Forall row_ok arows ->
  exists self',
    hiscores.parse self = (Ok tt, self')
    /\ hiscores.skill_order self' = map row_key srows
    /\ (forall k, hiscores.skills self' !! k = last_skill_data srows k)
    /\ (forall b,
          order_of b self'
          = filter (fun k => bucket_of k = b) (map row_key arows))
    /\ (forall b k,
          map_of b self' !! k
          = if decide (bucket_of k = b) then last_data arows k else None)
    /\ hiscores.parsed self' = true
    /\ hiscores.raw_json self' = hiscores.raw_json self
    /\ hiscores.fetched self' = hiscores.fetched self
    /\ hiscores.username self' = hiscores.username self.
Proof.
  intros Hraw Hd Hs Ha Hsr Har.
  set (s1 := foldl skill_step (cleared_skills self) srows).
  set (s2 := foldl file_step (cleared_activities s1) arows).
  assert (H1 : hiscores._parse_skills (JArr srows) self = (Ok tt, s1))
    by (by apply parse_skills_run).
  assert (H2 : hiscores._parse_activities (JArr arows) s1 = (Ok tt, s2))
    by (by apply parse_activities_run).
  pose proof (parse_skills_identity (JArr srows) self) as I1.
  pose proof (parse_activities_identity (JArr arows) s1) as I2.
  pose proof (parse_activities_frame (JArr arows) s1) as F2.
  rewrite H1 in I1. rewrite H2 in I2, F2. simpl in I1, I2, F2.
  exists (hiscores.set_parsed true s2). split.
  - rewrite parse_unfold, Hraw.
    assert (py.truthy (JObj d) = true) as -> by (by destruct d).
    rewrite Hs, H1. simpl negb. cbv iota.
    assert (hiscores.raw_json s1 = JObj d) as ->.
    { rewrite <- Hraw. unfold identity_part in I1. by simplify_eq. }
    by rewrite Ha, H2.
  - assert (Hsk : skills_part (hiscores.set_parsed true s2)
                  = skills_part s1) by (rewrite <- F2; by destruct s2).
    assert (Hac : activities_part (hiscores.set_parsed true s2)
                  = activities_part s2) by (by destruct s2).
    unfold skills_part in Hsk. injection Hsk as Hso Hsm.
    split.
    { rewrite Hso. unfold s1. rewrite skill_order_fold. by destruct self. }
    split.
    { intros k. rewrite Hsm. unfold s1. rewrite skills_fold.
      destruct (last_skill_data srows k); [done|]. by destruct self. }
    split.
    { intros b. rewrite (proj1 (order_of_part b _ _ Hac)). unfold s2.
      by rewrite order_of_fold, cleared_order. }
    split.
    { intros b k. rewrite (proj2 (order_of_part b _ _ Hac)). unfold s2.
      rewrite map_of_fold, cleared_map, lookup_empty.
      by destruct (last_data arows k), (decide (bucket_of k = b)). }
    unfold identity_part in I1, I2.
    destruct self, s1, s2; simpl in *; simplify_eq; done.
Qed.

(** The fixture of the skills test: the order of the response is kept. *)
Lemma parse_end_to_end_skills :
  let srows :=
    [JObj [("id", JNum 0); ("name", JStr "Overall"); ("rank", JNum 1);
           ("level", JNum 2277); ("xp", JNum 999999999)];
     JObj [("id", JNum 1); ("name", JStr "Attack"); ("rank", JNum 2);
           ("level", JNum 99); ("xp", JNum 13034431)];
     JObj [("id", JNum 24); ("name", JStr "Sailing"); ("rank", JNum (-1));
           ("level", JNum 1); ("xp", JNum 0)]] in
  let d := [("name", JStr "FixtureUser"); ("skills", JArr srows);
            ("activities", JArr [])] in
  let self :=
    hiscores.set_raw_json (JObj d) (hiscores.new "FixtureUser" client.default) in
  exists self',
    hiscores.parse self = (Ok tt, self')
    /\ hiscores.skill_order self' = ["overall"; "attack"; "sailing"]
    /\ hiscores.skill self' "Attack" (Some "level") JNull = Ok (JNum 99).
Proof.
  intros srows d self.
  destruct (parse_end_to_end self d srows [] eq_refl) as
    (self' & Hrun & Hord & Hsk & _); try reflexivity.
  - discriminate.
  - repeat constructor; eexists _, _; split; reflexivity.
  - constructor.
  - exists self'. split; [exact Hrun|]. split; [exact Hord|].
    unfold hiscores.skill, hiscores._get_bucket.
    change (hiscores.normalize_name "Attack") with "attack".
    rewrite Hsk. reflexivity.
Defined.

(** ** Order lists and dicts agree *)

Section consistency.

Lemma for_each_inv {S A} (I : S -> Prop) (body : A -> M S unit) :
  (forall x s, I s -> I (snd (body x s))) ->
  forall l s, I s -> I (snd (for_each l body s)).
Proof.
  intros Hbody l. induction l as [|x l IH]; intros s Hs; [done|].
  simpl. unfold mbind, M_bind. specialize (Hbody x s Hs).
  destruct (body x s) as [[[]|e] t]; simpl in *; [by apply IH|done].
Qed.

Lemma key_of_entry_of row k fields :
  hiscores.key_of row = Ok k -> exists e, hiscores.entry_of row fields = Ok e.
Proof.
  destruct row as [| | | | |d]; try done. intros _.
  unfold hiscores.entry_of. induction fields as [|f fields [e IH]].
  - by eexists.
  - eexists. cbn [map_result]. rewrite IH. reflexivity.
Qed.

Lemma snoc_insert_ok (order : list string) (m : gmap string dict) k e :
  (forall k', k' ∈ order <-> is_Some (m !! k')) ->
  forall k', k' ∈ (order ++ [k])%list <-> is_Some (<[k := e]> m !! k').
Proof.
  intros H k'. rewrite elem_of_app, list_elem_of_singleton, H.
  destruct (decide (k = k')) as [->|Hne].
  - rewrite lookup_insert_eq. split; [by eexists|by right].
  - rewrite lookup_insert_ne by done. split; [|by left].
    by intros [?|?].
Qed.

Lemma skills_row_ok row s :
  skills_ok s -> skills_ok (snd (hiscores.skills_row row s)).
Proof.
  intros Hs. unfold hiscores.skills_row, mbind, M_bind, lift, modify.
  destruct (hiscores.key_of row) as [k|] eqn:Ek; simpl; [|done].
  destruct (key_of_entry_of row k ["id"; "name"; "rank"; "level"; "xp"] Ek)
    as [e ->]. simpl.
  unfold skills_ok in *. destruct s; simpl in *. by apply snoc_insert_ok.
Qed.

Lemma parse_skills_ok v s : skills_ok (snd (hiscores._parse_skills v s)).
Proof.
  rewrite parse_skills_unfold.
  assert (H0 : skills_ok (cleared_skills s)).
  { intros k. destruct s; simpl. rewrite lookup_empty.
    split; [by intros ?%elem_of_nil|by intros [? ?]]. }
  destruct (py.iter v) as [rows|e]; [|done].
  apply for_each_inv; [apply skills_row_ok|done].
Qed.

Lemma activities_row_ok row s :
  activities_ok s -> activities_ok (snd (hiscores.activities_row row s)).
Proof.
  intros Hs. unfold hiscores.activities_row, mbind, M_bind, lift, modify.
  destruct (hiscores.key_of row) as [k|] eqn:Ek; simpl; [|done].
  destruct (key_of_entry_of row k ["id"; "name"; "rank"; "score"] Ek)
    as [e ->]. simpl.
  unfold activities_ok in *.
  repeat match goal with
         | |- context [if ?c then _ else _] => destruct c
         end;
    intros b; pose proof (Hs b) as Hb; destruct s, b; simpl in *;
    try exact Hb; by apply snoc_insert_ok.
Qed.

Lemma parse_activities_ok v s :
  activities_ok (snd (hiscores._parse_activities v s)).
Proof.
  rewrite parse_activities_unfold.
  assert (H0 : activities_ok (cleared_activities s)).
  { intros b k. destruct s, b; simpl; rewrite lookup_empty;
      (split; [by intros ?%elem_of_nil|by intros [? ?]]). }
  destruct (py.iter v) as [rows|e]; [|done].
  apply for_each_inv; [apply activities_row_ok|done].
Qed.

Lemma skills_ok_part s1 s2 :
  skills_part s1 = skills_part s2 -> skills_ok s1 -> skills_ok s2.
Proof.
  unfold skills_part, skills_ok. intros [= Ho Hm]. by rewrite <- Ho, <- Hm.
Qed.

Lemma activities_ok_part s1 s2 :
  activities_part s1 = activities_part s2 ->
  activities_ok s1 -> activities_ok s2.
Proof.
  intros H Hs b k. destruct (order_of_part b _ _ H) as [Ho Hm].
  rewrite <- Ho, <- Hm. apply Hs.
Qed.

Lemma bucket_iter_ok (order : list string) (m : gmap string dict) :
  (forall k, k ∈ order -> is_Some (m !! k)) ->
  exists l,
    hiscores.bucket_iter order m = Ok l
    /\ map fst l = order
    /\ Forall (fun p => m !! fst p = Some (snd p)) l.
Proof.
  unfold hiscores.bucket_iter. induction order as [|k order IH]; intros H.
  - by exists [].
  - destruct IH as (l & Hl & Hf & Hall).
    { intros k' Hk'. apply H. by right. }
    destruct (H k) as [e He]; [by left|].
    exists ((k, e) :: l). simpl. rewrite He, Hl. simpl.
    split; [done|]. split; [by rewrite Hf|by constructor].
Qed.

Lemma new_consistent u c : consistent (hiscores.new u c).
Proof.
  split; [intros k|intros b k; destruct b]; simpl;
    rewrite lookup_empty;
    (split; [by intros ?%elem_of_nil|by intros [? ?]]).
Qed.

Lemma fetch_consistent net m self :
  consistent self -> consistent (snd (hiscores.fetch net m self)).
Proof.
  intros Hc. rewrite fetch_unfold.
  destruct (client.fetch_index_lite_json _ _ _ _); [|done].
  destruct Hc as [Hs Ha]. split.
  - intros k. specialize (Hs k). by destruct self.
  - intros b k. specialize (Ha b k). by destruct self, b.
Qed.

Lemma parse_consistent self :
  consistent self -> consistent (snd (hiscores.parse self)).
Proof.
  intros [Hs Ha]. rewrite parse_unfold.
  destruct (negb (py.truthy (hiscores.raw_json self))); [done|].
  destruct (py.get (hiscores.raw_json self) "skills" (JArr [])) as [sk|e];
    [|done].
  pose proof (parse_skills_ok sk self) as Hs1.
  pose proof (proj2 (parse_skills_frame sk self)) as Hf1.
  destruct (hiscores._parse_skills sk self) as [r1 s1]. simpl in *.
  assert (Ha1 : activities_ok s1)
    by (by apply (activities_ok_part self)).
  destruct r1 as [[]|e]; [|done].
  destruct (py.get (hiscores.raw_json s1) "activities" (JArr [])) as [ac|e];
    [|done].
  pose proof (parse_activities_ok ac s1) as Ha2.
  pose proof (parse_activities_frame ac s1) as Hf2.
  destruct (hiscores._parse_activities ac s1) as [r2 s2]. simpl in *.
  assert (Hs2 : skills_ok s2) by (by apply (skills_ok_part s1)).
  destruct r2 as [[]|e]; [|done]. simpl. split.
  - intros k. specialize (Hs2 k). by destruct s2.
  - intros b k. specialize (Ha2 b k). by destruct s2, b.
Qed.

End consistency.

(** The order list and the dict of each of the five pairs hold the same
    keys on a new object, and [fetch] and [parse] keep it so, whatever
    they return or raise.  So it holds on every object reached by
    fetching and parsing. *)
Theorem consistent_preserved
    (net : network) (m : client.modes) (self : hiscores.Hiscores) :
  (forall u c, consistent (hiscores.new u c))
  /\ (consistent self -> consistent (snd (hiscores.fetch net m self)))
  /\ (consistent self -> consistent (snd (hiscores.parse self))).
Proof.
  split; [intros u c; apply new_consistent|].
  split; [apply fetch_consistent|apply parse_consistent].
Qed.

(** After [Decoder().hiscores.get] has fetched the empty object, with
    the parse that raises, the pairs agree. *)
Lemma consistent_preserved_api :
  let net : network := fun _ => Response 200 (Some (JObj [])) in
  let got := decoder.hiscores_get net decoder.new "FixtureUser" true true
               client.normal in
  fst got = Raise ValueError /\ consistent (snd got).
Proof.
  intros net got. split; [reflexivity|].
  set (s0 := hiscores.new "FixtureUser" client.default).
  pose proof (proj1 (consistent_preserved net client.normal s0)
                "FixtureUser" client.default) as H0.
  pose proof (proj1 (proj2 (consistent_preserved net client.normal s0)) H0)
    as H1.
  exact (proj2 (proj2 (consistent_preserved net client.normal
                         (snd (hiscores.fetch net client.normal s0)))) H1).
Defined.

(** ** Iteration and lookup after a parse *)

(** On an object whose order lists and dicts agree, each of the five
    generators yields, without raising, one (key, entry) pair per item
    of its order list, in that order, each entry being the one its dict
    holds under the key. *)
Theorem iter_in_order (b : option bucket) (self : hiscores.Hiscores) :
  consistent self ->
  exists l,
    iter_of b self = Ok l
    /\ map fst l = order_of' b self
    /\ Forall (fun p => map_of' b self !! fst p = Some (snd p)) l.
Proof.
  intros [Hs Ha].
  assert (H : forall k, k ∈ order_of' b self -> is_Some (map_of' b self !! k)).
  { intros k. destruct b as [b|]; simpl; [apply Ha|apply Hs]. }
  destruct (bucket_iter_ok _ _ H) as (l & Hl & Hf & Hall).
  exists l. split; [|done]. by destruct b as [[]|].
Qed.

(** The bosses of the fixture come out in the order of the response. *)
Lemma iter_in_order_bosses :
  let body :=
    JObj [("skills", JArr []);
          ("activities",
           JArr [JObj [("name", JStr "Zulrah"); ("score", JNum 55)];
                 JObj [("name", JStr "Clue Scrolls (all)"); ("score", JNum 1)];
                 JObj [("name", JStr "Vorkath"); ("score", JNum 2)]])] in
  let self :=
    snd (hiscores.parse
           (hiscores.set_raw_json body
              (hiscores.new "FixtureUser" client.default))) in
  consistent self
  /\ exists l, hiscores.bosses_iter self = Ok l
               /\ map fst l = ["zulrah"; "vorkath"].
Proof.
  intros body self.
  assert (Hc : consistent self).
  { unfold self. apply parse_consistent.
    split; [intros k|intros b k; destruct b]; simpl; rewrite lookup_empty;
      (split; [by intros ?%elem_of_nil|by intros [? ?]]). }
  split; [exact Hc|].
  destruct (iter_in_order (Some Boss) self Hc) as (l & Hl & Hf & _).
  exists l. split; [exact Hl|]. rewrite Hf. reflexivity.
Defined.

Section lookup_facts.

Lemma last_data_app rows row post k :
  row_key row = k ->
  Forall (fun r => row_key r <> k) post ->
  last_data (rows ++ row :: post) k = Some (row_data row).
Proof.
  intros Hk. induction post as [|r post IH] using rev_ind; intros Hpost.
  - rewrite last_data_snoc. by rewrite decide_True.
  - apply Forall_app in Hpost as [Hpost Hr].
    inversion Hr as [|? ? Hr' _]; subst.
    replace (rows ++ row :: post ++ [r])%list
      with ((rows ++ row :: post) ++ [r])%list by (by rewrite <- app_assoc).
    rewrite last_data_snoc, decide_False by done. by apply IH.
Qed.

Lemma row_ok_name d n :
  py.dict_get d "name" = Some (JStr n) ->
  row_key (JObj d) = hiscores.normalize_name n.
Proof. intros H. unfold row_key, hiscores.key_of. simpl. by rewrite H. Qed.

Lemma call_accessor_of b self key field default :
  call (accessor_of b) self key field default
  = hiscores._get_bucket (map_of b self) key field default.
Proof. by destruct b. Qed.

End lookup_facts.

(** After [_parse_activities] on readable rows, the display name of a
    row finds, through the accessor of the bucket of its key, the entry
    of that row when no later row has the same key, and the four fields
    the row gave; through the accessors of the other three buckets it
    finds nothing: they raise [KeyError] when no default is given. *)
Theorem parse_then_access
    (self : hiscores.Hiscores) (pre post : list json) (d : dict) (n : string)
    (default : json) :
  Forall row_ok (pre ++ JObj d :: post) ->
  py.dict_get d "name" = Some (JStr n) ->
  Forall (fun r => row_key r <> hiscores.normalize_name n) post ->
  let self' :=
    snd (hiscores._parse_activities (JArr (pre ++ JObj d :: post)) self) in
  let b := bucket_of (hiscores.normalize_name n) in
  call (accessor_of b) self' n None default = Ok (JObj (row_data (JObj d)))
  /\ (forall f,
        f ∈ ["id"; "name"; "rank"; "score"] ->
        call (accessor_of b) self' n (Some f) default
        = py.get (JObj d) f JNull)
  /\ (forall b' field,
        b' <> b -> call (accessor_of b') self' n field JNull = Raise KeyError).
Proof.
  intros Hok Hn Hpost self' b.
  assert (Hmap : forall b' k,
    map_of b' self' !! k
    = if decide (bucket_of k = b') then last_data (pre ++ JObj d :: post) k
      else None).
  { intros b' k. unfold self'. rewrite (parse_activities_run _ _ Hok). simpl.
    rewrite map_of_fold, cleared_map, lookup_empty.
    by destruct (last_data _ k), (decide (bucket_of k = b')). }
  pose proof (last_data_app pre (JObj d) post _ (row_ok_name d n Hn) Hpost)
    as Hlast.
  split; [|split].
  - rewrite call_accessor_of. unfold hiscores._get_bucket.
    by rewrite Hmap, decide_True, Hlast.
  - intros f Hf. rewrite call_accessor_of. unfold hiscores._get_bucket.
    rewrite Hmap, decide_True, Hlast by done.
    unfold row_data. simpl.
    repeat (apply elem_of_cons in Hf as [->|Hf]; [by destruct (py.dict_get d _)|]).
    by apply elem_of_nil in Hf.
  - intros b' field Hb. rewrite call_accessor_of. unfold hiscores._get_bucket.
    rewrite Hmap, decide_False; [done|]. by intros <-.
Qed.

(** The fixture of the API test: Zulrah is a boss with score 55. *)
Lemma parse_then_access_zulrah :
  let zulrah := [("id", JNum 87); ("name", JStr "Zulrah"); ("rank", JNum 100);
                 ("score", JNum 55)] in
  let pre := [JObj [("id", JNum 0); ("name", JStr "League Points");
                    ("rank", JNum (-1)); ("score", JNum 10)]] in
  let self' :=
    snd (hiscores._parse_activities (JArr (pre ++ [JObj zulrah]))
           (hiscores.new "FixtureUser" client.default)) in
  hiscores.boss self' "Zulrah" (Some "score") JNull = Ok (JNum 55)
  /\ hiscores.activity self' "Zulrah" (Some "score") JNull = Raise KeyError.
Proof.
  intros zulrah pre self'.
  destruct (parse_then_access (hiscores.new "FixtureUser" client.default)
              pre [] zulrah "Zulrah" JNull) as (_ & Hf & Hother).
  - repeat constructor; eexists _, _; split; reflexivity.
  - reflexivity.
  - constructor.
  - split.
    + apply (Hf "score"). set_solver.
    + apply (Hother Activity (Some "score")). discriminate.
Defined.

(** When the normalized key is in the bucket, an accessor never raises:
    with no field it returns the whole entry, with a field of the entry
    it returns its value, and with a field the entry does not have it
    returns the default, [None] when none is given.  The four score
    shortcuts are the accessors at the field [score]. *)
Theorem accessor_present
    (a : accessor) (self : hiscores.Hiscores) (key : string) (e : dict)
    (default : json) :
  bucket_for a self !! hiscores.normalize_name key = Some e ->
  call a self key None default = Ok (JObj e)
  /\ (forall f v, py.dict_get e f = Some v ->
                  call a self key (Some f) default = Ok v)
  /\ (forall f, py.dict_get e f = None ->
                call a self key (Some f) default = Ok default)
  /\ hiscores.clue_score self key default = call AClue self key (Some "score") default
  /\ hiscores.pvp_score self key default = call APvp self key (Some "score") default
  /\ hiscores.activity_score self key default
     = call AActivity self key (Some "score") default
  /\ hiscores.boss_score self key default = call ABoss self key (Some "score") default.
Proof.
  intros He.
  assert (Hcall : forall field,
    call a self key field default
    = match field with
      | None => Ok (JObj e)
      | Some f => py.get (JObj e) f default
      end).
  { intros field. rewrite call_get_bucket. unfold hiscores._get_bucket.
    by rewrite He. }
  split; [apply Hcall|].
  split; [intros f v Hf; rewrite Hcall; unfold py.get; by rewrite Hf|].
  split; [intros f Hf; rewrite Hcall; unfold py.get; by rewrite Hf|done].
Qed.

(** A stored boss entry without a score: asking for the score gives
    [None], not an error. *)
Lemma accessor_present_no_score :
  let self :=
    hiscores.set_bosses {[ "zulrah" := [("id", JNum 87)] ]}
      (hiscores.new "FixtureUser" client.default) in
  hiscores.boss self "Zulrah" None JNull = Ok (JObj [("id", JNum 87)])
  /\ hiscores.boss self "Zulrah" (Some "id") JNull = Ok (JNum 87)
  /\ hiscores.boss_score self "Zulrah" JNull = Ok JNull.
Proof.
  intros self.
  destruct (accessor_present ABoss self "Zulrah" [("id", JNum 87)] JNull
              eq_refl) as (H1 & H2 & H3 & _ & _ & _ & H7).
  split; [exact H1|]. split; [by apply H2|].
  rewrite H7. by apply H3.
Defined.

(** ** Lookup, latest and price *)

Section lookup_items.

Lemma find_result_ok {A} (f : A -> result bool) (g : A -> bool) (l : list A) :
  Forall (fun x => f x = Ok (g x)) l ->
  find_result f l = Ok (List.find g l).
Proof.
  induction 1 as [|x l Hx Hl IH]; [done|].
  simpl. rewrite Hx. simpl. by destruct (g x).
Qed.

Lemma find_none_forall {A} (g : A -> bool) (l : list A) :
  List.find g l = None <-> Forall (fun x => g x = false) l.
Proof.
  split.
  - intros H. apply List.Forall_forall. intros x Hx.
    by apply (List.find_none g l H).
  - induction 1 as [|x l Hx Hl IH]; [done|]. simpl. by rewrite Hx.
Qed.

(** [lookup] by id on cached data, step by step. *)
Lemma lookup_id_cached net self rows prices n :
  cached self rows prices ->
  items.lookup net (inl n) self
  = if py.dict_has prices (py.str (JNum n)) then
      match List.find (fun it => py.eq_int (item_id it) n)
                      (tradeable_subset rows prices) with
      | Some it => (Ok it, self)
      | None => (Raise KeyError, self)
      end
    else (Raise KeyError, self).
Proof.
  intros Hc. unfold items.lookup, mbind, M_bind.
  rewrite (tradeable_mapping_cached _ _ _ _ Hc).
  destruct Hc as (_ & Hobj & Hl).
  rewrite (latest_index_cached _ _ _ Hl).
  destruct (py.dict_has prices (py.str (JNum n))); [|done]. simpl.
  unfold lift.
  rewrite (find_result_ok _ (fun it => py.eq_int (item_id it) n)).
  - by destruct (List.find _ _).
  - eapply Forall_impl; [exact (tradeable_subset_obj rows prices Hobj)|].
    by intros it [d ->].
Qed.

(** [lookup] by name on cached data, step by step. *)
Lemma lookup_name_cached net self rows prices name :
  cached self rows prices ->
  items.lookup net (inr name) self
  = match List.find
            (fun it => String.eqb (pystr.lower (item_name it))
                                  (search_key self name))
            (tradeable_subset rows prices) with
    | Some it => (Ok it, self)
    | None => (Raise KeyError, self)
    end.
Proof.
  intros Hc. unfold items.lookup, mbind, M_bind, read, lift.
  rewrite (tradeable_mapping_cached _ _ _ _ Hc).
  destruct Hc as (_ & Hobj & _). cbn beta iota.
  rewrite (find_result_ok _
             (fun it => String.eqb (pystr.lower (item_name it))
                                   (search_key self name))).
  - by destruct (List.find _ _).
  - eapply Forall_impl; [exact (tradeable_subset_obj rows prices Hobj)|].
    by intros it [d ->].
Qed.

(** [latest] on a cached price map, step by step. *)
Lemma latest_cached net self prices n :
  items._latest_cache self = JObj prices ->
  items.latest net n self
  = match py.dict_get prices (py.str (JNum n)) with
    | Some v => if py.is_none v then (Raise KeyError, self) else (Ok v, self)
    | None => (Raise KeyError, self)
    end.
Proof.
  intros Hl. unfold items.latest, mbind, M_bind.
  rewrite (latest_index_cached _ _ _ Hl).
  destruct (py.dict_get prices (py.str (JNum n))) as [v|]; [|done].
  simpl. by destruct (py.is_none v).
Qed.

End lookup_items.

(** [lookup] by id on cached data leaves the client as it is and
    returns or raises [KeyError], nothing else.  What it returns is the
    first tradeable mapping row whose id equals the number, and the
    number as a string is a key of the price map; it raises exactly when
    the number has no price or no tradeable row has that id. *)
Theorem lookup_by_id
    (net : network) (self : items.ItemsClient) (rows : list json)
    (prices : dict) (n : Z) :
  cached self rows prices ->
  snd (items.lookup net (inl n) self) = self
  /\ (forall it,
        fst (items.lookup net (inl n) self) = Ok it ->
        In it rows
        /\ tradeable prices it = true
        /\ py.eq_int (item_id it) n = true
        /\ py.dict_has prices (py.str (JNum n)) = true
        /\ List.find (fun it => py.eq_int (item_id it) n)
                     (tradeable_subset rows prices) = Some it)
  /\ (fst (items.lookup net (inl n) self) = Raise KeyError
      <-> py.dict_has prices (py.str (JNum n)) = false
          \/ Forall (fun it => py.eq_int (item_id it) n = false)
                    (tradeable_subset rows prices))
  /\ (forall e, fst (items.lookup net (inl n) self) = Raise e -> e = KeyError).
Proof.
  intros Hc. rewrite (lookup_id_cached _ _ _ _ _ Hc).
  destruct (py.dict_has prices (py.str (JNum n))) eqn:Eh.
  - destruct (List.find _ _) as [it|] eqn:Ef; simpl.
    + split; [done|]. split.
      * intros ? [= <-]. pose proof (List.find_some _ _ Ef) as [Hin Hid].
        apply List.filter_In in Hin as [Hin Ht]. done.
      * split; [|by intros e [= <-]].
        split; [done|]. intros [?|Hall]; [done|].
        apply find_none_forall in Hall. by rewrite Hall in Ef.
    + split; [done|]. split; [done|]. split; [|by intros e [= <-]].
      split; [|done]. intros _. right. by apply find_none_forall.
  - simpl. split; [done|]. split; [done|].
    split; [|by intros e [= <-]]. split; [by left|done].
Qed.

(** The whip is found by its id; an id with no price is not. *)
Lemma lookup_by_id_whip :
  let whip := JObj [("id", JNum 4151); ("name", JStr "Abyssal whip")] in
  let demo := JObj [("id", JNum 99999); ("name", JStr "Abyssal demo item")] in
  let prices := [("4151", JObj [("high", JNum 1); ("low", JNum 1)])] in
  let self :=
    items.set_latest_cache (JObj prices)
      (items.set_mapping_cache (JArr [whip; demo]) items.new) in
  let net : network := fun _ => NoResponse in
  items.lookup net (inl 4151) self = (Ok whip, self)
  /\ fst (items.lookup net (inl 99999) self) = Raise KeyError.
Proof.
  intros whip demo prices self net.
  assert (Hc : cached self [whip; demo] prices).
  { split; [reflexivity|]. split; [|reflexivity].
    repeat constructor; eexists; reflexivity. }
  split; [reflexivity|].
  apply (proj1 (proj2 (proj2 (lookup_by_id net self _ _ 99999 Hc)))).
  by left.
Defined.

(** [lookup] by name on cached data leaves the client as it is and
    returns the first tradeable row whose lower-case name equals the
    name after alias substitution, stripping and lower-casing, or raises
    [KeyError] when there is none. *)
Theorem lookup_by_name
    (net : network) (self : items.ItemsClient) (rows : list json)
    (prices : dict) (name : string) :
  cached self rows prices ->
  snd (items.lookup net (inr name) self) = self
  /\ (forall it,
        fst (items.lookup net (inr name) self) = Ok it ->
        In it rows
        /\ tradeable prices it = true
        /\ pystr.lower (item_name it) = search_key self name)
  /\ (fst (items.lookup net (inr name) self) = Raise KeyError
      <-> Forall (fun it => pystr.lower (item_name it) <> search_key self name)
                 (tradeable_subset rows prices))
  /\ (forall e, fst (items.lookup net (inr name) self) = Raise e -> e = KeyError).
Proof.
  intros Hc. rewrite (lookup_name_cached _ _ _ _ _ Hc).
  destruct (List.find _ _) as [it|] eqn:Ef; simpl.
  - split; [done|]. pose proof (List.find_some _ _ Ef) as [Hin Hid].
    apply String.eqb_eq in Hid.
    split.
    + intros ? [= <-]. by apply List.filter_In in Hin as [Hin Ht].
    + split; [|by intros e [= <-]]. split; [done|]. intros Hall.
      by apply (proj1 (List.Forall_forall _ _) Hall it Hin) in Hid.
  - split; [done|]. split; [done|]. split; [|by intros e [= <-]].
    split; [|done]. intros _. apply find_none_forall in Ef.
    eapply Forall_impl; [exact Ef|]. intros it Hit. by apply String.eqb_neq.
Qed.

(** The boots are found by a name in another case and with spaces
    around it. *)
Lemma lookup_by_name_boots :
  let boots := JObj [("id", JNum 11840); ("name", JStr "Dragon boots")] in
  let prices := [("11840", JObj [("high", JNum 1); ("low", JNum 1)])] in
  let self :=
    items.set_latest_cache (JObj prices)
      (items.set_mapping_cache (JArr [boots]) items.new) in
  let net : network := fun _ => NoResponse in
  items.lookup net (inr " DRAGON Boots ") self = (Ok boots, self)
  /\ fst (items.lookup net (inr "Dragon") self) = Raise KeyError.
Proof.
  intros boots prices self net.
  assert (Hc : cached self [boots] prices).
  { split; [reflexivity|]. split; [|reflexivity].
    repeat constructor; eexists; reflexivity. }
  split; [reflexivity|].
  apply (proj1 (proj2 (proj2 (lookup_by_name net self _ _ "Dragon" Hc)))).
  repeat constructor. discriminate.
Defined.

(** [latest] on a cached price map leaves the client as it is; it
    returns the entry kept under the id as a string when there is one
    and it is not [None], and raises [KeyError] when the id has no entry
    or its entry is [None]. *)
Theorem latest_entry
    (net : network) (self : items.ItemsClient) (prices : dict) (n : Z) :
  items._latest_cache self = JObj prices ->
  snd (items.latest net n self) = self
  /\ (forall v,
        fst (items.latest net n self) = Ok v
        <-> py.dict_get prices (py.str (JNum n)) = Some v /\ v <> JNull)
  /\ (fst (items.latest net n self) = Raise KeyError
      <-> py.dict_get prices (py.str (JNum n)) = None
          \/ py.dict_get prices (py.str (JNum n)) = Some JNull).
Proof.
  intros Hl. rewrite (latest_cached _ _ _ _ Hl).
  destruct (py.dict_get prices (py.str (JNum n))) as [v|]; simpl.
  - destruct (py.is_none v) eqn:En; simpl.
    + assert (v = JNull) as -> by (by destruct v).
      split; [done|]. split.
      * intros w. split; [done|]. by intros [[= <-] ?].
      * split; [by right|done].
    + assert (Hv : v <> JNull) by (by intros ->).
      split; [done|]. split.
      * intros w. split; [by intros [= <-]|by intros [[= <-] _]].
      * split; [done|]. intros [?|[= ?]]; done.
  - split; [done|]. split; [intros v; split; [done|by intros [? ?]]|].
    split; [by left|done].
Qed.

(** The price of the whip is returned; a price that is null is a
    missing price. *)
Lemma latest_entry_whip :
  let quote := JObj [("high", JNum 2300000); ("low", JNum 2200000)] in
  let prices := [("4151", quote); ("2", JNull)] in
  let self := items.set_latest_cache (JObj prices) items.new in
  let net : network := fun _ => NoResponse in
  fst (items.latest net 4151 self) = Ok quote
  /\ fst (items.latest net 2 self) = Raise KeyError
  /\ fst (items.latest net 3 self) = Raise KeyError.
Proof.
  intros quote prices self net.
  pose proof (latest_entry net self prices) as H.
  split; [|split].
  - apply (proj1 (proj2 (H 4151 eq_refl))). by split.
  - apply (proj2 (proj2 (H 2 eq_refl))). by right.
  - apply (proj2 (proj2 (H 3 eq_refl))). by left.
Defined.

(** [price] on cached data leaves the client as it is and returns or
    raises [KeyError], nothing else.  What it returns is the dict of
    [meta], a tradeable mapping row whose id equals the number, and
    [price], the entry of the price map under the number as a string,
    which is not [None].  When that entry is [None] it raises, although
    the row is tradeable. *)
Theorem price_bundle
    (net : network) (self : items.ItemsClient) (rows : list json)
    (prices : dict) (n : Z) :
  cached self rows prices ->
  snd (items.price net n self) = self
  /\ (forall r,
        fst (items.price net n self) = Ok r ->
        exists meta quote,
          r = JObj [("meta", meta); ("price", quote)]
          /\ In meta rows
          /\ py.eq_int (item_id meta) n = true
          /\ py.dict_get prices (py.str (JNum n)) = Some quote
          /\ quote <> JNull
          /\ items.lookup net (inl n) self = (Ok meta, self)
          /\ items.latest net n self = (Ok quote, self))
  /\ (forall e, fst (items.price net n self) = Raise e -> e = KeyError)
  /\ (py.dict_get prices (py.str (JNum n)) = Some JNull ->
      fst (items.price net n self) = Raise KeyError).
Proof.
  intros Hc. pose proof Hc as (_ & _ & Hl).
  pose proof (lookup_id_cached net _ _ _ n Hc) as Hlook.
  pose proof (latest_cached net _ _ n Hl) as Hlat.
  unfold items.price, mbind, M_bind. rewrite Hlook.
  unfold py.dict_has in *.
  destruct (py.dict_get prices (py.str (JNum n))) as [q|] eqn:Eq.
  2:{ simpl. split; [done|]. split; [done|]. split; [by intros e [= <-]|done]. }
  destruct (List.find _ _) as [it|] eqn:Ef.
  2:{ simpl. split; [done|]. split; [done|]. split; [by intros e [= <-]|done]. }
  pose proof (List.find_some _ _ Ef) as [Hin Hid].
  apply List.filter_In in Hin as [Hin Ht].
  rewrite Hlat.
  destruct (py.is_none q) eqn:En; simpl.
  - split; [done|]. split; [done|]. split; [by intros e [= <-]|done].
  - split; [done|]. split.
    + intros r [= <-]. exists it, q. repeat split; try done.
      intros ->. discriminate En.
    + split; [by intros e [= <-]|]. intros [= ->]. discriminate En.
Qed.

(** The bundle of the whip. *)
Lemma price_bundle_whip :
  let whip := JObj [("id", JNum 4151); ("name", JStr "Abyssal whip")] in
  let quote := JObj [("high", JNum 2300000); ("low", JNum 2200000)] in
  let prices := [("4151", quote)] in
  let self :=
    items.set_latest_cache (JObj prices)
      (items.set_mapping_cache (JArr [whip]) items.new) in
  let net : network := fun _ => NoResponse in
  items.price net 4151 self = (Ok (JObj [("meta", whip); ("price", quote)]), self)
  /\ snd (items.price net 1 self) = self.
Proof.
  intros whip quote prices self net.
  assert (Hc : cached self [whip] prices).
  { split; [reflexivity|]. split; [|reflexivity].
    repeat constructor; eexists; reflexivity. }
  split; [reflexivity|].
  apply (proj1 (price_bundle net self [whip] prices 1 Hc)).
Defined.

(** ** Queries *)

Section query_facts.
Import pystr.

Lemma lstrip_idem s : lstrip (lstrip s) = lstrip s.
Proof.
  induction s as [|c s IH]; simpl; [done|].
  destruct (is_space c) eqn:E; [done|]. simpl. by rewrite E.
Qed.

Lemma rstrip_idem s : rstrip (rstrip s) = rstrip s.
Proof.
  induction s as [|c s IH]; simpl; [done|].
  destruct (rstrip s) as [|c' r] eqn:Er.
  - destruct (is_space c) eqn:E; [done|]. simpl. by rewrite E.
  - simpl in *. by rewrite IH.
Qed.

Lemma rstrip_lstrip t : rstrip t = t -> rstrip (lstrip t) = lstrip t.
Proof.
  induction t as [|c t IH]; [done|]. intros H.
  simpl. destruct (is_space c) eqn:E; [|done].
  apply IH. simpl in H. rewrite E in H.
  destruct (rstrip t) as [|c' r]; [done|]. by injection H.
Qed.

Lemma strip_idem s : strip (strip s) = strip s.
Proof.
  unfold strip. rewrite (rstrip_lstrip (rstrip s)) by apply rstrip_idem.
  apply lstrip_idem.
Qed.

Lemma strip_lower s : strip (lower s) = lower (strip s).
Proof. unfold strip. by rewrite rstrip_lower, lstrip_lower. Qed.

Lemma search_key_lower self q : search_key self (lower q) = search_key self q.
Proof.
  unfold search_key, items._apply_alias.
  rewrite strip_lower, lower_lower.
  destruct (items.aliases self !! lower (strip q)); simpl; [done|].
  by rewrite strip_lower, lower_lower.
Qed.

Lemma search_key_strip self q : search_key self (strip q) = search_key self q.
Proof.
  unfold search_key, items._apply_alias. rewrite strip_idem.
  destruct (items.aliases self !! lower (strip q)); simpl; [done|].
  by rewrite strip_idem.
Qed.

(** A search that is not fuzzy sees its query through [search_key]. *)
Lemma search_plain_unfold net rapidfuzz query limit cutoff self :
  items.search net rapidfuzz query limit false cutoff self
  = match items.tradeable_mapping net false self with
    | (Raise e, s1) => (Raise e, s1)
    | (Ok its, s1) =>
        match filter_result
                (fun it => s ← items.name_of it;
                           Ok (contains (search_key self query) (lower s)))
                its with
        | Raise e => (Raise e, s1)
        | Ok hits =>
            match map_result (fun it => s ← items.name_of it; Ok (lower s))
                             hits with
            | Raise e => (Raise e, s1)
            | Ok keys =>
                let hits := map snd (py.sort_keyed (zip keys hits)) in
                (Ok (match limit with
                     | Some n =>
                         if py.truthy (JNum n) then py.slice_to hits n else hits
                     | None => hits
                     end), s1)
            end
        end
    end.
Proof.
  unfold items.search, mbind, M_bind, read, lift. cbn beta iota.
  destruct (items.tradeable_mapping net false self) as [[its|e] s1]; [|done].
  unfold search_key.
  destruct (filter_result _ its) as [hits|e]; [|done].
  destruct (map_result _ hits) as [keys|e]; [|done].
  cbn zeta. by rewrite orb_true_r.
Qed.

Lemma lookup_name_unfold net name self :
  items.lookup net (inr name) self
  = match items.tradeable_mapping net false self with
    | (Raise e, s1) => (Raise e, s1)
    | (Ok its, s1) =>
        match find_result
                (fun it => s ← items.name_of it;
                           Ok (String.eqb (lower s) (search_key s1 name)))
                its with
        | Raise e => (Raise e, s1)
        | Ok (Some it) => (Ok it, s1)
        | Ok None => (Raise KeyError, s1)
        end
    end.
Proof.
  unfold items.lookup, mbind, M_bind, read, lift. cbn beta iota.
  destruct (items.tradeable_mapping net false self) as [[its|e] s1]; [|done].
  unfold search_key. by destruct (find_result _ its) as [[it|]|e].
Qed.

End query_facts.

(** The case of a query and the white space around it do not count:
    for every client, whatever its caches hold and whatever the network
    answers, [lookup] by name and the search that is not fuzzy return
    for the query in lower case, and for the stripped query, what they
    return for the query itself. *)
Theorem query_case_and_space
    (net : network) (rapidfuzz : option items.Rapidfuzz)
    (self : items.ItemsClient) (query : string) (limit : option Z)
    (cutoff : Z) :
  items.lookup net (inr (pystr.lower query)) self
  = items.lookup net (inr query) self
  /\ items.lookup net (inr (pystr.strip query)) self
     = items.lookup net (inr query) self
  /\ items.search net rapidfuzz (pystr.lower query) limit false cutoff self
     = items.search net rapidfuzz query limit false cutoff self
  /\ items.search net rapidfuzz (pystr.strip query) limit false cutoff self
     = items.search net rapidfuzz query limit false cutoff self.
Proof.
  rewrite !lookup_name_unfold, !search_plain_unfold.
  rewrite search_key_lower, search_key_strip.
  split; [|split; [|done]];
    destruct (items.tradeable_mapping net false self) as [[its|e] s1];
    try done; by rewrite ?search_key_lower, ?search_key_strip.
Qed.

(** ** Filling the caches *)

Section fill_facts.

Lemma mapping_unfold_due net refresh self :
  py.is_none (items._mapping_cache self) || refresh = true ->
  items.mapping net refresh self
  = match requests_get_json net
            {| req_url := items.base_url self +:+ "/mapping"; req_params := [];
               req_headers := [("User-Agent", items.user_agent self)];
               req_timeout := items.timeout self |} with
    | Raise _ => (Raise FetchError, self)
    | Ok v =>
        match py.iter v with
        | Raise e => (Raise e, items.set_mapping_cache v self)
        | Ok rows =>
            match map_result items.name_of rows with
            | Raise e => (Raise e, items.set_mapping_cache v self)
            | Ok names =>
                (Ok rows,
                 items.set_names_cache (Some names)
                   (items.set_mapping_cache v self))
            end
        end
    end.
Proof.
  intros Hdue.
  unfold items.mapping, mbind, M_bind, read, lift, modify. cbn beta iota.
  rewrite Hdue, get_unfold.
  destruct (requests_get_json _ _) as [v|e]; [|done].
  destruct (py.iter v) as [rows|e] eqn:Ei; [|done].
  destruct (map_result items.name_of rows) as [names|e]; [|done].
  cbn. destruct self; cbn. by rewrite Ei.
Qed.

Lemma latest_index_unfold_due net refresh self :
  py.is_none (items._latest_cache self) || refresh = true ->
  items.latest_index net refresh self
  = match requests_get_json net
            {| req_url := items.base_url self +:+ "/latest"; req_params := [];
               req_headers := [("User-Agent", items.user_agent self)];
               req_timeout := items.timeout self |} with
    | Raise _ => (Raise FetchError, self)
    | Ok data =>
        match py.get data "data" (JObj []) with
        | Raise e => (Raise e, self)
        | Ok d =>
            let kept := if py.truthy d then d else JObj [] in
            (py.to_dict kept, items.set_latest_cache kept self)
        end
    end.
Proof.
  intros Hdue.
  unfold items.latest_index, mbind, M_bind, read, lift, modify. cbn beta iota.
  rewrite Hdue, get_unfold.
  destruct (requests_get_json _ _) as [v|e]; [|done].
  destruct (py.get v "data" (JObj [])) as [d|e]; [|done].
  cbn. destruct self; cbn. by destruct (py.to_dict _).
Qed.

End fill_facts.

Section fill_more.

Lemma name_of_not_obj rows :
  ~ Forall is_obj rows -> map_result items.name_of rows = Raise AttributeError.
Proof.
  induction rows as [|x rows IH]; intros H.
  - exfalso. apply H. constructor.
  - simpl. destruct x as [| | | | |d]; try done. simpl.
    rewrite IH; [done|]. intros Hr. apply H. constructor; [by eexists|done].
Qed.

Lemma name_of_objs rows :
  Forall is_obj rows ->
  map_result items.name_of rows = Ok (map item_name rows).
Proof.
  intros H. apply map_result_ok. eapply Forall_impl; [exact H|].
  by intros it [d ->].
Qed.

End fill_more.

(** A fetch of the mapping that is due (the cache is [None], or a
    refresh is asked) and whose response is accepted with a list of
    objects as its body returns that list and replaces both caches
    wholesale: the mapping cache is the body, the names cache is the
    names of its rows in the same order, and nothing is kept of what
    the caches held. *)
Theorem mapping_fill
    (net : network) (refresh : bool) (self : items.ItemsClient)
    (rows : list json) :
  py.is_none (items._mapping_cache self) || refresh = true ->
  accepted (net (items_request self "/mapping")) (JArr rows) ->
  Forall is_obj rows ->
  items.mapping net refresh self
  = (Ok rows,
     items.set_names_cache (Some (map item_name rows))
       (items.set_mapping_cache (JArr rows) self))
  /\ (forall old_rows old_names,
        items.mapping net true
          (items.set_names_cache old_names
             (items.set_mapping_cache old_rows self))
        = (Ok rows,
           items.set_names_cache (Some (map item_name rows))
             (items.set_mapping_cache (JArr rows) self))).
Proof.
  intros Hdue Hacc Hobj.
  apply requests_get_json_ok in Hacc. unfold items_request in Hacc.
  split.
  - rewrite (mapping_unfold_due _ _ _ Hdue), Hacc. simpl.
    by rewrite (name_of_objs _ Hobj).
  - intros old_rows old_names.
    rewrite mapping_unfold_due by apply orb_true_r.
    assert (Hreq : forall x y,
      items_request (items.set_names_cache y (items.set_mapping_cache x self))
                    "/mapping"
      = items_request self "/mapping") by (by destruct self).
    unfold items_request in Hreq. rewrite Hreq, Hacc. simpl.
    rewrite (name_of_objs _ Hobj). by destruct self.
Qed.

(** The first call on a new client fetches and caches. *)
Lemma mapping_fill_first :
  let whip := JObj [("id", JNum 4151); ("name", JStr "Abyssal whip")] in
  let net : network := fun _ => Response 200 (Some (JArr [whip])) in
  items.mapping net false items.new
  = (Ok [whip],
     items.set_names_cache (Some ["Abyssal whip"])
       (items.set_mapping_cache (JArr [whip]) items.new)).
Proof.
  intros whip net.
  assert (Hacc : accepted (net (items_request items.new "/mapping"))
                          (JArr [whip])).
  { exists 200. split; [reflexivity|lia]. }
  assert (Hobj : Forall is_obj [whip]).
  { repeat constructor. by eexists. }
  exact (proj1 (mapping_fill net false items.new [whip] eq_refl Hacc Hobj)).
Defined.

(** The mapping cache is assigned before the body is looked at.  When a
    fetch that is due is answered by a body that is neither [None] nor
    iterable, [mapping] raises [TypeError] and keeps that body as its
    cache, and every later call without refresh raises [TypeError]
    without a request.  When the body is a list with a row that is not
    an object, [mapping] raises [AttributeError] and keeps the list, and
    every later call without refresh returns that list. *)
Theorem mapping_bad_body
    (net : network) (refresh : bool) (self : items.ItemsClient) (v : json) :
  py.is_none (items._mapping_cache self) || refresh = true ->
  accepted (net (items_request self "/mapping")) v ->
  (py.iter v = Raise TypeError -> v <> JNull ->
   items.mapping net refresh self
   = (Raise TypeError, items.set_mapping_cache v self)
   /\ forall net',
        items.mapping net' false (items.set_mapping_cache v self)
        = (Raise TypeError, items.set_mapping_cache v self))
  /\ (forall rows, v = JArr rows -> ~ Forall is_obj rows ->
      items.mapping net refresh self
      = (Raise AttributeError, items.set_mapping_cache v self)
      /\ forall net',
           items.mapping net' false (items.set_mapping_cache v self)
           = (Ok rows, items.set_mapping_cache v self)).
Proof.
  intros Hdue Hacc.
  apply requests_get_json_ok in Hacc. unfold items_request in Hacc.
  split.
  - intros Hi Hv. split.
    + by rewrite (mapping_unfold_due _ _ _ Hdue), Hacc, Hi.
    + intros net'.
      unfold items.mapping, mbind, M_bind, read, lift. cbn beta iota.
      assert (items._mapping_cache (items.set_mapping_cache v self) = v)
        as -> by (by destruct self).
      assert (py.is_none v = false) as -> by (by destruct v).
      cbn. assert (items._mapping_cache (items.set_mapping_cache v self) = v)
        as -> by (by destruct self).
      by rewrite Hi.
  - intros rows -> Hbad. split.
    + rewrite (mapping_unfold_due _ _ _ Hdue), Hacc. simpl.
      by rewrite (name_of_not_obj _ Hbad).
    + intros net'. apply mapping_cached. by destruct self.
Qed.

(** A body that is the number 5 stays in the cache. *)
Lemma mapping_bad_body_number :
  let net : network := fun _ => Response 200 (Some (JNum 5)) in
  let offline : network := fun _ => NoResponse in
  items.mapping net false items.new
  = (Raise TypeError, items.set_mapping_cache (JNum 5) items.new)
  /\ items.mapping offline false (items.set_mapping_cache (JNum 5) items.new)
     = (Raise TypeError, items.set_mapping_cache (JNum 5) items.new).
Proof.
  intros net offline.
  assert (Hacc : accepted (net (items_request items.new "/mapping")) (JNum 5)).
  { exists 200. split; [reflexivity|lia]. }
  assert (Hv : JNum 5 <> JNull) by discriminate.
  destruct (proj1 (mapping_bad_body net false items.new (JNum 5) eq_refl Hacc)
              eq_refl Hv) as [H1 H2].
  split; [exact H1|apply H2].
Defined.

(** A fetch of the prices that is due and whose response is accepted
    with an object as its body caches and returns the dict under
    [data]; when the field is missing, or holds [None] or another
    value that counts as false, it caches and returns the empty dict.
    When the body is not an object it raises [AttributeError] and
    leaves the cache alone. *)
Theorem latest_index_fill
    (net : network) (refresh : bool) (self : items.ItemsClient) (v : json) :
  py.is_none (items._latest_cache self) || refresh = true ->
  accepted (net (items_request self "/latest")) v ->
  (forall d prices,
     v = JObj d -> py.dict_get d "data" = Some (JObj prices) ->
     items.latest_index net refresh self
     = (Ok prices, items.set_latest_cache (JObj prices) self))
  /\ (forall d,
        v = JObj d ->
        py.truthy (default JNull (py.dict_get d "data")) = false ->
        items.latest_index net refresh self
        = (Ok [], items.set_latest_cache (JObj []) self))
  /\ (~ is_obj v ->
      items.latest_index net refresh self = (Raise AttributeError, self)).
Proof.
  intros Hdue Hacc.
  apply requests_get_json_ok in Hacc. unfold items_request in Hacc.
  rewrite (latest_index_unfold_due _ _ _ Hdue), Hacc.
  split; [|split].
  - intros d prices -> Hd. simpl. rewrite Hd. by destruct prices.
  - intros d -> Hd. simpl.
    destruct (py.dict_get d "data") as [w|]; simpl in *; [|done].
    by rewrite Hd.
  - intros Hno. destruct v; try done. exfalso. apply Hno. by eexists.
Qed.

(** The body of the tests is cached; a body without [data] gives the
    empty price map. *)
Lemma latest_index_fill_first :
  let quote := JObj [("high", JNum 1); ("low", JNum 1)] in
  let net : network := fun _ =>
    Response 200 (Some (JObj [("data", JObj [("4151", quote)])])) in
  let bare : network := fun _ => Response 200 (Some (JObj [])) in
  items.latest_index net false items.new
  = (Ok [("4151", quote)],
     items.set_latest_cache (JObj [("4151", quote)]) items.new)
  /\ items.latest_index bare false items.new
     = (Ok [], items.set_latest_cache (JObj []) items.new).
Proof.
  intros quote net bare.
  assert (Hnet : accepted (net (items_request items.new "/latest"))
                          (JObj [("data", JObj [("4151", quote)])])).
  { exists 200. split; [reflexivity|lia]. }
  assert (Hbare : accepted (bare (items_request items.new "/latest"))
                           (JObj [])).
  { exists 200. split; [reflexivity|lia]. }
  split.
  - exact (proj1 (latest_index_fill net false items.new _ eq_refl Hnet)
             _ _ eq_refl eq_refl).
  - exact (proj1 (proj2 (latest_index_fill bare false items.new _ eq_refl
                           Hbare)) _ eq_refl eq_refl).
Defined.

(** ** The fuzzy path and the limits of [search] *)

Section fuzzy_facts.

Lemma fuzzy_search_cached net rf self rows prices query limit cutoff scorer :
  cached self rows prices ->
  items.fuzzy_search net (Some rf) query limit cutoff scorer self
  = (map_result (pick (tradeable_subset rows prices))
       (items.extract rf (items._apply_alias self query)
          (map item_name (tradeable_subset rows prices))
          (default (items.WRatio rf) (items.fuzz rf scorer)) limit cutoff),
     self).
Proof.
  intros Hc. unfold items.fuzzy_search, mbind, M_bind, read, lift.
  cbn beta iota. rewrite (tradeable_mapping_cached _ _ _ _ Hc).
  destruct Hc as (_ & Hobj & _).
  rewrite (map_result_ok _ item_name).
  2:{ eapply Forall_impl; [exact (tradeable_subset_obj rows prices Hobj)|].
      intros it Hit. by apply name_of_obj. }
  reflexivity.
Qed.

Lemma pick_ok its matches :
  Forall (fun m : string * Z * nat => (snd m < length its)%nat) matches ->
  exists out,
    map_result (pick its) matches = Ok out
    /\ Forall2 (fun it m => its !! (snd m) = Some it) out matches.
Proof.
  induction 1 as [|m matches Hm _ (out & IH & Hout)].
  - exists []. by split; [|constructor].
  - apply lookup_lt_is_Some_2 in Hm as [it Hit].
    assert (Hp : pick its m = Ok it) by (unfold pick; by rewrite Hit).
    exists (it :: out). split; [|by constructor].
    cbn [map_result]. by rewrite Hp, IH.
Qed.

Lemma pick_raises its matches :
  ~ Forall (fun m : string * Z * nat => (snd m < length its)%nat) matches ->
  map_result (pick its) matches = Raise IndexError.
Proof.
  induction matches as [|m matches IH]; intros H.
  - exfalso. apply H. constructor.
  - cbn [map_result].
    destruct (its !! snd m) as [it|] eqn:E.
    + assert (Hp : pick its m = Ok it) by (unfold pick; by rewrite E).
      rewrite Hp, IH; [done|]. intros Hr. apply H. constructor; [|done].
      by eapply lookup_lt_Some.
    + assert (Hp : pick its m = Raise IndexError)
        by (unfold pick; by rewrite E).
      by rewrite Hp.
Qed.

Lemma Forall2_lookup_in its (out : list json) (matches : list (string * Z * nat)) :
  Forall2 (fun it m => its !! (snd m) = Some it) out matches ->
  Forall (fun it => In it its) out.
Proof.
  induction 1 as [|it m out matches Hit _ IH]; constructor; [|done].
  apply list_elem_of_In. by eapply list_elem_of_lookup_2.
Qed.

End fuzzy_facts.

(** [fuzzy_search] on cached data, with rapidfuzz installed: [extract]
    is called with the alias of the query, the names of the tradeable
    rows in mapping order, the scorer of that name in [fuzz] or
    [WRatio] when [fuzz] has none, the limit and the cutoff.  When
    every index it returns is within the tradeable rows, the result is
    the tradeable row at each index, one per match and in the order of
    the matches; otherwise [IndexError] is raised.  The client is
    unchanged. *)
Theorem fuzzy_search_picks
    (net : network) (rf : items.Rapidfuzz) (self : items.ItemsClient)
    (rows : list json) (prices : dict) (query scorer : string)
    (limit cutoff : Z) :
  cached self rows prices ->
  let its := tradeable_subset rows prices in
  let matches :=
    items.extract rf (items._apply_alias self query) (map item_name its)
      (default (items.WRatio rf) (items.fuzz rf scorer)) limit cutoff in
  (Forall (fun m => (snd m < length its)%nat) matches ->
   exists out,
     items.fuzzy_search net (Some rf) query limit cutoff scorer self
     = (Ok out, self)
     /\ Forall2 (fun it m => its !! (snd m) = Some it) out matches
     /\ Forall (fun it => In it rows /\ tradeable prices it = true) out)
  /\ (~ Forall (fun m => (snd m < length its)%nat) matches ->
      items.fuzzy_search net (Some rf) query limit cutoff scorer self
      = (Raise IndexError, self)).
Proof.
  intros Hc its matches.
  rewrite (fuzzy_search_cached _ _ _ _ _ _ _ _ _ Hc).
  fold its. fold matches. split.
  - intros Hin. destruct (pick_ok its matches Hin) as (out & -> & Hout).
    exists out. split; [done|]. split; [done|].
    eapply Forall_impl; [exact (Forall2_lookup_in _ _ _ Hout)|].
    intros it Hit. by apply List.filter_In in Hit.
  - intros Hout. by rewrite (pick_raises its matches Hout).
Qed.

(** The whip is the only tradeable row; whatever the query, the match
    at index 0 is the whip. *)
Lemma fuzzy_search_picks_whip :
  let whip := JObj [("id", JNum 4151); ("name", JStr "Abyssal whip")] in
  let cape := JObj [("id", JNum 6570); ("name", JStr "Fire cape")] in
  let prices := [("4151", JNull)] in
  let self :=
    items.set_latest_cache (JObj prices)
      (items.set_mapping_cache (JArr [cape; whip]) items.new) in
  let rf :=
    {| items.fuzz := fun _ => None;
       items.WRatio := fun _ _ => 0;
       items.extract := fun q names scorer _ _ =>
         match names with
         | n :: _ => [(n, scorer q n, 0%nat)]
         | [] => []
         end |} in
  let net : network := fun _ => NoResponse in
  cached self [cape; whip] prices
  /\ (exists out,
        items.fuzzy_search net (Some rf) "whp" 10 60 "WRatio" self
        = (Ok out, self)
        /\ Forall (fun it => In it [cape; whip] /\ tradeable prices it = true)
                  out)
  /\ items.fuzzy_search net (Some rf) "whp" 10 60 "WRatio" self
     = (Ok [whip], self).
Proof.
  intros whip cape prices self rf net.
  assert (Hc : cached self [cape; whip] prices).
  { split; [reflexivity|]. split; [|reflexivity].
    repeat constructor; eexists; reflexivity. }
  split; [exact Hc|]. split; [|reflexivity].
  pose proof (fuzzy_search_picks net rf self [cape; whip] prices "whp"
                "WRatio" 10 60 Hc) as H.
  cbv zeta in H. destruct H as [H _].
  destruct H as (out & Heq & _ & Hin).
  { repeat constructor. }
  exists out. split; [exact Heq|exact Hin].
Defined.

(** [search] with [fuzzy=True] on cached data with no substring hit,
    rapidfuzz installed: [extract] is called with the alias of the
    alias of the query (the alias is applied once by [search] and once
    more by [fuzzy_search]), the names of the tradeable rows, the
    scorer [WRatio] of [fuzz] (or the attribute [WRatio] itself), the
    limit, or 10 when the limit is [None] or 0, and the cutoff; the
    result is the tradeable row at each index returned, or
    [IndexError]. *)
Theorem search_fuzzy_fallback
    (net : network) (rf : items.Rapidfuzz) (self : items.ItemsClient)
    (rows : list json) (prices : dict) (query : string)
    (limit : option Z) (cutoff : Z) :
  cached self rows prices ->
  matching self rows prices query = [] ->
  let its := tradeable_subset rows prices in
  let matches :=
    items.extract rf
      (items._apply_alias self (items._apply_alias self query))
      (map item_name its)
      (default (items.WRatio rf) (items.fuzz rf "WRatio"))
      (match limit with
       | Some n => if n =? 0 then 10 else n
       | None => 10
       end)
      cutoff in
  items.search net (Some rf) query limit true cutoff self
  = (map_result (pick its) matches, self)
  /\ (Forall (fun m => (snd m < length its)%nat) matches ->
      exists out,
        items.search net (Some rf) query limit true cutoff self
        = (Ok out, self)
        /\ Forall2 (fun it m => its !! (snd m) = Some it) out matches).
Proof.
  intros Hc Hnone its matches.
  assert (Heq : items.search net (Some rf) query limit true cutoff self
                = (map_result (pick its) matches, self)).
  { rewrite (search_cached _ _ _ _ _ _ _ _ _ Hc). cbn zeta.
    apply sorted_hits_nil in Hnone. rewrite Hnone. cbn [py.truthy orb negb].
    rewrite (fuzzy_search_cached _ _ _ _ _ _ _ _ _ Hc).
    subst its matches. repeat f_equal.
    destruct limit as [n|]; [|reflexivity]. simpl.
    by destruct (n =? 0). }
  split; [exact Heq|]. intros Hin. rewrite Heq.
  destruct (pick_ok its matches Hin) as (out & -> & Hout). by exists out.
Qed.

(** "tbow" is an alias of "zz", and "zz" of "Twisted bow": the search
    finds nothing for "zz", and the fuzzy search is asked for
    "Twisted bow". *)
Lemma search_fuzzy_fallback_tbow :
  let bow := JObj [("id", JNum 20997); ("name", JStr "Twisted bow")] in
  let prices := [("20997", JNull)] in
  let self :=
    {| items.base_url := constants.DEFAULT_ITEMS_BASE_URL;
       items.timeout := constants.DEFAULT_TIMEOUT;
       items.user_agent := "osrs_info";
       items._mapping_cache := JArr [bow];
       items._names_cache := None;
       items._latest_cache := JObj prices;
       items.aliases := <["tbow" := "zz"]> (<["zz" := "Twisted bow"]> ∅) |} in
  let rf :=
    {| items.fuzz := fun _ => None;
       items.WRatio := fun a b => if String.eqb a b then 100 else 0;
       items.extract := fun q names scorer _ cutoff =>
         match names with
         | n :: _ => if cutoff <=? scorer q n then [(n, scorer q n, 0%nat)]
                     else []
         | [] => []
         end |} in
  let net : network := fun _ => NoResponse in
  cached self [bow] prices
  /\ matching self [bow] prices "tbow" = []
  /\ items.search net (Some rf) "tbow" None true 60 self = (Ok [bow], self).
Proof.
  intros bow prices self rf net.
  assert (Hc : cached self [bow] prices).
  { split; [reflexivity|]. split; [|reflexivity].
    repeat constructor; eexists; reflexivity. }
  assert (Hnone : matching self [bow] prices "tbow" = []) by reflexivity.
  split; [exact Hc|]. split; [exact Hnone|].
  pose proof (search_fuzzy_fallback net rf self [bow] prices "tbow" None 60
                Hc Hnone) as H.
  cbv zeta in H. destruct H as [H _].
  etrans; [exact H|]. reflexivity.
Defined.

(** On cached data, when the search is not fuzzy or has a substring
    hit, a limit that is 0 or negative is taken as Python's slice
    takes it: the sorted hits without their last [-limit] elements, so
    all of them for 0, and none when [-limit] is their number or
    more. *)
Theorem search_limit_nonpositive
    (net : network) (rapidfuzz : option items.Rapidfuzz)
    (self : items.ItemsClient) (rows : list json) (prices : dict)
    (query : string) (n : Z) (fuzzy : bool) (cutoff : Z) :
  cached self rows prices ->
  matching self rows prices query <> [] \/ fuzzy = false ->
  n <= 0 ->
  exists hits,
    Permutation hits (matching self rows prices query)
    /\ Sorted name_le hits
    /\ items.search net rapidfuzz query (Some n) fuzzy cutoff self
       = (Ok (firstn (length hits - Z.to_nat (- n)) hits), self).
Proof.
  intros Hc Hsub Hn. exists (sorted_hits self rows prices query).
  split; [apply sorted_hits_perm|]. split; [apply sorted_hits_sorted|].
  rewrite (search_cached _ _ _ _ _ _ _ _ _ Hc). cbn zeta.
  assert (py.truthy (JArr (sorted_hits self rows prices query)) || negb fuzzy
          = true) as ->.
  { destruct Hsub as [Hne| ->]; [|apply orb_true_r].
    apply orb_true_iff. left. simpl.
    destruct (sorted_hits self rows prices query) eqn:E; [|done].
    by apply sorted_hits_nil in E. }
  simpl. destruct (n =? 0) eqn:E0; simpl.
  - assert (n = 0) as -> by lia. simpl.
    by rewrite Nat.sub_0_r, firstn_all.
  - unfold py.slice_to. assert ((n <? 0) = true) as -> by lia.
    do 2 f_equal. f_equal. lia.
Qed.

(** With a limit of -1 the search for "a" among the whip, the bludgeon
    and the boots loses its last hit, the boots. *)
Lemma search_limit_nonpositive_minus_one :
  let whip := JObj [("id", JNum 4151); ("name", JStr "Abyssal whip")] in
  let bludgeon := JObj [("id", JNum 13239); ("name", JStr "Abyssal bludgeon")] in
  let boots := JObj [("id", JNum 11840); ("name", JStr "Dragon boots")] in
  let prices := [("4151", JNull); ("13239", JNull); ("11840", JNull)] in
  let self :=
    items.set_latest_cache (JObj prices)
      (items.set_mapping_cache (JArr [whip; bludgeon; boots]) items.new) in
  let net : network := fun _ => NoResponse in
  cached self [whip; bludgeon; boots] prices
  /\ (exists hits,
        Permutation hits (matching self [whip; bludgeon; boots] prices "a")
        /\ Sorted name_le hits
        /\ items.search net None "a" (Some (-1)) false 60 self
           = (Ok (firstn (length hits - 1) hits), self))
  /\ items.search net None "a" (Some (-1)) false 60 self
     = (Ok [bludgeon; whip], self).
Proof.
  intros whip bludgeon boots prices self net.
  assert (Hc : cached self [whip; bludgeon; boots] prices).
  { split; [reflexivity|]. split; [|reflexivity].
    repeat constructor; eexists; reflexivity. }
  assert (Hn : -1 <= 0) by lia.
  split; [exact Hc|]. split; [|reflexivity].
  exact (search_limit_nonpositive net None self [whip; bludgeon; boots] prices
           "a" (-1) false 60 Hc (or_intror eq_refl) Hn).
Defined.

(** ** Once loaded, served from the caches *)

Section cache_facts.

Lemma mapping_not_due net self :
  py.is_none (items._mapping_cache self) = false ->
  items.mapping net false self = (py.iter (items._mapping_cache self), self).
Proof.
  intros H. unfold items.mapping, mbind, M_bind, read, lift. cbn beta iota.
  rewrite H. reflexivity.
Qed.

Lemma latest_index_not_due net self :
  py.is_none (items._latest_cache self) = false ->
  items.latest_index net false self
  = (py.to_dict (items._latest_cache self), self).
Proof.
  intros H. unfold items.latest_index, mbind, M_bind, read, lift.
  cbn beta iota. rewrite H. reflexivity.
Qed.

Lemma iter_ok_not_none v rows : py.iter v = Ok rows -> py.is_none v = false.
Proof. by destruct v. Qed.

Lemma to_dict_ok v d : py.to_dict v = Ok d -> v = JObj d.
Proof. destruct v; try done. by intros [= ->]. Qed.

(** What a call of [mapping] that returns leaves behind. *)
Lemma mapping_ok_cache net refresh self rows s1 :
  items.mapping net refresh self = (Ok rows, s1) ->
  py.iter (items._mapping_cache s1) = Ok rows
  /\ items._latest_cache s1 = items._latest_cache self.
Proof.
  destruct (py.is_none (items._mapping_cache self) || refresh) eqn:Hdue.
  - rewrite (mapping_unfold_due _ _ _ Hdue).
    destruct (requests_get_json _ _) as [v|e]; [|done].
    destruct (py.iter v) as [rows'|e] eqn:Ei; [|done].
    destruct (map_result items.name_of rows') as [names|e]; [|done].
    intros [= <- <-]. by destruct self.
  - apply orb_false_iff in Hdue as [Hn ->].
    rewrite (mapping_not_due _ _ Hn). intros [= Hi <-]. by split.
Qed.

(** What a call of [latest_index] that returns leaves behind. *)
Lemma latest_index_ok_cache net refresh self d s1 :
  items.latest_index net refresh self = (Ok d, s1) ->
  items._latest_cache s1 = JObj d
  /\ items._mapping_cache s1 = items._mapping_cache self.
Proof.
  destruct (py.is_none (items._latest_cache self) || refresh) eqn:Hdue.
  - rewrite (latest_index_unfold_due _ _ _ Hdue).
    destruct (requests_get_json _ _) as [v|e]; [|done].
    destruct (py.get v "data" (JObj [])) as [w|e]; [|done].
    cbn zeta. intros [= Hd <-]. apply to_dict_ok in Hd.
    rewrite Hd. by destruct self.
  - apply orb_false_iff in Hdue as [Hn ->].
    rewrite (latest_index_not_due _ _ Hn). intros [= Hd <-].
    by apply to_dict_ok in Hd.
Qed.

(** The parts of a call of [tradeable_mapping] that returns. *)
Lemma tradeable_mapping_ok_inv net refresh self its s' :
  items.tradeable_mapping net refresh self = (Ok its, s') ->
  exists rows latest,
    py.iter (items._mapping_cache s') = Ok rows
    /\ items._latest_cache s' = JObj latest
    /\ filter_result
         (fun it => i ← py.get it "id" JNull;
                    Ok (bool_decide
                          (py.str i ∈ (list_to_set (map fst latest) : gset string))))
         rows = Ok its.
Proof.
  unfold items.tradeable_mapping, mbind at 1, M_bind at 1.
  destruct (items.mapping net refresh self) as [[rows|e] s1] eqn:Em; [|done].
  unfold mbind at 1, M_bind at 1.
  destruct (items.latest_index net refresh s1) as [[latest|e] s2] eqn:El;
    [|done].
  unfold lift. intros [= Hf <-].
  apply mapping_ok_cache in Em as [Hi _].
  apply latest_index_ok_cache in El as [Hl Hm].
  exists rows, latest. by rewrite Hm.
Qed.

Lemma tradeable_mapping_stable net self its rows latest :
  py.iter (items._mapping_cache self) = Ok rows ->
  items._latest_cache self = JObj latest ->
  filter_result
    (fun it => i ← py.get it "id" JNull;
               Ok (bool_decide
                     (py.str i ∈ (list_to_set (map fst latest) : gset string))))
    rows = Ok its ->
  items.tradeable_mapping net false self = (Ok its, self).
Proof.
  intros Hi Hl Hf. unfold items.tradeable_mapping, mbind, M_bind.
  rewrite (mapping_not_due _ _ (iter_ok_not_none _ _ Hi)), Hi.
  rewrite (latest_index_cached _ _ _ Hl). unfold lift. cbn zeta.
  f_equal. exact Hf.
Qed.

End cache_facts.

(** After a call of [tradeable_mapping] that returns, with or without
    refresh, the network is not needed any more: every later call
    without refresh returns the same rows and leaves the client as it
    is, whatever the network answers, and so [lookup], [latest] and
    [search] give the same result on any two networks. *)
Theorem served_from_cache
    (net : network) (refresh : bool) (self : items.ItemsClient)
    (its : list json) (s' : items.ItemsClient) :
  items.tradeable_mapping net refresh self = (Ok its, s') ->
  (forall net', items.tradeable_mapping net' false s' = (Ok its, s'))
  /\ (forall net' net'' item,
        items.lookup net' item s' = items.lookup net'' item s')
  /\ (forall net' net'' n,
        items.latest net' n s' = items.latest net'' n s')
  /\ (forall net' net'' rapidfuzz query limit fuzzy cutoff,
        items.search net' rapidfuzz query limit fuzzy cutoff s'
        = items.search net'' rapidfuzz query limit fuzzy cutoff s').
Proof.
  intros H. apply tradeable_mapping_ok_inv in H
    as (rows & latest & Hi & Hl & Hf).
  assert (Htm : forall net', items.tradeable_mapping net' false s'
                             = (Ok its, s'))
    by (intros net'; by eapply tradeable_mapping_stable).
  assert (Hlat : forall net', items.latest_index net' false s'
                              = (Ok latest, s'))
    by (intros net'; by apply latest_index_cached).
  split; [exact Htm|]. split; [|split].
  - intros net' net'' item. unfold items.lookup, mbind, M_bind.
    rewrite (Htm net'), (Htm net''). destruct item as [n|name]; [|done].
    by rewrite (Hlat net'), (Hlat net'').
  - intros net' net'' n. unfold items.latest, mbind, M_bind.
    by rewrite (Hlat net'), (Hlat net'').
  - intros net' net'' rapidfuzz query limit fuzzy cutoff.
    unfold items.search, mbind, M_bind, read. cbn beta iota.
    rewrite (Htm net'), (Htm net'').
    destruct (lift _ s') as [[hits|e] s1] eqn:E1; [|done].
    unfold lift in E1. injection E1 as _ <-.
    destruct (lift _ s') as [[keys|e] s1] eqn:E2; [|done].
    unfold lift in E2. injection E2 as _ <-.
    destruct (py.truthy _ || negb fuzzy); [done|].
    unfold items.fuzzy_search, mbind, M_bind, read. cbn beta iota.
    destruct rapidfuzz as [rf|]; [|done].
    by rewrite (Htm net'), (Htm net'').
Qed.

(** A new client loads the whip and its price; after that the rows
    are returned without a network. *)
Lemma served_from_cache_offline :
  let whip := JObj [("id", JNum 4151); ("name", JStr "Abyssal whip")] in
  let quote := JObj [("high", JNum 1); ("low", JNum 1)] in
  let net : network := fun req =>
    if String.eqb (req_url req)
                  (constants.DEFAULT_ITEMS_BASE_URL +:+ "/mapping")
    then Response 200 (Some (JArr [whip]))
    else Response 200 (Some (JObj [("data", JObj [("4151", quote)])])) in
  let offline : network := fun _ => NoResponse in
  let loaded := snd (items.tradeable_mapping net false items.new) in
  items.tradeable_mapping net false items.new = (Ok [whip], loaded)
  /\ items.tradeable_mapping offline false loaded = (Ok [whip], loaded).
Proof.
  intros whip quote net offline loaded.
  assert (H : items.tradeable_mapping net false items.new
              = (Ok [whip], loaded)) by reflexivity.
  split; [exact H|].
  exact (proj1 (served_from_cache net false items.new [whip] loaded H)
           offline).
Defined.
